(** * The RFB client protocol engine of Veyon (core/src/VncClientProtocol.cpp)

    A shallow embedding of [VncClientProtocol]: the handshake state machine
    driven by [read()], the Running-state dispatcher [receiveMessage()] and
    the rectangle decoders that find the byte boundaries of a framebuffer
    update.  The socket is modelled by its unread bytes, the bytes written
    so far and an open flag; every member function becomes a function from
    the object's state to its result and the new state. *)

From Stdlib Require Import ZArith List Bool Lia.
From Stdlib.Strings Require Import Byte.
Import ListNotations.
Local Open Scope Z_scope.

(** ** Bytes, wire integers and C++ integer conversions *)

Definition byteZ (b : byte) : Z := Z.of_N (Byte.to_N b).

Definition len {A : Type} (l : list A) : Z := Z.of_nat (length l).

(** The first [n] elements of [l], for a 64-bit count [n] ([qint64 maxSize]);
    nothing for [n <= 0]. *)
Fixpoint take {A : Type} (n : Z) (l : list A) : list A :=
  match l with
  | [] => []
  | x :: t => if 0 <? n then x :: take (n - 1) t else []
  end.

Fixpoint drop {A : Type} (n : Z) (l : list A) : list A :=
  match l with
  | [] => []
  | x :: t => if 0 <? n then drop (n - 1) t else l
  end.

(** [qFromBigEndian] applied to a struct field that was copied from the wire:
    the field's bytes read most significant first. *)
Definition qFromBigEndian (field : list byte) : Z :=
  fold_left (fun acc b => acc * 256 + byteZ b) field 0.

(** The [uint8_t] at offset [off] of a struct image, zero where no byte was
    stored. *)
Definition uint8At (off : Z) (bytes : list byte) : Z :=
  match drop off bytes with
  | b :: _ => byteZ b
  | [] => 0
  end.

(** The [n] bytes at offset [off] of a struct image. *)
Definition field (off n : Z) (bytes : list byte) : list byte :=
  take n (drop off bytes).

(** Arithmetic in [uint] wraps at 32 bits. *)
Definition uint32 (z : Z) : Z := z mod 2 ^ 32.

(** [static_cast<int>] of a 32-bit unsigned value (two's complement). *)
Definition toInt (z : Z) : Z :=
  if uint32 z <? 2 ^ 31 then uint32 z else uint32 z - 2 ^ 32.

(** ** Constants of the wire format

    Modelled from the spec: the header rfb/rfbproto.h, which declares the
    message sizes, message types, encoding identifiers, security types and
    Hextile flags used below, is not among the sources.  The spec fixes the
    12-byte version line, the 16-byte challenge, the 4-byte security result
    and the 255-byte name bound; the remaining values are those of the RFB
    wire protocol the header transcribes. *)
Module Rfb.
Definition sz_rfbProtocolVersionMsg : Z := 12.
Definition CHALLENGESIZE : Z := 16.
Definition sz_rfbClientInitMsg : Z := 1.
Definition sz_rfbPixelFormat : Z := 16.
Definition sz_rfbServerInitMsg : Z := 8 + sz_rfbPixelFormat.
Definition sz_rfbFramebufferUpdateMsg : Z := 4.
Definition sz_rfbFramebufferUpdateRectHeader : Z := 12.
Definition sz_rfbRectangle : Z := 8.
Definition sz_rfbXCursorColors : Z := 6.
Definition sz_rfbSupportedMessages : Z := 64.
Definition sz_rfbCopyRect : Z := 4.
Definition sz_rfbRREHeader : Z := 4.
Definition sz_rfbZlibHeader : Z := 4.
Definition sz_rfbZRLEHeader : Z := 4.
Definition sz_rfbSetColourMapEntriesMsg : Z := 6.
Definition sz_rfbBellMsg : Z := 1.
Definition sz_rfbServerCutTextMsg : Z := 8.
Definition sz_rfbResizeFrameBufferMsg : Z := 6.
Definition sz_rfbXvpMsg : Z := 4.

Definition rfbSecTypeInvalid : byte := x00.
Definition rfbSecTypeNone : byte := x01.
Definition rfbSecTypeVncAuth : byte := x02.
Definition rfbVncAuthOK : Z := 0.

Definition rfbFramebufferUpdate : Z := 0.
Definition rfbSetColourMapEntries : Z := 1.
Definition rfbBell : Z := 2.
Definition rfbServerCutText : Z := 3.
Definition rfbResizeFrameBuffer : Z := 4.
Definition rfbXvp : Z := 250.

Definition rfbEncodingRaw : Z := 0.
Definition rfbEncodingCopyRect : Z := 1.
Definition rfbEncodingRRE : Z := 2.
Definition rfbEncodingCoRRE : Z := 4.
Definition rfbEncodingHextile : Z := 5.
Definition rfbEncodingZlib : Z := 6.
Definition rfbEncodingUltra : Z := 9.
Definition rfbEncodingZRLE : Z := 16.
Definition rfbEncodingZYWRLE : Z := 17.
Definition rfbEncodingUltraZip : Z := 0xFFFF0009.
Definition rfbEncodingXCursor : Z := 0xFFFFFF10.
Definition rfbEncodingRichCursor : Z := 0xFFFFFF11.
Definition rfbEncodingPointerPos : Z := 0xFFFFFF18.
Definition rfbEncodingLastRect : Z := 0xFFFFFF20.
Definition rfbEncodingNewFBSize : Z := 0xFFFFFF21.
Definition rfbEncodingKeyboardLedState : Z := 0xFFFE0000.
Definition rfbEncodingSupportedMessages : Z := 0xFFFE0001.
Definition rfbEncodingSupportedEncodings : Z := 0xFFFE0002.
Definition rfbEncodingServerIdentity : Z := 0xFFFE0003.

Definition rfbHextileRaw : Z := 1.
Definition rfbHextileBackgroundSpecified : Z := 2.
Definition rfbHextileForegroundSpecified : Z := 4.
Definition rfbHextileAnySubrects : Z := 8.
Definition rfbHextileSubrectsColoured : Z := 16.
End Rfb.
Import Rfb.

(** ** The transport: a [QTcpSocket]

    [sk_in] holds the bytes that arrived and were not read yet, [sk_out] the
    bytes written so far.  A write on an open socket takes all its bytes.
    [close()] drops the read buffer, so that a closed socket has no bytes
    available, and later writes have no effect. *)
Record QTcpSocket := mkSocket {
  sk_in : list byte;
  sk_out : list byte;
  sk_open : bool
}.

Definition bytesAvailable (sk : QTcpSocket) : Z := len (sk_in sk).

Definition sk_peek (sk : QTcpSocket) (maxSize : Z) : list byte :=
  take maxSize (sk_in sk).

Definition sk_read (sk : QTcpSocket) (maxSize : Z) : list byte * QTcpSocket :=
  (take maxSize (sk_in sk),
   mkSocket (drop maxSize (sk_in sk)) (sk_out sk) (sk_open sk)).

Definition sk_write (sk : QTcpSocket) (data : list byte) : QTcpSocket :=
  if sk_open sk then mkSocket (sk_in sk) (sk_out sk ++ data) true else sk.

Definition sk_close (sk : QTcpSocket) : QTcpSocket :=
  mkSocket [] (sk_out sk) false.

(** Bytes arriving from the server: appended to the read buffer of an open
    socket. *)
Definition sk_deliver (sk : QTcpSocket) (chunk : list byte) : QTcpSocket :=
  if sk_open sk then mkSocket (sk_in sk ++ chunk) (sk_out sk) true else sk.

(** ** Geometry: [QRect] and [QRegion]

    A region is kept as the list of the non-empty rectangles united into it;
    [boundingRect] is the smallest rectangle around them, the null rectangle
    for the empty region. *)
Record QRect := mkRect { r_x : Z; r_y : Z; r_w : Z; r_h : Z }.

Definition QRegion := list QRect.

Definition rect_isEmpty (r : QRect) : bool := (r_w r <=? 0) || (r_h r <=? 0).

Definition rect_contains (r : QRect) (px py : Z) : Prop :=
  r_x r <= px < r_x r + r_w r /\ r_y r <= py < r_y r + r_h r.

Definition region_contains (rg : QRegion) (px py : Z) : Prop :=
  exists r, In r rg /\ rect_contains r px py.

(** [region += rect] *)
Definition region_add (rg : QRegion) (r : QRect) : QRegion :=
  if rect_isEmpty r then rg else rg ++ [r].

Definition rect_united (a b : QRect) : QRect :=
  let x := Z.min (r_x a) (r_x b) in
  let y := Z.min (r_y a) (r_y b) in
  mkRect x y
    (Z.max (r_x a + r_w a) (r_x b + r_w b) - x)
    (Z.max (r_y a + r_h a) (r_y b + r_h b) - y).

Definition boundingRect (rg : QRegion) : QRect :=
  match rg with
  | [] => mkRect 0 0 0 0
  | r :: rest => fold_left rect_united rest r
  end.

(** ** The protocol object

    [State] has the states the source names; the members are those the
    source reads and writes, the pixel format kept as the 16 bytes that
    [memcpy] stores. *)
Inductive State :=
| Protocol | SecurityInit | SecurityChallenge | SecurityResult
| FramebufferInit | Running.

Record VncClientProtocol := mkProtocol {
  m_socket : QTcpSocket;
  m_state : State;
  m_vncPassword : list byte;
  m_serverInitMessage : list byte;
  m_pixelFormat : list byte;
  m_framebufferWidth : Z;
  m_framebufferHeight : Z;
  m_lastMessage : list byte;
  m_lastUpdatedRect : QRect
}.

Definition set_socket (s : VncClientProtocol) (sk : QTcpSocket) :=
  mkProtocol sk (m_state s) (m_vncPassword s) (m_serverInitMessage s)
    (m_pixelFormat s) (m_framebufferWidth s) (m_framebufferHeight s)
    (m_lastMessage s) (m_lastUpdatedRect s).

Definition set_state (s : VncClientProtocol) (st : State) :=
  mkProtocol (m_socket s) st (m_vncPassword s) (m_serverInitMessage s)
    (m_pixelFormat s) (m_framebufferWidth s) (m_framebufferHeight s)
    (m_lastMessage s) (m_lastUpdatedRect s).

Definition set_serverInitMessage (s : VncClientProtocol) (m : list byte) :=
  mkProtocol (m_socket s) (m_state s) (m_vncPassword s) m
    (m_pixelFormat s) (m_framebufferWidth s) (m_framebufferHeight s)
    (m_lastMessage s) (m_lastUpdatedRect s).

Definition set_pixelFormat (s : VncClientProtocol) (pf : list byte) :=
  mkProtocol (m_socket s) (m_state s) (m_vncPassword s) (m_serverInitMessage s)
    pf (m_framebufferWidth s) (m_framebufferHeight s)
    (m_lastMessage s) (m_lastUpdatedRect s).

Definition set_framebufferSize (s : VncClientProtocol) (w h : Z) :=
  mkProtocol (m_socket s) (m_state s) (m_vncPassword s) (m_serverInitMessage s)
    (m_pixelFormat s) w h (m_lastMessage s) (m_lastUpdatedRect s).

Definition set_lastMessage (s : VncClientProtocol) (m : list byte) :=
  mkProtocol (m_socket s) (m_state s) (m_vncPassword s) (m_serverInitMessage s)
    (m_pixelFormat s) (m_framebufferWidth s) (m_framebufferHeight s)
    m (m_lastUpdatedRect s).

Definition set_lastUpdatedRect (s : VncClientProtocol) (r : QRect) :=
  mkProtocol (m_socket s) (m_state s) (m_vncPassword s) (m_serverInitMessage s)
    (m_pixelFormat s) (m_framebufferWidth s) (m_framebufferHeight s)
    (m_lastMessage s) r.

(** [m_socket->close()] *)
Definition closeSocket (s : VncClientProtocol) : VncClientProtocol :=
  set_socket s (sk_close (m_socket s)).

(** [void VncClientProtocol::start()] *)
Definition start (s : VncClientProtocol) : VncClientProtocol :=
  set_state s Protocol.

(** ** Handshake *)

Definition isDigit (b : byte) : bool :=
  (48 <=? byteZ b) && (byteZ b <=? 57).

(** [QString::toInt] of a capture of three digits. *)
Definition toInt3 (a b c : byte) : Z :=
  (byteZ a - 48) * 100 + (byteZ b - 48) * 10 + (byteZ c - 48).

(** The match of [RFB (\d\d\d)\.(\d\d\d)\n] against the twelve bytes read
    from the socket, with the values of the two captures.  The subject has
    the length of the pattern, so a match covers all of it; [\d] is an ASCII
    digit, and a byte outside ASCII never decodes to one. *)
Definition matchProtocolVersion (protocol : list byte) : option (Z * Z) :=
  match protocol with
  | [r; f; b; sp; a1; a2; a3; dot; b1; b2; b3; nl] =>
      if Byte.eqb r x52 && Byte.eqb f x46 && Byte.eqb b x42 && Byte.eqb sp x20
         && isDigit a1 && isDigit a2 && isDigit a3 && Byte.eqb dot x2e
         && isDigit b1 && isDigit b2 && isDigit b3 && Byte.eqb nl x0a
      then Some (toInt3 a1 a2 a3, toInt3 b1 b2 b3)
      else None
  | _ => None
  end.

(** [bool VncClientProtocol::readProtocol()] *)
Definition readProtocol (s : VncClientProtocol) : bool * VncClientProtocol :=
  if bytesAvailable (m_socket s) =? sz_rfbProtocolVersionMsg then
    let (protocol, sk) := sk_read (m_socket s) sz_rfbProtocolVersionMsg in
    let s := set_socket s sk in
    if negb (len protocol =? sz_rfbProtocolVersionMsg) then
      (false, closeSocket s)
    else
      match matchProtocolVersion protocol with
      | Some (major, minor) =>
          if negb (major =? 3) || (minor <? 7) then (false, closeSocket s)
          else
            (true, set_state (set_socket s (sk_write (m_socket s) protocol)) SecurityInit)
      | None => (false, closeSocket s)
      end
  else (false, s).

(** [QByteArray::contains(char)] *)
Definition contains (l : list byte) (c : byte) : bool :=
  existsb (Byte.eqb c) l.

(** [bool VncClientProtocol::receiveSecurityTypes()] *)
Definition receiveSecurityTypes (s : VncClientProtocol) : bool * VncClientProtocol :=
  if bytesAvailable (m_socket s) >=? 2 then
    let (countByte, sk) := sk_read (m_socket s) 1 in
    let s := set_socket s sk in
    let securityTypeCount := uint8At 0 countByte in
    if securityTypeCount =? 0 then (false, closeSocket s)
    else
      let (securityTypeList, sk) := sk_read (m_socket s) securityTypeCount in
      let s := set_socket s sk in
      if negb (len securityTypeList =? securityTypeCount) then
        (false, closeSocket s)
      else if contains securityTypeList rfbSecTypeVncAuth then
        let s := set_state s SecurityChallenge in
        (true, set_socket s (sk_write (m_socket s) [rfbSecTypeVncAuth]))
      else if contains securityTypeList rfbSecTypeNone then
        let s := set_state s SecurityResult in
        (true, set_socket s (sk_write (m_socket s) [rfbSecTypeNone]))
      else (false, closeSocket s)
  else (false, s).

Section Cipher.

(** The cipher primitive of d3des: [rfbDesKey(key, EN0)] followed by
    [rfbDes(in, out)] encrypts the 8-byte block [in] under [key]. *)
Variable rfbDes : list byte -> list byte -> list byte.

Definition KeyLength : Z := 8.

(** The key loop of [vncEncryptBytes]: byte [i] of the key is byte [i] of
    the password where there is one, and zero elsewhere. *)
Definition passwordKey (passwd : list byte) : list byte :=
  map (fun i : nat =>
         if Z.of_nat i <? len passwd then nth i passwd x00 else x00)
      (seq 0 (Z.to_nat KeyLength)).

(** [rfbDes(bytes+i, bytes+i)]: the block at offset [i] is replaced by its
    encryption. *)
Definition encryptBlockAt (key bytes : list byte) (i : Z) : list byte :=
  take i bytes ++ rfbDes key (field i KeyLength bytes) ++ drop (i + KeyLength) bytes.

(** [static void vncEncryptBytes(bytes, passwd, passwd_length)]: the block
    loop runs for [i = 0, 8]. *)
Definition vncEncryptBytes (bytes passwd : list byte) : list byte :=
  let key := passwordKey passwd in
  fold_left (encryptBlockAt key)
    (map (fun k : nat => Z.of_nat k * KeyLength)
         (seq 0 (Z.to_nat (CHALLENGESIZE / KeyLength))))
    bytes.

(** [bool VncClientProtocol::receiveSecurityChallenge()] *)
Definition receiveSecurityChallenge (s : VncClientProtocol) : bool * VncClientProtocol :=
  if bytesAvailable (m_socket s) >=? CHALLENGESIZE then
    let (challenge, sk) := sk_read (m_socket s) CHALLENGESIZE in
    let s := set_socket s sk in
    let challenge := vncEncryptBytes challenge (m_vncPassword s) in
    let s := set_socket s (sk_write (m_socket s) (take CHALLENGESIZE challenge)) in
    (true, set_state s SecurityResult)
  else (false, s).

End Cipher.

(** [bool VncClientProtocol::receiveSecurityResult()] *)
Definition receiveSecurityResult (s : VncClientProtocol) : bool * VncClientProtocol :=
  if bytesAvailable (m_socket s) >=? 4 then
    let (authResult, sk) := sk_read (m_socket s) 4 in
    let s := set_socket s sk in
    if negb (qFromBigEndian authResult =? rfbVncAuthOK) then (false, closeSocket s)
    else
      let s := set_socket s (sk_write (m_socket s) [x01]) in
      (true, set_state s FramebufferInit)
  else (false, s).

(** Fields of [rfbServerInitMsg]: framebufferWidth, framebufferHeight,
    format, nameLength. *)
Definition serverInit_framebufferWidth (m : list byte) := field 0 2 m.
Definition serverInit_framebufferHeight (m : list byte) := field 2 2 m.
Definition serverInit_format (m : list byte) := field 4 sz_rfbPixelFormat m.
Definition serverInit_nameLength (m : list byte) := field (4 + sz_rfbPixelFormat) 4 m.

(** [bool VncClientProtocol::receiveServerInitMessage()] *)
Definition receiveServerInitMessage (s : VncClientProtocol) : bool * VncClientProtocol :=
  let message := sk_peek (m_socket s) sz_rfbServerInitMsg in
  if (bytesAvailable (m_socket s) >=? sz_rfbServerInitMsg)
     && (len message =? sz_rfbServerInitMsg) then
    let nameLength := qFromBigEndian (serverInit_nameLength message) in
    if nameLength >? 255 then (false, closeSocket s)
    else
      let s := set_pixelFormat s (serverInit_format message) in
      if len (sk_peek (m_socket s) nameLength) =? nameLength then
        let (msg, sk) := sk_read (m_socket s) (uint32 (sz_rfbServerInitMsg + nameLength)) in
        let s := set_serverInitMessage (set_socket s sk) msg in
        let s := set_framebufferSize s
                   (qFromBigEndian (serverInit_framebufferWidth (m_serverInitMessage s)))
                   (qFromBigEndian (serverInit_framebufferHeight (m_serverInitMessage s))) in
        (true, set_state s Running)
      else (false, s)
  else (false, s).

(** [bool VncClientProtocol::read()]: the Running state has no case of its
    own and falls to [default]. *)
Definition read (rfbDes : list byte -> list byte -> list byte)
    (s : VncClientProtocol) : bool * VncClientProtocol :=
  match m_state s with
  | Protocol => readProtocol s
  | SecurityInit => receiveSecurityTypes s
  | SecurityChallenge => receiveSecurityChallenge rfbDes s
  | SecurityResult => receiveSecurityResult s
  | FramebufferInit => receiveServerInitMessage s
  | Running => (false, s)
  end.

(** ** Running state: message framing *)

(** A [QBuffer] opened read-only over a byte array: the bytes after the
    position, and the position. *)
Record QBuffer := mkBuffer { buf_rest : list byte; buf_pos : Z }.

Definition buf_open (data : list byte) : QBuffer := mkBuffer data 0.

(** [QIODevice::read(maxSize)]: up to [maxSize] bytes; nothing is read for a
    negative [maxSize]. *)
Definition buf_read (b : QBuffer) (maxSize : Z) : list byte * QBuffer :=
  let chunk := take maxSize (buf_rest b) in
  (chunk, mkBuffer (drop maxSize (buf_rest b)) (buf_pos b + len chunk)).

(** The decoders return [false] at the first short read, and their caller
    [receiveFramebufferUpdateMessage] then returns [false] and drops its
    local buffer: a decoder is a partial function of the buffer, [None]
    standing for [false].

    [readExact b n] is [buffer.read(n)] with the test that [n] bytes came;
    [n] is an [int] and may be negative, in which case the test fails. *)
Definition readExact (b : QBuffer) (size : Z) : option (list byte * QBuffer) :=
  let (chunk, b') := buf_read b size in
  if len chunk =? size then Some (chunk, b') else None.

(** [buffer.read(n).size() == static_cast<int>(n)] for an unsigned [n]. *)
Definition readUInt (b : QBuffer) (n : Z) : option QBuffer :=
  let (chunk, b') := buf_read b (uint32 n) in
  if len chunk =? toInt n then Some b' else None.

Definition skipExact (b : QBuffer) (size : Z) : option QBuffer :=
  option_map snd (readExact b size).

Definition bind {A B : Type} (x : option A) (f : A -> option B) : option B :=
  match x with
  | Some a => f a
  | None => None
  end.

Notation "x <- e ;; k" := (bind e (fun x => k))
  (at level 61, e at next level, right associativity).
Notation "' p <- e ;; k" := (bind e (fun p => k))
  (at level 61, p pattern, e at next level, right associativity).

Record rfbFramebufferUpdateRectHeader := mkRectHeader {
  rh_x : Z; rh_y : Z; rh_w : Z; rh_h : Z; rh_encoding : Z
}.

(** [bool VncClientProtocol::handleRectEncodingRRE(buffer, bytesPerPixel)] *)
Definition handleRectEncodingRRE (buffer : QBuffer) (bytesPerPixel : Z) : option QBuffer :=
  '(hdr, buffer) <- readExact buffer sz_rfbRREHeader ;;
  let rectDataSize := uint32 (qFromBigEndian (field 0 4 hdr) * uint32 (bytesPerPixel + sz_rfbRectangle)) in
  let totalDataSize := toInt (bytesPerPixel + rectDataSize) in
  skipExact buffer totalDataSize.

(** [bool VncClientProtocol::handleRectEncodingCoRRE(buffer, bytesPerPixel)] *)
Definition handleRectEncodingCoRRE (buffer : QBuffer) (bytesPerPixel : Z) : option QBuffer :=
  '(hdr, buffer) <- readExact buffer sz_rfbRREHeader ;;
  let rectDataSize := uint32 (qFromBigEndian (field 0 4 hdr) * uint32 (bytesPerPixel + 4)) in
  let totalDataSize := toInt (bytesPerPixel + rectDataSize) in
  skipExact buffer totalDataSize.

(** The values the loop variable of [for( uint v = start; v < start+extent;
    v += 16 )] takes. *)
Definition tileStarts (start extent : Z) : list Z :=
  map (fun k : nat => start + 16 * Z.of_nat k)
      (seq 0 (Z.to_nat ((extent + 15) / 16))).

(** The width (height) of the tile at [v] in a rectangle that ends at
    [stop = start + extent]. *)
Definition tileExtent (stop v : Z) : Z :=
  if uint32 (stop - v) <? 16 then uint32 (stop - v) else 16.

Definition flagSet (subEncoding flag : Z) : bool :=
  negb (Z.land subEncoding flag =? 0).

(** The body of the tile loop of [handleRectEncodingHextile], for a tile of
    [w] by [h] pixels. *)
Definition hextileTile (w h bytesPerPixel : Z) (buffer : QBuffer) : option QBuffer :=
  '(sub, buffer) <- readExact buffer 1 ;;
  let subEncoding := uint8At 0 sub in
  if flagSet subEncoding rfbHextileRaw then
    skipExact buffer (toInt (w * h * bytesPerPixel))
  else
    buffer <- (if flagSet subEncoding rfbHextileBackgroundSpecified
               then readUInt buffer bytesPerPixel else Some buffer) ;;
    buffer <- (if flagSet subEncoding rfbHextileForegroundSpecified
               then readUInt buffer bytesPerPixel else Some buffer) ;;
    if negb (flagSet subEncoding rfbHextileAnySubrects) then Some buffer
    else
      '(n, buffer) <- readExact buffer 1 ;;
      let nSubrects := uint8At 0 n in
      let subRectDataSize :=
        if flagSet subEncoding rfbHextileSubrectsColoured
        then toInt (nSubrects * (2 + bytesPerPixel))
        else nSubrects * 2 in
      skipExact buffer subRectDataSize.

(** A [for] loop whose body may return [false] from the function. *)
Fixpoint forEach {A : Type} (l : list A) (body : A -> QBuffer -> option QBuffer)
    (buffer : QBuffer) : option QBuffer :=
  match l with
  | [] => Some buffer
  | a :: rest => buffer <- body a buffer ;; forEach rest body buffer
  end.

(** [bool VncClientProtocol::handleRectEncodingHextile(buffer, rectHeader,
    bytesPerPixel)] *)
Definition handleRectEncodingHextile (buffer : QBuffer)
    (rectHeader : rfbFramebufferUpdateRectHeader) (bytesPerPixel : Z) : option QBuffer :=
  let rx := rh_x rectHeader in
  let ry := rh_y rectHeader in
  let rw := rh_w rectHeader in
  let rh := rh_h rectHeader in
  forEach (tileStarts ry rh)
    (fun y => forEach (tileStarts rx rw)
       (fun x => hextileTile (tileExtent (rx + rw) x) (tileExtent (ry + rh) y)
                   bytesPerPixel))
    buffer.

(** [bool VncClientProtocol::handleRectEncodingZlib(buffer)] *)
Definition handleRectEncodingZlib (buffer : QBuffer) : option QBuffer :=
  '(hdr, buffer) <- readExact buffer sz_rfbZlibHeader ;;
  readUInt buffer (qFromBigEndian (field 0 4 hdr)).

(** [bool VncClientProtocol::handleRectEncodingZRLE(buffer)] *)
Definition handleRectEncodingZRLE (buffer : QBuffer) : option QBuffer :=
  '(hdr, buffer) <- readExact buffer sz_rfbZRLEHeader ;;
  readUInt buffer (qFromBigEndian (field 0 4 hdr)).

(** [m_pixelFormat.bitsPerPixel], the first byte of [rfbPixelFormat]. *)
Definition bitsPerPixel (pixelFormat : list byte) : Z := uint8At 0 pixelFormat.

Definition encodingIn (encoding : Z) (cases : list Z) : bool :=
  existsb (Z.eqb encoding) cases.

(** [bool VncClientProtocol::handleRect(buffer, rectHeader)]; the socket is
    closed for an encoding without a case. *)
Definition handleRect (s : VncClientProtocol) (buffer : QBuffer)
    (rectHeader : rfbFramebufferUpdateRectHeader) : option QBuffer * VncClientProtocol :=
  let width := rh_w rectHeader in
  let height := rh_h rectHeader in
  let bytesPerPixel := bitsPerPixel (m_pixelFormat s) / 8 in
  let bytesPerRow := (width + 7) / 8 in
  let encoding := rh_encoding rectHeader in
  if encodingIn encoding [rfbEncodingLastRect] then (Some buffer, s)
  else if encodingIn encoding [rfbEncodingXCursor] then
    (if uint32 (width * height) =? 0 then Some buffer
     else buffer <- skipExact buffer sz_rfbXCursorColors ;;
          readUInt buffer (2 * bytesPerRow * height), s)
  else if encodingIn encoding [rfbEncodingRichCursor] then
    (if uint32 (width * height) =? 0 then Some buffer
     else buffer <- readUInt buffer (width * height * bytesPerPixel) ;;
          readUInt buffer (bytesPerRow * height), s)
  else if encodingIn encoding [rfbEncodingSupportedMessages] then
    (skipExact buffer sz_rfbSupportedMessages, s)
  else if encodingIn encoding [rfbEncodingSupportedEncodings; rfbEncodingServerIdentity] then
    (readUInt buffer width, s)
  else if encodingIn encoding [rfbEncodingRaw] then
    (readUInt buffer (width * height * bytesPerPixel), s)
  else if encodingIn encoding [rfbEncodingCopyRect] then
    (skipExact buffer sz_rfbCopyRect, s)
  else if encodingIn encoding [rfbEncodingRRE] then
    (handleRectEncodingRRE buffer bytesPerPixel, s)
  else if encodingIn encoding [rfbEncodingCoRRE] then
    (handleRectEncodingCoRRE buffer bytesPerPixel, s)
  else if encodingIn encoding [rfbEncodingHextile] then
    (handleRectEncodingHextile buffer rectHeader bytesPerPixel, s)
  else if encodingIn encoding [rfbEncodingUltra; rfbEncodingUltraZip; rfbEncodingZlib] then
    (handleRectEncodingZlib buffer, s)
  else if encodingIn encoding [rfbEncodingZRLE; rfbEncodingZYWRLE] then
    (handleRectEncodingZRLE buffer, s)
  else if encodingIn encoding
            [rfbEncodingPointerPos; rfbEncodingKeyboardLedState; rfbEncodingNewFBSize] then
    (Some buffer, s)
  else (None, closeSocket s).

(** [bool VncClientProtocol::isPseudoEncoding(header)] *)
Definition isPseudoEncoding (header : rfbFramebufferUpdateRectHeader) : bool :=
  encodingIn (rh_encoding header)
    [rfbEncodingSupportedEncodings; rfbEncodingSupportedMessages;
     rfbEncodingServerIdentity; rfbEncodingPointerPos;
     rfbEncodingKeyboardLedState; rfbEncodingNewFBSize].

(** The rectangle header as [receiveFramebufferUpdateMessage] converts it
    from the wire: x, y, w, h (16 bits each) and the encoding (32 bits). *)
Definition decodeRectHeader (bytes : list byte) : rfbFramebufferUpdateRectHeader :=
  mkRectHeader (qFromBigEndian (field 0 2 bytes)) (qFromBigEndian (field 2 2 bytes))
    (qFromBigEndian (field 4 2 bytes)) (qFromBigEndian (field 6 2 bytes))
    (qFromBigEndian (field 8 4 bytes)).

(** The statement that adds a rectangle to [updatedRegion]. *)
Definition addUpdatedRect (s : VncClientProtocol) (updatedRegion : QRegion)
    (rectHeader : rfbFramebufferUpdateRectHeader) : QRegion :=
  if negb (isPseudoEncoding rectHeader)
     && (rh_x rectHeader + rh_w rectHeader <=? m_framebufferWidth s)
     && (rh_y rectHeader + rh_h rectHeader <=? m_framebufferHeight s)
  then region_add updatedRegion
         (mkRect (rh_x rectHeader) (rh_y rectHeader) (rh_w rectHeader) (rh_h rectHeader))
  else updatedRegion.

(** The rectangle loop of [receiveFramebufferUpdateMessage], [n] rectangles
    to go: the buffer and the region after the loop, or [None] where the
    function returned [false] from inside it. *)
Fixpoint updateRects (n : nat) (s : VncClientProtocol) (buffer : QBuffer)
    (updatedRegion : QRegion) : option (QBuffer * QRegion) * VncClientProtocol :=
  match n with
  | O => (Some (buffer, updatedRegion), s)
  | S n' =>
      match readExact buffer sz_rfbFramebufferUpdateRectHeader with
      | None => (None, s)
      | Some (hdr, buffer) =>
          let rectHeader := decodeRectHeader hdr in
          if rh_encoding rectHeader =? rfbEncodingLastRect
          then (Some (buffer, updatedRegion), s)
          else
            match handleRect s buffer rectHeader with
            | (None, s') => (None, s')
            | (Some buffer, s') =>
                updateRects n' s' buffer (addUpdatedRect s' updatedRegion rectHeader)
            end
      end
  end.

(** [bool VncClientProtocol::readMessage(int size)] *)
Definition readMessage (s : VncClientProtocol) (size : Z) : bool * VncClientProtocol :=
  if bytesAvailable (m_socket s) <? size then (false, s)
  else
    let (message, sk) := sk_read (m_socket s) size in
    let s := set_socket s sk in
    if len message =? size then (true, set_lastMessage s message)
    else (false, s).

(** [bool VncClientProtocol::receiveFramebufferUpdateMessage()] *)
Definition receiveFramebufferUpdateMessage (s : VncClientProtocol) : bool * VncClientProtocol :=
  let data := sk_peek (m_socket s) (bytesAvailable (m_socket s)) in
  let buffer := buf_open data in
  match readExact buffer sz_rfbFramebufferUpdateMsg with
  | None => (false, s)
  | Some (message, buffer) =>
      let nRects := qFromBigEndian (field 2 2 message) in
      match updateRects (Z.to_nat nRects) s buffer [] with
      | (None, s') => (false, s')
      | (Some (buffer, updatedRegion), s') =>
          let s' := set_lastUpdatedRect s' (boundingRect updatedRegion) in
          readMessage s' (toInt (buf_pos buffer))
      end
  end.

(** [bool VncClientProtocol::receiveColourMapEntriesMessage()] *)
Definition receiveColourMapEntriesMessage (s : VncClientProtocol) : bool * VncClientProtocol :=
  let message := sk_peek (m_socket s) sz_rfbSetColourMapEntriesMsg in
  if negb (len message =? sz_rfbSetColourMapEntriesMsg) then (false, s)
  else readMessage s (sz_rfbSetColourMapEntriesMsg + qFromBigEndian (field 4 2 message) * 6).

(** [bool VncClientProtocol::receiveBellMessage()] *)
Definition receiveBellMessage (s : VncClientProtocol) : bool * VncClientProtocol :=
  readMessage s sz_rfbBellMsg.

(** [bool VncClientProtocol::receiveCutTextMessage()]; the [int] sum is taken
    to wrap. *)
Definition receiveCutTextMessage (s : VncClientProtocol) : bool * VncClientProtocol :=
  let message := sk_peek (m_socket s) sz_rfbServerCutTextMsg in
  if negb (len message =? sz_rfbServerCutTextMsg) then (false, s)
  else readMessage s (toInt (sz_rfbServerCutTextMsg + toInt (qFromBigEndian (field 4 4 message)))).

(** [bool VncClientProtocol::receiveResizeFramebufferMessage()] *)
Definition receiveResizeFramebufferMessage (s : VncClientProtocol) : bool * VncClientProtocol :=
  let (ok, s) := readMessage s sz_rfbResizeFrameBufferMsg in
  if ok then
    (true, set_framebufferSize s (qFromBigEndian (field 2 2 (m_lastMessage s)))
             (qFromBigEndian (field 4 2 (m_lastMessage s))))
  else (false, s).

(** [bool VncClientProtocol::receiveXvpMessage()] *)
Definition receiveXvpMessage (s : VncClientProtocol) : bool * VncClientProtocol :=
  readMessage s sz_rfbXvpMsg.

(** [bool VncClientProtocol::receiveMessage()], for the bound
    [MaximumMessageSize] that the class declares. *)
Definition receiveMessage (MaximumMessageSize : Z) (s : VncClientProtocol)
    : bool * VncClientProtocol :=
  if bytesAvailable (m_socket s) >? MaximumMessageSize then (false, closeSocket s)
  else
    let messageTypeByte := sk_peek (m_socket s) 1 in
    if negb (len messageTypeByte =? 1) then (false, s)
    else
      let messageType := uint8At 0 messageTypeByte in
      if messageType =? rfbFramebufferUpdate then receiveFramebufferUpdateMessage s
      else if messageType =? rfbSetColourMapEntries then receiveColourMapEntriesMessage s
      else if messageType =? rfbBell then receiveBellMessage s
      else if messageType =? rfbServerCutText then receiveCutTextMessage s
      else if messageType =? rfbResizeFrameBuffer then receiveResizeFramebufferMessage s
      else if messageType =? rfbXvp then receiveXvpMessage s
      else (false, closeSocket s).

(** ** The event loop

    [pump] calls [read()] until it returns [false]; every successful call
    consumes at least one byte, so one call more than there are unread bytes
    always gets there.  [feed] delivers the chunks of a byte stream one after
    the other, pumping after each, and records the state entered by
    every successful call. *)
Fixpoint pump (rfbDes : list byte -> list byte -> list byte) (fuel : nat)
    (s : VncClientProtocol) : list State * VncClientProtocol :=
  match fuel with
  | O => ([], s)
  | S fuel' =>
      let (ok, s') := read rfbDes s in
      if ok then
        let (trace, s'') := pump rfbDes fuel' s' in (m_state s' :: trace, s'')
      else ([], s')
  end.

Definition deliver (s : VncClientProtocol) (chunk : list byte) : VncClientProtocol :=
  set_socket s (sk_deliver (m_socket s) chunk).

Fixpoint feed (rfbDes : list byte -> list byte -> list byte)
    (chunks : list (list byte)) (s : VncClientProtocol) : list State * VncClientProtocol :=
  match chunks with
  | [] => ([], s)
  | chunk :: rest =>
      let s1 := deliver s chunk in
      let (t1, s2) := pump rfbDes (S (length (sk_in (m_socket s1)))) s1 in
      let (t2, s3) := feed rfbDes rest s2 in
      (t1 ++ t2, s3)
  end.

(** The number of unread bytes below which [read()] does nothing in a
    state. *)
Definition stepThreshold (st : State) : Z :=
  match st with
  | Protocol => sz_rfbProtocolVersionMsg
  | SecurityInit => 2
  | SecurityChallenge => CHALLENGESIZE
  | SecurityResult => 4
  | FramebufferInit => sz_rfbServerInitMsg
  | Running => 0
  end.

(** ** Reference statements and test data *)

(** The response the wire format asks for: each 8-byte block of the
    challenge encrypted under the password padded with zeros, or cut, to 8
    bytes. *)
Definition paddedKey (passwd : list byte) : list byte :=
  firstn 8 (passwd ++ repeat x00 8).

Definition referenceResponse (rfbDes : list byte -> list byte -> list byte)
    (passwd block1 block2 : list byte) : list byte :=
  rfbDes (paddedKey passwd) block1 ++ rfbDes (paddedKey passwd) block2.

Definition byteOfZ (z : Z) : byte :=
  match Byte.of_N (Z.to_N (z mod 256)) with
  | Some b => b
  | None => x00
  end.

(** A stand-in block cipher for running the engine on test data: the block
    xor-ed with the key. *)
Definition xorCipher (key block : list byte) : list byte :=
  map (fun kb : byte * byte => byteOfZ (Z.lxor (byteZ (fst kb)) (byteZ (snd kb))))
      (combine (firstn 8 (key ++ repeat x00 8)) block).

(** RFB 003.008, RFB 003.889, RFB 002.000 and RFB 003.003, each with its
    line feed. *)
Definition version_3_8 : list byte :=
  [x52; x46; x42; x20; x30; x30; x33; x2e; x30; x30; x38; x0a].
Definition version_3_889 : list byte :=
  [x52; x46; x42; x20; x30; x30; x33; x2e; x38; x38; x39; x0a].
Definition version_2_0 : list byte :=
  [x52; x46; x42; x20; x30; x30; x32; x2e; x30; x30; x30; x0a].
Definition version_3_3 : list byte :=
  [x52; x46; x42; x20; x30; x30; x33; x2e; x30; x30; x33; x0a].

(** A protocol object in state [st] with the unread bytes [input]. *)
Definition protocolAt (st : State) (input : list byte) : VncClientProtocol :=
  mkProtocol (mkSocket input [] true) st [x73; x65; x63; x72; x65; x74] [] []
    0 0 [] (mkRect 0 0 0 0).

(** ** Outcomes of a call *)

(** [s'] is [s] after the first [n] unread bytes were taken off the socket
    and stored as the last message. *)
Definition tookMessage (n : Z) (s s' : VncClientProtocol) : Prop :=
  0 <= n <= bytesAvailable (m_socket s)
  /\ sk_in (m_socket s') = drop n (sk_in (m_socket s))
  /\ m_lastMessage s' = take n (sk_in (m_socket s))
  /\ sk_open (m_socket s') = sk_open (m_socket s)
  /\ m_state s' = m_state s.



(** The steps that wait for a unit of fixed size. *)
Definition fixedUnit (st : State) : bool :=
  match st with
  | Protocol | SecurityChallenge | SecurityResult => true
  | _ => false
  end.

(** One call of [read()], with the state it entered if it returned
    [true]. *)
Definition readOnce (rfbDes : list byte -> list byte -> list byte)
    (s : VncClientProtocol) : list State * VncClientProtocol :=
  let (ok, s') := read rfbDes s in ((if ok then [m_state s'] else []), s').

(** ** Rectangles and test messages *)

(** The rectangle a header describes. *)
Definition rectOf (h : rfbFramebufferUpdateRectHeader) : QRect :=
  mkRect (rh_x h) (rh_y h) (rh_w h) (rh_h h).

(** The rectangle lies inside a framebuffer of [width] by [height] and is
    not empty. *)
Definition insideFramebuffer (width height : Z) (h : rfbFramebufferUpdateRectHeader) : Prop :=
  rh_x h + rh_w h <= width /\ rh_y h + rh_h h <= height /\ 0 < rh_w h /\ 0 < rh_h h.

(** A protocol object in the Running state with [bpp] bits per pixel, a
    framebuffer of [width] by [height] and the unread bytes [input]. *)
Definition runningAt (bpp : byte) (width height : Z) (input : list byte) : VncClientProtocol :=
  mkProtocol (mkSocket input [] true) Running [] [] [bpp] width height [] (mkRect 0 0 0 0).

(** A framebuffer update of two Raw rectangles of 2 by 2 pixels of one byte,
    at (0,0) and at (100,100). *)
Definition twoRawRects : list byte :=
  [x00; x00; x00; x02;
   x00; x00; x00; x00; x00; x02; x00; x02; x00; x00; x00; x00;
   x11; x12; x13; x14;
   x00; x64; x00; x64; x00; x02; x00; x02; x00; x00; x00; x00;
   x21; x22; x23; x24].

(** A framebuffer update of one RichCursor rectangle, a cursor of 1 by 1
    pixel with its hotspot at (5,5): one byte of pixels and one of mask. *)
Definition richCursorUpdate : list byte :=
  [x00; x00; x00; x01;
   x00; x05; x00; x05; x00; x01; x00; x01; xff; xff; xff; x11;
   x7f; x80].

(** The header of a server-init message announcing a 1024x768 framebuffer
    with 32 bits per pixel and a desktop name of 256 bytes. *)
Definition serverInitHeader_256 : list byte :=
  [x04; x00; x03; x00;
   x20; x18; x00; x01; x00; xff; x00; xff; x00; xff; x10; x08; x00; x00; x00; x00;
   x00; x00; x01; x00].

(** The same header announcing a name of 255 bytes, the 255 bytes of the
    name and the first byte of what follows. *)
Definition serverInit_255 : list byte :=
  [x04; x00; x03; x00;
   x20; x18; x00; x01; x00; xff; x00; xff; x00; xff; x10; x08; x00; x00; x00; x00;
   x00; x00; x00; xff] ++ repeat x41 255 ++ [x02].

(** The same header announcing a name of 30 bytes, of which 6 arrived: 30
    unread bytes in all. *)
Definition serverInit_30_partial : list byte :=
  [x04; x00; x03; x00;
   x20; x18; x00; x01; x00; xff; x00; xff; x00; xff; x10; x08; x00; x00; x00; x00;
   x00; x00; x00; x1e; x41; x42; x43; x44; x45; x46].

(** A ServerCutText header that declares a text of 2^32 - 8 bytes. *)
Definition cutText_wrapped : list byte :=
  [x03; x00; x00; x00; xff; xff; xff; xf8].

(** The same header announcing a name of 40 bytes, of which 3 arrived. *)
Definition serverInit_40_short : list byte :=
  [x04; x00; x03; x00;
   x20; x18; x00; x01; x00; xff; x00; xff; x00; xff; x10; x08; x00; x00; x00; x00;
   x00; x00; x00; x28; x41; x42; x43].

(** ** Outbound commands

    Modelled from the spec: the client-to-server structs of rfb/rfbproto.h,
    which is not among the sources.  SetPixelFormat is a fixed header of
    four bytes and the 16-byte pixel format struct; SetEncodings is one
    type byte, one reserved byte, a 2-byte count and four bytes for each
    encoding; FramebufferUpdateRequest is the type, the incremental flag
    and x, y, w, h of two bytes each.  The message types 0, 2 and 3 and the
    field order of [rfbPixelFormat] are those of the RFB wire protocol. *)
Definition rfbSetPixelFormat : Z := 0.
Definition rfbSetEncodings : Z := 2.
Definition rfbFramebufferUpdateRequest : Z := 3.
Definition sz_rfbSetPixelFormatMsg : Z := 20.
Definition sz_rfbSetEncodingsMsg : Z := 4.
Definition sz_rfbFramebufferUpdateRequestMsg : Z := 10.

(** [rfbPixelFormat] as a value: the fields of one byte, the channel
    maxima as 16-bit numbers, and the padding as the bytes it holds. *)
Record rfbPixelFormat := mkPixelFormat {
  pf_bitsPerPixel : byte;
  pf_depth : byte;
  pf_bigEndian : byte;
  pf_trueColour : byte;
  pf_redMax : Z;
  pf_greenMax : Z;
  pf_blueMax : Z;
  pf_redShift : byte;
  pf_greenShift : byte;
  pf_blueShift : byte;
  pf_pad1 : byte;
  pf_pad2 : byte * byte
}.

Definition uint16 (z : Z) : Z := z mod 2 ^ 16.

(** The bytes in memory of [qFromBigEndian(v)] for an unsigned [v] of [n]
    bytes: the bytes of [v], most significant first. *)
Definition toBigEndian (n : nat) (v : Z) : list byte :=
  map (fun k : nat => byteOfZ (v / 256 ^ Z.of_nat k)) (rev (seq 0 n)).

(** The count [m_socket->write(data, size)] returns: [size] on an open
    socket, -1 on a closed one. *)
Definition sk_written (sk : QTcpSocket) (data : list byte) : Z :=
  if sk_open sk then len data else -1.

(** [bool VncClientProtocol::setPixelFormat( rfbPixelFormat pixelFormat )] *)
Definition setPixelFormat (s : VncClientProtocol) (pixelFormat : rfbPixelFormat)
    : bool * VncClientProtocol :=
  let spf :=
    [byteOfZ rfbSetPixelFormat; x00; x00; x00]
    ++ [pf_bitsPerPixel pixelFormat; pf_depth pixelFormat;
        pf_bigEndian pixelFormat; pf_trueColour pixelFormat]
    ++ toBigEndian 2 (pf_redMax pixelFormat)
    ++ toBigEndian 2 (pf_greenMax pixelFormat)
    ++ toBigEndian 2 (pf_blueMax pixelFormat)
    ++ [pf_redShift pixelFormat; pf_greenShift pixelFormat; pf_blueShift pixelFormat;
        pf_pad1 pixelFormat; fst (pf_pad2 pixelFormat); snd (pf_pad2 pixelFormat)] in
  let data := take sz_rfbSetPixelFormatMsg spf in
  (sk_written (m_socket s) data =? sz_rfbSetPixelFormatMsg,
   set_socket s (sk_write (m_socket s) data)).

(** [encs.at(i) = v] on a [std::array]; the index is in range wherever
    [setEncodings] gets past its guard. *)
Fixpoint array_set {A : Type} (l : list A) (i : nat) (v : A) : list A :=
  match l, i with
  | [], _ => []
  | _ :: t, O => v :: t
  | x :: t, S i' => x :: array_set t i' v
  end.

(** The loop of [setEncodings]: the array and the 16-bit counter
    [setEncodingsMsg.nEncodings] after the encodings were stored. *)
Definition storeEncodings (MAX_ENCODINGS : Z) (encodings : list Z)
    : list (list byte) * Z :=
  fold_left
    (fun (st : list (list byte) * Z) (encoding : Z) =>
       (array_set (fst st) (Z.to_nat (snd st)) (toBigEndian 4 encoding),
        uint16 (snd st + 1)))
    encodings
    (repeat [x00; x00; x00; x00] (Z.to_nat MAX_ENCODINGS), 0).

(** [bool VncClientProtocol::setEncodings( const QVector<uint32_t>& )], for
    the array size [MAX_ENCODINGS] that the headers declare. *)
Definition setEncodings (MAX_ENCODINGS : Z) (s : VncClientProtocol)
    (encodings : list Z) : bool * VncClientProtocol :=
  if len encodings >? MAX_ENCODINGS then (false, s)
  else
    let (encs, nEncodings) := storeEncodings MAX_ENCODINGS encodings in
    let len_ := nEncodings * 4 in
    let setEncodingsMsg := [byteOfZ rfbSetEncodings; x00] ++ toBigEndian 2 nEncodings in
    let header := take sz_rfbSetEncodingsMsg setEncodingsMsg in
    if sk_written (m_socket s) header =? sz_rfbSetEncodingsMsg then
      let s := set_socket s (sk_write (m_socket s) header) in
      let data := take len_ (concat encs) in
      (sk_written (m_socket s) data =? len_,
       set_socket s (sk_write (m_socket s) data))
    else (false, set_socket s (sk_write (m_socket s) header)).

(** [void VncClientProtocol::requestFramebufferUpdate( bool incremental )] *)
Definition requestFramebufferUpdate (s : VncClientProtocol) (incremental : bool)
    : VncClientProtocol :=
  let updateRequest :=
    [byteOfZ rfbFramebufferUpdateRequest; if incremental then x01 else x00]
    ++ toBigEndian 2 0 ++ toBigEndian 2 0
    ++ toBigEndian 2 (m_framebufferWidth s)
    ++ toBigEndian 2 (m_framebufferHeight s) in
  let data := take sz_rfbFramebufferUpdateRequestMsg updateRequest in
  let written := sk_written (m_socket s) data in
  let s := set_socket s (sk_write (m_socket s) data) in
  if negb (written =? sz_rfbFramebufferUpdateRequestMsg) then closeSocket s else s.

(** ** Notions for the properties of the engine *)

(** The place of a state in the order of the handshake. *)
Definition stateIndex (st : State) : Z :=
  match st with
  | Protocol => 0
  | SecurityInit => 1
  | SecurityChallenge => 2
  | SecurityResult => 3
  | FramebufferInit => 4
  | Running => 5
  end.

(** The message types [receiveMessage] has a case for. *)
Definition knownMessageTypes : list Z :=
  [rfbFramebufferUpdate; rfbSetColourMapEntries; rfbBell; rfbServerCutText;
   rfbResizeFrameBuffer; rfbXvp].

(** The encodings [handleRect] has a case for. *)
Definition handledEncodings : list Z :=
  [rfbEncodingLastRect; rfbEncodingXCursor; rfbEncodingRichCursor;
   rfbEncodingSupportedMessages; rfbEncodingSupportedEncodings;
   rfbEncodingServerIdentity; rfbEncodingRaw; rfbEncodingCopyRect;
   rfbEncodingRRE; rfbEncodingCoRRE; rfbEncodingHextile; rfbEncodingUltra;
   rfbEncodingUltraZip; rfbEncodingZlib; rfbEncodingZRLE; rfbEncodingZYWRLE;
   rfbEncodingPointerPos; rfbEncodingKeyboardLedState; rfbEncodingNewFBSize].

(** The same buffer over a byte array that goes on with [more]. *)
Definition buf_extend (b : QBuffer) (more : list byte) : QBuffer :=
  mkBuffer (buf_rest b ++ more) (buf_pos b).

(** The buffer after [n] more bytes were read. *)
Definition buf_advance (b : QBuffer) (n : Z) : QBuffer :=
  mkBuffer (drop n (buf_rest b)) (buf_pos b + n).

(** The same object with [more] bytes arrived behind the unread ones. *)
Definition appendInput (s : VncClientProtocol) (more : list byte) : VncClientProtocol :=
  set_socket s (mkSocket (sk_in (m_socket s) ++ more) (sk_out (m_socket s))
                  (sk_open (m_socket s))).

(** A decoder that succeeded on a buffer succeeds the same way when more
    bytes follow in it. *)
Definition extendable (decode : QBuffer -> option QBuffer) : Prop :=
  forall (b b' : QBuffer) (more : list byte),
    decode b = Some b' -> decode (buf_extend b more) = Some (buf_extend b' more).

(** The rectangle lies within a framebuffer of [width] by [height]. *)
Definition rectWithin (width height : Z) (r : QRect) : Prop :=
  0 <= r_x r /\ 0 <= r_y r /\ 0 <= r_w r /\ 0 <= r_h r
  /\ r_x r + r_w r <= width /\ r_y r + r_h r <= height.

(** ** Reference statements for the Hextile tiles

    The tiling as the wire format describes it, stated without the loop
    variables of the decoder: a rectangle is cut into rows of 16 lines from
    the top and each row into tiles of 16 columns from the left; the last
    row and the last column are as high and as wide as what is left of the
    rectangle. *)
Definition clippedExtents (extent : Z) : list Z :=
  map (fun k : nat => Z.min 16 (extent - 16 * Z.of_nat k))
      (seq 0 (Z.to_nat ((extent + 15) / 16))).

(** The tiles of a rectangle of [w] by [h] pixels in the order they are
    sent, each as (width, height). *)
Definition hextileTiles (w h : Z) : list (Z * Z) :=
  flat_map (fun th => map (fun tw => (tw, th)) (clippedExtents w)) (clippedExtents h).

(** The bytes of a tile sent raw: a flag byte with the raw bit and the
    pixels of the tile, and nothing else. *)
Definition rawTile (bytesPerPixel : Z) (tile : Z * Z) (chunk : list byte) : Prop :=
  exists flag pixels,
    chunk = flag :: pixels
    /\ flagSet (byteZ flag) rfbHextileRaw = true
    /\ len pixels = fst tile * snd tile * bytesPerPixel.

Definition total (l : list Z) : Z := fold_right Z.add 0 l.

(** ** Reference statements for the messages of the Running state *)





(** ** Reference statements for the updated rectangle *)

(** The rectangle headers the loop of [receiveFramebufferUpdateMessage]
    gets through, in order: the headers it has decoded the rectangle of
    when it comes to the statement that adds to the region. *)
Fixpoint decodedRects (n : nat) (s : VncClientProtocol) (buffer : QBuffer)
    : list rfbFramebufferUpdateRectHeader :=
  match n with
  | O => []
  | S n' =>
      match readExact buffer sz_rfbFramebufferUpdateRectHeader with
      | None => []
      | Some (hdr, buffer) =>
          let rectHeader := decodeRectHeader hdr in
          if rh_encoding rectHeader =? rfbEncodingLastRect then []
          else
            match handleRect s buffer rectHeader with
            | (None, _) => []
            | (Some buffer, s') => rectHeader :: decodedRects n' s' buffer
            end
      end
  end.

(** The rectangles of the framebuffer update at the head of the socket. *)
Definition updateRectsOf (s : VncClientProtocol) : list rfbFramebufferUpdateRectHeader :=
  let data := sk_peek (m_socket s) (bytesAvailable (m_socket s)) in
  match readExact (buf_open data) sz_rfbFramebufferUpdateMsg with
  | None => []
  | Some (message, buffer) =>
      decodedRects (Z.to_nat (qFromBigEndian (field 2 2 message))) s buffer
  end.

(** A rectangle that counts for the updated region of a framebuffer of
    [width] by [height]: not of a pseudo-encoding, not empty, and inside
    the framebuffer. *)
Definition countsForUpdate (width height : Z) (h : rfbFramebufferUpdateRectHeader) : bool :=
  negb (isPseudoEncoding h)
  && (0 <? rh_w h) && (0 <? rh_h h)
  && (rh_x h + rh_w h <=? width) && (rh_y h + rh_h h <=? height).

(** ** Proof tactics *)

Ltac destruct_protocol s :=
  destruct s as [[inp out op] st pw sim pf fw fh lm lr]; simpl in *.

Ltac break_if :=
  match goal with
  | |- context [if ?c then _ else _] => destruct c eqn:?
  end.

Ltac break_match :=
  match goal with
  | |- context [match ?c with _ => _ end] => destruct c eqn:?
  end.

(** ** Lists of bytes *)

Lemma take_nonpos {A : Type} (n : Z) (l : list A) : n <= 0 -> take n l = [].
Proof.
  intros Hn. destruct l as [|x t]; simpl; [reflexivity|].
  destruct (0 <? n) eqn:E; [apply Z.ltb_lt in E; lia | reflexivity].
Qed.

Lemma drop_nonpos {A : Type} (n : Z) (l : list A) : n <= 0 -> drop n l = l.
Proof.
  intros Hn. destruct l as [|x t]; simpl; [reflexivity|].
  destruct (0 <? n) eqn:E; [apply Z.ltb_lt in E; lia | reflexivity].
Qed.

Lemma take_drop {A : Type} (l : list A) : forall n, take n l ++ drop n l = l.
Proof.
  induction l as [|x t IH]; intros n; simpl; [reflexivity|].
  destruct (0 <? n); simpl; [now rewrite IH | reflexivity].
Qed.

Lemma len_nonneg {A : Type} (l : list A) : 0 <= len l.
Proof. unfold len. lia. Qed.

Lemma len_cons {A : Type} (x : A) (l : list A) : len (x :: l) = 1 + len l.
Proof. unfold len. simpl length. lia. Qed.

Lemma len_app {A : Type} (a b : list A) : len (a ++ b) = len a + len b.
Proof. unfold len. rewrite length_app. lia. Qed.

Lemma len_nil_inv {A : Type} (l : list A) : len l = 0 -> l = [].
Proof. destruct l; [reflexivity | rewrite len_cons; pose proof (len_nonneg l); lia]. Qed.

Lemma len_take {A : Type} (l : list A) :
  forall n, 0 <= n -> len (take n l) = Z.min n (len l).
Proof.
  induction l as [|x t IH]; intros n Hn; simpl.
  - unfold len; simpl; lia.
  - destruct (0 <? n) eqn:E.
    + apply Z.ltb_lt in E. rewrite !len_cons, IH by lia. lia.
    + apply Z.ltb_ge in E. rewrite len_cons. pose proof (len_nonneg t).
      change (len (@nil A)) with 0. lia.
Qed.

Lemma len_drop {A : Type} (l : list A) :
  forall n, 0 <= n -> len (drop n l) = len l - Z.min n (len l).
Proof.
  intros n Hn. pose proof (take_drop l n) as H.
  apply (f_equal len) in H. rewrite len_app, len_take in H by lia. lia.
Qed.

Lemma take_all {A : Type} (l : list A) : forall n, len l <= n -> take n l = l.
Proof.
  induction l as [|x t IH]; intros n Hn; simpl; [reflexivity|].
  rewrite len_cons in Hn. pose proof (len_nonneg t).
  destruct (0 <? n) eqn:E; [|apply Z.ltb_ge in E; lia].
  now rewrite IH by lia.
Qed.

Lemma drop_all {A : Type} (l : list A) : forall n, len l <= n -> drop n l = [].
Proof.
  intros n Hn. pose proof (take_drop l n) as H. rewrite take_all in H by lia.
  apply (f_equal (@length A)) in H. rewrite length_app in H.
  destruct (drop n l); [reflexivity | simpl in H; lia].
Qed.

Lemma take_app_exact {A : Type} (a : list A) :
  forall n b, len a = n -> take n (a ++ b) = a.
Proof.
  induction a as [|x t IH]; intros n b Hn; simpl.
  - apply take_nonpos. unfold len in Hn; simpl in Hn; lia.
  - rewrite len_cons in Hn. pose proof (len_nonneg t).
    destruct (0 <? n) eqn:E; [|apply Z.ltb_ge in E; lia].
    now rewrite IH by lia.
Qed.

Lemma drop_app_exact {A : Type} (a : list A) :
  forall n b, len a = n -> drop n (a ++ b) = b.
Proof.
  induction a as [|x t IH]; intros n b Hn; simpl.
  - apply drop_nonpos. unfold len in Hn; simpl in Hn; lia.
  - rewrite len_cons in Hn. pose proof (len_nonneg t).
    destruct (0 <? n) eqn:E; [|apply Z.ltb_ge in E; lia].
    now rewrite IH by lia.
Qed.

Lemma take_take {A : Type} (l : list A) :
  forall n m, n <= m -> take n (take m l) = take n l.
Proof.
  induction l as [|x t IH]; intros n m Hnm; simpl; [reflexivity|].
  destruct (0 <? n) eqn:En.
  - apply Z.ltb_lt in En.
    destruct (0 <? m) eqn:Em; [|apply Z.ltb_ge in Em; lia].
    simpl. rewrite (proj2 (Z.ltb_lt 0 n)) by lia. now rewrite IH by lia.
  - destruct (0 <? m); simpl; [now rewrite En | reflexivity].
Qed.

Lemma drop_take {A : Type} (l : list A) :
  forall n m, 0 <= n -> drop n (take m l) = take (m - n) (drop n l).
Proof.
  induction l as [|x t IH]; intros n m Hn; simpl; [reflexivity|].
  destruct (0 <? m) eqn:Em.
  - simpl. destruct (0 <? n) eqn:En.
    + apply Z.ltb_lt in En. rewrite IH by lia. f_equal. lia.
    + apply Z.ltb_ge in En. assert (n = 0) by lia. subst n.
      simpl. rewrite Z.sub_0_r, Em. reflexivity.
  - apply Z.ltb_ge in Em. destruct (0 <? n) eqn:En.
    + apply Z.ltb_lt in En. symmetry. apply take_nonpos. lia.
    + simpl. destruct (0 <? m - n) eqn:E; [apply Z.ltb_lt in E; lia | reflexivity].
Qed.

(** A field that lies inside the first [m] bytes is the same in the peeked
    prefix and in the whole input. *)
Lemma field_take (l : list byte) (off n m : Z) :
  0 <= off -> off + n <= m -> field off n (take m l) = field off n l.
Proof.
  intros Hoff Hm. unfold field. rewrite drop_take by lia.
  apply take_take. lia.
Qed.

Lemma contains_In (l : list byte) (c : byte) : contains l c = true <-> In c l.
Proof.
  unfold contains. rewrite existsb_exists. split.
  - intros [x [Hin Heq]]. apply Byte.byte_dec_bl in Heq. now subst.
  - intros Hin. exists c. split; [assumption | apply Byte.byte_dec_lb; reflexivity].
Qed.

Lemma contains_not_In (l : list byte) (c : byte) : contains l c = false <-> ~ In c l.
Proof.
  rewrite <- contains_In. destruct (contains l c); split; intros H; congruence.
Qed.

Lemma byteZ_range (b : byte) : 0 <= byteZ b <= 255.
Proof. unfold byteZ. pose proof (Byte.to_N_bounded b). lia. Qed.

(** ** Reading from the socket *)

Lemma take_one {A : Type} (b : A) (l : list A) : take 1 (b :: l) = [b].
Proof. simpl. now rewrite take_nonpos by lia. Qed.

Lemma drop_one {A : Type} (b : A) (l : list A) : drop 1 (b :: l) = l.
Proof. simpl. now rewrite drop_nonpos by lia. Qed.

Arguments take : simpl never.
Arguments drop : simpl never.
Arguments len : simpl never.

(** ** Version negotiation *)

(** What [readProtocol] does with exactly twelve unread bytes: it accepts
    them, echoes them and moves on if they spell a 3.x version with x >= 7,
    and closes the socket otherwise. *)
Lemma readProtocol_twelve (s : VncClientProtocol) :
  bytesAvailable (m_socket s) = 12 ->
  readProtocol s =
    let line := sk_in (m_socket s) in
    let sk := mkSocket [] (sk_out (m_socket s)) (sk_open (m_socket s)) in
    match matchProtocolVersion line with
    | Some (major, minor) =>
        if (major =? 3) && (7 <=? minor)
        then (true, set_state (set_socket s (sk_write sk line)) SecurityInit)
        else (false, closeSocket (set_socket s sk))
    | None => (false, closeSocket (set_socket s sk))
    end.
Proof.
  intros H12. destruct_protocol s. unfold readProtocol, bytesAvailable in *; simpl in *.
  unfold sz_rfbProtocolVersionMsg. rewrite H12, take_all, drop_all by lia.
  rewrite H12. simpl.
  destruct (matchProtocolVersion inp) as [[major minor]|]; [|reflexivity].
  destruct (major =? 3); simpl; [|reflexivity].
  rewrite Z.leb_antisym. destruct (minor <? 7); reflexivity.
Qed.

(** C6.  In the Protocol state, with exactly the twelve bytes of the version
    line unread, [read()] accepts [RFB 003.008] and [RFB 003.889]: it returns
    [true], echoes the line and enters SecurityInit, the state that selects
    the security type.  It rejects [RFB 002.000] and [RFB 003.003]: it
    returns [false] and closes the socket. *)
Theorem version_negotiation (rfbDes : list byte -> list byte -> list byte)
    (s : VncClientProtocol) (line : list byte) :
  m_state s = Protocol ->
  sk_open (m_socket s) = true ->
  sk_in (m_socket s) = line ->
  (In line [version_3_8; version_3_889] ->
   read rfbDes s =
     (true, set_state (set_socket s (mkSocket [] (sk_out (m_socket s) ++ line) true))
              SecurityInit))
  /\ (In line [version_2_0; version_3_3] ->
      read rfbDes s = (false, set_socket s (mkSocket [] (sk_out (m_socket s)) false))).
Proof.
  intros Hst Hopen Hin. unfold read. rewrite Hst.
  split; intros Hline; simpl in Hline;
    destruct Hline as [Hl | [Hl | []]]; subst line;
    (rewrite readProtocol_twelve by (unfold bytesAvailable; rewrite <- Hl; reflexivity));
    destruct_protocol s; subst; reflexivity.
Qed.

Lemma version_negotiation_witness :
  m_state (protocolAt Protocol version_3_889) = Protocol
  /\ sk_open (m_socket (protocolAt Protocol version_3_889)) = true
  /\ In version_3_889 [version_3_8; version_3_889]
  /\ read xorCipher (protocolAt Protocol version_3_889) =
       (true, set_state (set_socket (protocolAt Protocol version_3_889)
                           (mkSocket [] ([] ++ version_3_889) true)) SecurityInit).
Proof.
  split; [reflexivity|]. split; [reflexivity|].
  split; [right; left; reflexivity|].
  apply (proj1 (version_negotiation xorCipher (protocolAt Protocol version_3_889)
                  version_3_889 eq_refl eq_refl eq_refl)).
  right; left; reflexivity.
Defined.

(** ** Security types *)

(** C7, as the code has it.  In the SecurityInit state, with the count byte
    and all the types it announces unread: a list that contains VNC-Auth
    selects it and enters SecurityChallenge, also when None is there too;
    otherwise a list that contains None selects it and enters
    SecurityResult; a list with neither, the empty one included, closes the
    socket and returns [false], provided two bytes at least are unread.
    With fewer than two unread bytes, that is with the lone count byte of an
    empty list, [read()] returns [false] and changes nothing. *)
Theorem security_type_selection (rfbDes : list byte -> list byte -> list byte)
    (s : VncClientProtocol) (count : byte) (types rest : list byte) :
  m_state s = SecurityInit ->
  sk_open (m_socket s) = true ->
  sk_in (m_socket s) = count :: types ++ rest ->
  len types = byteZ count ->
  (In rfbSecTypeVncAuth types ->
   read rfbDes s =
     (true, set_socket (set_state s SecurityChallenge)
              (mkSocket rest (sk_out (m_socket s) ++ [rfbSecTypeVncAuth]) true)))
  /\ (~ In rfbSecTypeVncAuth types -> In rfbSecTypeNone types ->
      read rfbDes s =
        (true, set_socket (set_state s SecurityResult)
                 (mkSocket rest (sk_out (m_socket s) ++ [rfbSecTypeNone]) true)))
  /\ (~ In rfbSecTypeVncAuth types -> ~ In rfbSecTypeNone types ->
      2 <= bytesAvailable (m_socket s) ->
      exists s', read rfbDes s = (false, s')
                 /\ sk_open (m_socket s') = false /\ m_state s' = SecurityInit)
  /\ (bytesAvailable (m_socket s) < 2 -> read rfbDes s = (false, s)).
Proof.
  intros Hst Hopen Hin Hlen. unfold read. rewrite Hst.
  destruct_protocol s. subst. unfold receiveSecurityTypes, bytesAvailable; simpl.
  assert (Hav : len (count :: types ++ rest) = 1 + len types + len rest)
    by (rewrite len_cons, len_app; lia).
  pose proof (len_nonneg rest) as Hrest.
  repeat split.
  - intros Hauth.
    assert (0 < len types) by (destruct types; [destruct Hauth | rewrite len_cons; pose proof (len_nonneg types); lia]).
    destruct (len (count :: types ++ rest) >=? 2) eqn:E; [|rewrite Z.geb_leb in E; apply Z.leb_gt in E; lia].
    rewrite take_one, drop_one. change (uint8At 0 [count]) with (byteZ count).
    destruct (byteZ count =? 0) eqn:E0; [apply Z.eqb_eq in E0; lia|].
    rewrite take_app_exact, drop_app_exact by assumption. rewrite Hlen, Z.eqb_refl. simpl.
    apply contains_In in Hauth. rewrite Hauth. reflexivity.
  - intros Hnauth Hnone.
    assert (0 < len types) by (destruct types; [destruct Hnone | rewrite len_cons; pose proof (len_nonneg types); lia]).
    destruct (len (count :: types ++ rest) >=? 2) eqn:E; [|rewrite Z.geb_leb in E; apply Z.leb_gt in E; lia].
    rewrite take_one, drop_one. change (uint8At 0 [count]) with (byteZ count).
    destruct (byteZ count =? 0) eqn:E0; [apply Z.eqb_eq in E0; lia|].
    rewrite take_app_exact, drop_app_exact by assumption. rewrite Hlen, Z.eqb_refl. simpl.
    apply contains_not_In in Hnauth. apply contains_In in Hnone.
    rewrite Hnauth, Hnone. reflexivity.
  - intros Hnauth Hnnone H2.
    destruct (len (count :: types ++ rest) >=? 2) eqn:E; [|rewrite Z.geb_leb in E; apply Z.leb_gt in E; lia].
    rewrite take_one, drop_one. change (uint8At 0 [count]) with (byteZ count).
    destruct (byteZ count =? 0) eqn:E0.
    + eexists. split; [reflexivity|]. split; reflexivity.
    + rewrite take_app_exact, drop_app_exact by assumption. rewrite Hlen, Z.eqb_refl. simpl.
      apply contains_not_In in Hnauth, Hnnone. rewrite Hnauth, Hnnone.
      eexists. split; [reflexivity|]. split; reflexivity.
  - intros H2.
    destruct (len (count :: types ++ rest) >=? 2) eqn:E; [rewrite Z.geb_leb in E; apply Z.leb_le in E; lia|].
    reflexivity.
Qed.

Lemma security_type_selection_witness :
  let s := protocolAt SecurityInit [x02; x01; x02; x07] in
  m_state s = SecurityInit
  /\ sk_open (m_socket s) = true
  /\ sk_in (m_socket s) = x02 :: [x01; x02] ++ [x07]
  /\ len [x01; x02] = byteZ x02
  /\ In rfbSecTypeVncAuth [x01; x02]
  /\ read xorCipher s =
       (true, set_socket (set_state s SecurityChallenge)
                (mkSocket [x07] ([] ++ [rfbSecTypeVncAuth]) true)).
Proof.
  intros s. split; [reflexivity|]. split; [reflexivity|]. split; [reflexivity|].
  split; [reflexivity|]. split; [right; left; reflexivity|].
  apply (proj1 (security_type_selection xorCipher s x02 [x01; x02] [x07]
                  eq_refl eq_refl eq_refl eq_refl)).
  right; left; reflexivity.
Defined.

(** C7 as the spec states it fails for the empty list: when the zero count
    byte is all that is unread, the list it announces is fully available,
    yet [read()] returns [false] with the socket left open and untouched. *)
Lemma empty_security_list_not_fatal :
  let s := protocolAt SecurityInit [x00] in
  sk_in (m_socket s) = x00 :: [] ++ []
  /\ len (@nil byte) = byteZ x00
  /\ read xorCipher s = (false, s)
  /\ sk_open (m_socket (snd (read xorCipher s))) = true.
Proof. repeat split. Qed.

(** ** The server-init message *)

(** The prefix of [receiveServerInitMessage] up to the test of the name
    length, once the 24 bytes of the header are unread. *)
Lemma receiveServerInitMessage_header (s : VncClientProtocol) :
  sz_rfbServerInitMsg <= bytesAvailable (m_socket s) ->
  receiveServerInitMessage s =
    let input := sk_in (m_socket s) in
    let nameLength := qFromBigEndian (serverInit_nameLength input) in
    if nameLength >? 255 then (false, closeSocket s)
    else
      let s1 := set_pixelFormat s (serverInit_format input) in
      if len (take nameLength input) =? nameLength then
        let msg := take (uint32 (sz_rfbServerInitMsg + nameLength)) input in
        (true,
         set_state
           (set_framebufferSize
              (set_serverInitMessage
                 (set_socket s1
                    (mkSocket (drop (uint32 (sz_rfbServerInitMsg + nameLength)) input)
                       (sk_out (m_socket s)) (sk_open (m_socket s))))
                 msg)
              (qFromBigEndian (serverInit_framebufferWidth msg))
              (qFromBigEndian (serverInit_framebufferHeight msg)))
           Running)
      else (false, s1).
Proof.
  intros H24. destruct_protocol s.
  unfold receiveServerInitMessage, bytesAvailable, sk_peek, sk_read in *; simpl in *.
  change sz_rfbServerInitMsg with 24 in *.
  rewrite len_take by lia. rewrite Z.min_l by lia.
  destruct (len inp >=? 24) eqn:E; [|rewrite Z.geb_leb in E; apply Z.leb_gt in E; lia].
  simpl. unfold serverInit_nameLength, serverInit_format. change (4 + sz_rfbPixelFormat) with 20.
  change sz_rfbPixelFormat with 16.
  rewrite !field_take by lia. reflexivity.
Qed.

(** C8.  In the FramebufferInit state, once the 24-byte header is unread: a
    declared name length above 255 (256 for one) makes [read()] close the
    socket and return [false]; a declared name length of exactly 255 is
    accepted once the 255 bytes of the name are unread behind the header:
    the pixel format and the geometry are those of the header, header and
    name leave the socket as the server-init message, and the state is
    Running. *)
Theorem server_init_name_length (rfbDes : list byte -> list byte -> list byte)
    (s : VncClientProtocol) :
  m_state s = FramebufferInit ->
  sz_rfbServerInitMsg <= bytesAvailable (m_socket s) ->
  let input := sk_in (m_socket s) in
  let nameLength := qFromBigEndian (serverInit_nameLength input) in
  (255 < nameLength ->
   read rfbDes s = (false, closeSocket s)
   /\ sk_open (m_socket (closeSocket s)) = false)
  /\ (nameLength = 255 -> sz_rfbServerInitMsg + 255 <= bytesAvailable (m_socket s) ->
      exists s', read rfbDes s = (true, s')
        /\ m_state s' = Running
        /\ m_pixelFormat s' = serverInit_format input
        /\ m_framebufferWidth s' = qFromBigEndian (serverInit_framebufferWidth input)
        /\ m_framebufferHeight s' = qFromBigEndian (serverInit_framebufferHeight input)
        /\ m_serverInitMessage s' = take (sz_rfbServerInitMsg + 255) input
        /\ len (m_serverInitMessage s') = sz_rfbServerInitMsg + 255
        /\ sk_in (m_socket s') = drop (sz_rfbServerInitMsg + 255) input
        /\ sk_open (m_socket s') = sk_open (m_socket s)).
Proof.
  intros Hst H24 input nameLength. unfold read. rewrite Hst.
  rewrite receiveServerInitMessage_header by assumption.
  subst input nameLength. cbv zeta.
  set (input := sk_in (m_socket s)) in *.
  set (nameLength := qFromBigEndian (serverInit_nameLength input)) in *. split.
  - intros Hbig. destruct (nameLength >? 255) eqn:E.
    + split; reflexivity.
    + rewrite Z.gtb_ltb in E. apply Z.ltb_ge in E. lia.
  - intros H255 Hav. rewrite H255. simpl (255 >? 255).
    unfold bytesAvailable in Hav. fold input in Hav.
    fold input. change (sz_rfbServerInitMsg + 255) with 279 in *.
    rewrite len_take by lia. rewrite Z.min_l by lia. rewrite Z.eqb_refl.
    eexists. split; [reflexivity|].
    change (uint32 279) with 279.
    unfold serverInit_framebufferWidth, serverInit_framebufferHeight.
    rewrite !field_take by lia.
    assert (Hlen : len (take 279 input) = 279)
      by (rewrite len_take by lia; apply Z.min_l; lia).
    destruct_protocol s. repeat split; try reflexivity. exact Hlen.
Qed.

Lemma server_init_name_length_witness :
  let s := protocolAt FramebufferInit serverInit_255 in
  m_state s = FramebufferInit
  /\ sz_rfbServerInitMsg <= bytesAvailable (m_socket s)
  /\ qFromBigEndian (serverInit_nameLength (sk_in (m_socket s))) = 255
  /\ sz_rfbServerInitMsg + 255 <= bytesAvailable (m_socket s)
  /\ exists s', read xorCipher s = (true, s')
       /\ m_state s' = Running
       /\ m_framebufferWidth s' = 1024
       /\ m_framebufferHeight s' = 768
       /\ sk_in (m_socket s') = [x02].
Proof.
  intros s.
  assert (H24 : sz_rfbServerInitMsg <= bytesAvailable (m_socket s))
    by (vm_compute; discriminate).
  assert (H279 : sz_rfbServerInitMsg + 255 <= bytesAvailable (m_socket s))
    by (vm_compute; discriminate).
  split; [reflexivity|]. split; [exact H24|]. split; [reflexivity|].
  split; [exact H279|].
  destruct (proj2 (server_init_name_length xorCipher s eq_refl H24) eq_refl H279)
    as [s' [Hrun [Hst [_ [Hw [Hh [_ [_ [Hin _]]]]]]]]].
  exists s'. split; [exact Hrun|]. split; [exact Hst|].
  split; [rewrite Hw; reflexivity|]. split; [rewrite Hh; reflexivity|].
  rewrite Hin. reflexivity.
Defined.

(** C10, as the code has it.  In the FramebufferInit state, when the 24-byte
    header is unread, the name length it declares is at most 255 and fewer
    bytes than that length are unread in all, [read()] returns [false] and
    reads nothing; the stored pixel format is the one of the peeked header;
    the socket, the geometry, the state and every other member are as
    before. *)
Theorem server_init_short_name (rfbDes : list byte -> list byte -> list byte)
    (s : VncClientProtocol) :
  m_state s = FramebufferInit ->
  sz_rfbServerInitMsg <= bytesAvailable (m_socket s) ->
  let input := sk_in (m_socket s) in
  let nameLength := qFromBigEndian (serverInit_nameLength input) in
  nameLength <= 255 ->
  bytesAvailable (m_socket s) < nameLength ->
  read rfbDes s = (false, set_pixelFormat s (serverInit_format input)).
Proof.
  intros Hst H24 input nameLength Hle Hshort. unfold read. rewrite Hst.
  rewrite receiveServerInitMessage_header by assumption.
  unfold bytesAvailable in Hshort. subst input nameLength. cbv zeta.
  set (input := sk_in (m_socket s)) in *.
  set (nameLength := qFromBigEndian (serverInit_nameLength input)) in *.
  destruct (nameLength >? 255) eqn:E.
  - rewrite Z.gtb_ltb in E. apply Z.ltb_lt in E. lia.
  - pose proof (len_nonneg input) as Hin0.
    rewrite len_take by lia. rewrite Z.min_r by lia.
    destruct (Z.eqb_spec (len input) nameLength); [lia | reflexivity].
Qed.

Lemma server_init_short_name_witness :
  let s := protocolAt FramebufferInit serverInit_40_short in
  m_state s = FramebufferInit
  /\ sz_rfbServerInitMsg <= bytesAvailable (m_socket s)
  /\ qFromBigEndian (serverInit_nameLength (sk_in (m_socket s))) <= 255
  /\ bytesAvailable (m_socket s) < qFromBigEndian (serverInit_nameLength (sk_in (m_socket s)))
  /\ read xorCipher s = (false, set_pixelFormat s (serverInit_format (sk_in (m_socket s)))).
Proof.
  intros s.
  assert (H24 : sz_rfbServerInitMsg <= bytesAvailable (m_socket s))
    by (vm_compute; discriminate).
  assert (Hle : qFromBigEndian (serverInit_nameLength (sk_in (m_socket s))) <= 255)
    by (vm_compute; discriminate).
  assert (Hshort : bytesAvailable (m_socket s)
                   < qFromBigEndian (serverInit_nameLength (sk_in (m_socket s))))
    by (vm_compute; reflexivity).
  split; [reflexivity|]. split; [exact H24|]. split; [exact Hle|]. split; [exact Hshort|].
  exact (server_init_short_name xorCipher s eq_refl H24 Hle Hshort).
Defined.

(** C10 as the spec states it fails when the declared name length exceeds
    255: the header is unread and none of the 256 bytes of the name is,
    [read()] returns [false], but the pixel format is not taken from the
    header, and the socket is closed. *)
Lemma oversized_name_keeps_pixel_format :
  let s := protocolAt FramebufferInit serverInitHeader_256 in
  let s' := snd (read xorCipher s) in
  m_state s = FramebufferInit
  /\ bytesAvailable (m_socket s) = sz_rfbServerInitMsg
  /\ qFromBigEndian (serverInit_nameLength (sk_in (m_socket s))) = 256
  /\ len (sk_peek (m_socket s) 256) < 256
  /\ fst (read xorCipher s) = false
  /\ m_pixelFormat s' = m_pixelFormat s
  /\ m_pixelFormat s' <> serverInit_format (sk_in (m_socket s))
  /\ sk_open (m_socket s') = false.
Proof.
  cbv zeta. repeat split; try (vm_compute; congruence).
Qed.

(** A remark on the test of line 394: [peek(nameLength)] starts at the
    header, so a name of which only a part arrived passes it as soon as
    header and part together count [nameLength] bytes.  With 6 bytes of a
    name of 30, [read()] returns [true], enters Running and keeps 30 bytes,
    not 54, as the server-init message. *)
Lemma partial_name_accepted :
  let s := protocolAt FramebufferInit serverInit_30_partial in
  let s' := snd (read xorCipher s) in
  qFromBigEndian (serverInit_nameLength (sk_in (m_socket s))) = 30
  /\ bytesAvailable (m_socket s) = 30
  /\ fst (read xorCipher s) = true
  /\ m_state s' = Running
  /\ len (m_serverInitMessage s') = 30
  /\ sk_in (m_socket s') = [].
Proof. cbv zeta. repeat split; vm_compute; reflexivity. Qed.

(** ** The challenge response *)

(** The key loop pads the password with zeros, or cuts it, to 8 bytes. *)
Lemma passwordKey_padded (passwd : list byte) : passwordKey passwd = paddedKey passwd.
Proof.
  unfold passwordKey, paddedKey. change (Z.to_nat KeyLength) with 8%nat.
  apply nth_ext with (d := x00) (d' := x00).
  - rewrite length_map, length_seq, length_firstn, length_app, repeat_length. lia.
  - intros n Hn. rewrite length_map, length_seq in Hn.
    rewrite nth_firstn. destruct (Nat.ltb_spec n 8) as [_|]; [|lia].
    set (f := fun i : nat => if Z.of_nat i <? len passwd then nth i passwd x00 else x00).
    rewrite (nth_indep (map f (seq 0 8)) x00 (f 0%nat))
      by (rewrite length_map, length_seq; exact Hn).
    rewrite map_nth, seq_nth by exact Hn. simpl (0 + n)%nat. unfold f, len.
    destruct (Z.ltb_spec (Z.of_nat n) (Z.of_nat (length passwd))) as [Hlt|Hge].
    + rewrite app_nth1 by lia. reflexivity.
    + rewrite app_nth2 by lia. symmetry. apply nth_repeat.
Qed.

Lemma xorCipher_length (key block : list byte) :
  len block = 8 -> len (xorCipher key block) = 8.
Proof.
  unfold xorCipher, len. intros H.
  rewrite length_map, length_combine, length_firstn, length_app, repeat_length. lia.
Qed.

Section CipherProofs.

Variable rfbDes : list byte -> list byte -> list byte.

(** The cipher maps a block of 8 bytes to a block of 8 bytes. *)
Hypothesis rfbDes_length :
  forall key block, len block = 8 -> len (rfbDes key block) = 8.

(** [vncEncryptBytes] on a challenge of two blocks is the reference
    response. *)
Lemma vncEncryptBytes_reference (passwd block1 block2 : list byte) :
  len block1 = 8 -> len block2 = 8 ->
  vncEncryptBytes rfbDes (block1 ++ block2) passwd
  = referenceResponse rfbDes passwd block1 block2.
Proof.
  intros H1 H2. unfold vncEncryptBytes, referenceResponse.
  rewrite passwordKey_padded.
  change (map (fun k : nat => Z.of_nat k * KeyLength)
            (seq 0 (Z.to_nat (CHALLENGESIZE / KeyLength)))) with [0; 8].
  cbn [fold_left]. unfold encryptBlockAt, field. change KeyLength with 8.
  rewrite (take_nonpos 0), (drop_nonpos 0) by lia.
  change (0 + 8) with 8.
  rewrite (take_app_exact block1), (drop_app_exact block1) by assumption.
  cbn [app].
  set (e1 := rfbDes (paddedKey passwd) block1).
  assert (He1 : len e1 = 8) by (apply rfbDes_length; assumption).
  rewrite (take_app_exact e1), (drop_app_exact e1) by assumption.
  rewrite (take_all block2) by lia.
  rewrite (drop_all (e1 ++ block2)) by (rewrite len_app; lia).
  now rewrite app_nil_r.
Qed.

(** C5.  For every password and every challenge of two 8-byte blocks, the
    16 bytes that [read()] writes back in the SecurityChallenge state are
    the two blocks, each encrypted by the cipher primitive under the key
    made of the password padded with zeros, or cut, to 8 bytes; the
    challenge leaves the socket and the state becomes SecurityResult. *)
Theorem challenge_response (s : VncClientProtocol) (block1 block2 rest : list byte) :
  m_state s = SecurityChallenge ->
  sk_open (m_socket s) = true ->
  sk_in (m_socket s) = block1 ++ block2 ++ rest ->
  len block1 = 8 -> len block2 = 8 ->
  read rfbDes s =
    (true,
     set_state
       (set_socket s
          (mkSocket rest
             (sk_out (m_socket s)
              ++ referenceResponse rfbDes (m_vncPassword s) block1 block2) true))
       SecurityResult)
  /\ len (referenceResponse rfbDes (m_vncPassword s) block1 block2) = CHALLENGESIZE.
Proof.
  intros Hst Hopen Hin H1 H2.
  assert (Hresp : len (referenceResponse rfbDes (m_vncPassword s) block1 block2) = 16).
  { unfold referenceResponse. rewrite len_app, !rfbDes_length by assumption. reflexivity. }
  split; [|exact Hresp].
  unfold read. rewrite Hst. destruct_protocol s. subst.
  unfold receiveSecurityChallenge, bytesAvailable, sk_read; simpl.
  change CHALLENGESIZE with 16 in *.
  pose proof (len_nonneg rest).
  rewrite !len_app.
  destruct (len block1 + (len block2 + len rest) >=? 16) eqn:E;
    [|rewrite Z.geb_leb in E; apply Z.leb_gt in E; lia].
  rewrite app_assoc.
  rewrite take_app_exact, drop_app_exact by (rewrite len_app; lia).
  rewrite vncEncryptBytes_reference by assumption.
  rewrite take_all by lia. reflexivity.
Qed.

End CipherProofs.

Lemma challenge_response_witness :
  let block1 := [x00; x01; x02; x03; x04; x05; x06; x07] in
  let block2 := [x10; x11; x12; x13; x14; x15; x16; x17] in
  let s := protocolAt SecurityChallenge (block1 ++ block2 ++ [x2a]) in
  (forall key block, len block = 8 -> len (xorCipher key block) = 8)
  /\ m_state s = SecurityChallenge
  /\ sk_open (m_socket s) = true
  /\ len block1 = 8 /\ len block2 = 8
  /\ read xorCipher s =
       (true,
        set_state
          (set_socket s
             (mkSocket [x2a]
                ([] ++ referenceResponse xorCipher (m_vncPassword s) block1 block2) true))
          SecurityResult)
  /\ len (referenceResponse xorCipher (m_vncPassword s) block1 block2) = CHALLENGESIZE.
Proof.
  intros block1 block2 s.
  split; [exact xorCipher_length|]. split; [reflexivity|]. split; [reflexivity|].
  split; [reflexivity|]. split; [reflexivity|].
  exact (challenge_response xorCipher xorCipher_length s block1 block2 [x2a]
           eq_refl eq_refl eq_refl eq_refl eq_refl).
Defined.

(** ** Reading from the buffer *)

Lemma uint32_small (z : Z) : 0 <= z < 2 ^ 32 -> uint32 z = z.
Proof. intros H. unfold uint32. now apply Z.mod_small. Qed.

Lemma toInt_small (z : Z) : 0 <= z < 2 ^ 31 -> toInt z = z.
Proof.
  intros H. unfold toInt. rewrite uint32_small by lia.
  destruct (z <? 2 ^ 31) eqn:E; [reflexivity | apply Z.ltb_ge in E; lia].
Qed.

(** An exact read of [n >= 0] bytes succeeds when [n] bytes are left, and
    fails otherwise. *)
Lemma readExact_spec (b : QBuffer) (n : Z) :
  0 <= n ->
  readExact b n =
    if n <=? len (buf_rest b)
    then Some (take n (buf_rest b), mkBuffer (drop n (buf_rest b)) (buf_pos b + n))
    else None.
Proof.
  intros Hn. unfold readExact, buf_read. rewrite len_take by assumption.
  destruct (Z.leb_spec n (len (buf_rest b))) as [Hle|Hgt].
  - rewrite Z.min_l by lia. now rewrite Z.eqb_refl.
  - rewrite Z.min_r by lia. destruct (Z.eqb_spec (len (buf_rest b)) n); [lia | reflexivity].
Qed.

Lemma skipExact_spec (b : QBuffer) (n : Z) :
  0 <= n ->
  skipExact b n =
    if n <=? len (buf_rest b)
    then Some (mkBuffer (drop n (buf_rest b)) (buf_pos b + n))
    else None.
Proof.
  intros Hn. unfold skipExact. rewrite readExact_spec by assumption.
  destruct (n <=? len (buf_rest b)); reflexivity.
Qed.

Lemma readUInt_spec (b : QBuffer) (n : Z) :
  0 <= n < 2 ^ 31 -> readUInt b n = skipExact b n.
Proof.
  intros Hn. unfold readUInt, skipExact, readExact.
  rewrite toInt_small, uint32_small by lia.
  destruct (buf_read b n) as [chunk b']. simpl.
  destruct (len chunk =? n); reflexivity.
Qed.

(** ** Hextile tiles *)

(** The loop variable takes the values [start], [start + 16], ... below
    [start + extent], and no other. *)
Lemma tileStarts_spec (start extent v : Z) :
  0 <= extent ->
  In v (tileStarts start extent)
  <-> exists k, 0 <= k /\ v = start + 16 * k /\ v < start + extent.
Proof.
  intros He. unfold tileStarts. rewrite in_map_iff. split.
  - intros [k [Hv Hk]]. apply in_seq in Hk. exists (Z.of_nat k).
    assert (Hk' : Z.of_nat k < (extent + 15) / 16).
    { destruct Hk as [_ Hk]. simpl in Hk. apply Nat2Z.inj_lt in Hk.
      rewrite Z2Nat.id in Hk by (apply Z.div_pos; lia). exact Hk. }
    pose proof (Z.mul_div_le (extent + 15) 16 ltac:(lia)). lia.
  - intros [k [Hk [Hv Hlt]]]. exists (Z.to_nat k). rewrite Z2Nat.id by lia.
    split; [lia|]. apply in_seq. split; [lia|]. simpl.
    apply Z2Nat.inj_lt; [lia | apply Z.div_pos; lia |].
    apply Z.div_lt_upper_bound in Hlt as _ || idtac.
    assert (Hq : k + 1 <= (extent + 15) / 16)
      by (apply Z.div_le_lower_bound; lia).
    lia.
Qed.

(** The tiles of a rectangle are between 1 and 16 pixels wide and high. *)
Lemma tileExtent_bounds (start extent v : Z) :
  0 <= start -> 0 <= extent -> start + extent < 2 ^ 32 ->
  In v (tileStarts start extent) ->
  start <= v < start + extent /\ 1 <= tileExtent (start + extent) v <= 16.
Proof.
  intros Hs He Hov Hin. unfold tileStarts in Hin.
  apply in_map_iff in Hin. destruct Hin as [k [Hv Hk]]. apply in_seq in Hk.
  assert (Hk' : Z.of_nat k < (extent + 15) / 16).
  { destruct Hk as [_ Hk]. simpl in Hk. apply Nat2Z.inj_lt in Hk.
    rewrite Z2Nat.id in Hk by (apply Z.div_pos; lia). exact Hk. }
  assert (Hlt : 16 * Z.of_nat k < extent).
  { pose proof (Z.mul_div_le (extent + 15) 16 ltac:(lia)). lia. }
  subst v. split; [lia|].
  unfold tileExtent. rewrite uint32_small by lia.
  destruct (start + extent - (start + 16 * Z.of_nat k) <? 16) eqn:E; lia.
Qed.

(** A rectangle of at most 16 by 16 pixels is one tile of its own size. *)
Lemma hextile_single_tile (buffer : QBuffer)
    (rectHeader : rfbFramebufferUpdateRectHeader) (bytesPerPixel : Z) :
  1 <= rh_w rectHeader <= 16 -> 1 <= rh_h rectHeader <= 16 ->
  handleRectEncodingHextile buffer rectHeader bytesPerPixel
  = hextileTile (rh_w rectHeader) (rh_h rectHeader) bytesPerPixel buffer.
Proof.
  intros Hw Hh. unfold handleRectEncodingHextile.
  assert (Hone : forall start extent, 1 <= extent <= 16 ->
                   tileStarts start extent = [start]
                   /\ tileExtent (start + extent) start = extent).
  { intros start extent He. unfold tileStarts, tileExtent.
    assert (Hq : (extent + 15) / 16 = 1)
      by (symmetry; apply (Z.div_unique (extent + 15) 16 1 (extent - 1)); lia).
    rewrite Hq. simpl. split; [f_equal; lia|].
    replace (start + extent - start) with extent by lia.
    rewrite uint32_small by (change (2 ^ 32) with 4294967296; lia).
    destruct (Z.ltb_spec extent 16); lia. }
  destruct (Hone (rh_x rectHeader) (rh_w rectHeader) Hw) as [Hxs Hxe].
  destruct (Hone (rh_y rectHeader) (rh_h rectHeader) Hh) as [Hys Hye].
  rewrite Hxs, Hys. cbn [forEach]. rewrite Hxe, Hye.
  destruct (hextileTile (rh_w rectHeader) (rh_h rectHeader) bytesPerPixel buffer);
    reflexivity.
Qed.

(** ** What a call leaves of the socket *)

Lemma readMessage_cases (s : VncClientProtocol) (size : Z) :
  readMessage s size =
    if (0 <=? size) && (size <=? bytesAvailable (m_socket s))
    then (true,
          set_lastMessage
            (set_socket s (mkSocket (drop size (sk_in (m_socket s)))
                             (sk_out (m_socket s)) (sk_open (m_socket s))))
            (take size (sk_in (m_socket s))))
    else (false, s).
Proof.
  destruct_protocol s. unfold readMessage, bytesAvailable, sk_read; simpl.
  destruct (Z.ltb_spec (len inp) size) as [Hlt|Hge].
  - destruct (Z.leb_spec size (len inp)); [lia|]. now rewrite andb_false_r.
  - destruct (Z.leb_spec size (len inp)); [|lia]. rewrite andb_true_r.
    destruct (Z.leb_spec 0 size) as [Hpos|Hneg].
    + rewrite len_take, Z.min_l by lia. now rewrite Z.eqb_refl.
    + rewrite take_nonpos, drop_nonpos by lia. change (len (@nil byte)) with 0.
      destruct (Z.eqb_spec 0 size); [lia | reflexivity].
Qed.


(** A decoder leaves the protocol object alone, or fails and closes the
    socket. *)
Lemma handleRect_state (s : VncClientProtocol) (buffer : QBuffer)
    (rectHeader : rfbFramebufferUpdateRectHeader) :
  snd (handleRect s buffer rectHeader) = s
  \/ handleRect s buffer rectHeader = (None, closeSocket s).
Proof.
  unfold handleRect. repeat break_if; simpl; auto.
Qed.

Lemma updateRects_state (n : nat) :
  forall (s : VncClientProtocol) (buffer : QBuffer) (updatedRegion : QRegion),
    snd (updateRects n s buffer updatedRegion) = s
    \/ updateRects n s buffer updatedRegion = (None, closeSocket s).
Proof.
  induction n as [|n IH]; intros s buffer updatedRegion; simpl; [left; reflexivity|].
  destruct (readExact buffer sz_rfbFramebufferUpdateRectHeader) as [[hdr buffer']|];
    [|left; reflexivity].
  break_if; [left; reflexivity|].
  destruct (handleRect_state s buffer' (decodeRectHeader hdr)) as [Hs|Hc].
  - destruct (handleRect s buffer' (decodeRectHeader hdr)) as [[b|] s']; simpl in Hs; subst s'.
    + apply IH.
    + left; reflexivity.
  - rewrite Hc. right; reflexivity.
Qed.


(** The messages of fixed size, Bell, ResizeFrameBuffer and Xvp: on a socket
    within the size bound, [receiveMessage()] returns [true] exactly when
    the whole message is unread, and then takes just that message. *)
Lemma receiveMessage_fixed_size (MaximumMessageSize : Z) (s : VncClientProtocol)
    (messageType : byte) (rest : list byte) (size : Z) :
  sk_in (m_socket s) = messageType :: rest ->
  bytesAvailable (m_socket s) <= MaximumMessageSize ->
  In (byteZ messageType, size)
     [(rfbBell, sz_rfbBellMsg); (rfbResizeFrameBuffer, sz_rfbResizeFrameBufferMsg);
      (rfbXvp, sz_rfbXvpMsg)] ->
  (fst (receiveMessage MaximumMessageSize s) = true
   <-> size <= bytesAvailable (m_socket s))
  /\ (size <= bytesAvailable (m_socket s) ->
      tookMessage size s (snd (receiveMessage MaximumMessageSize s)))
  /\ (bytesAvailable (m_socket s) < size ->
      receiveMessage MaximumMessageSize s = (false, s)).
Proof.
  intros Hin Hmax Htype. unfold receiveMessage.
  destruct (bytesAvailable (m_socket s) >? MaximumMessageSize) eqn:E;
    [rewrite Z.gtb_ltb in E; apply Z.ltb_lt in E; lia|].
  unfold sk_peek. rewrite Hin, take_one.
  change (len [messageType] =? 1) with true. cbn [negb].
  change (uint8At 0 [messageType]) with (byteZ messageType).
  assert (Hsize : 0 <= size)
    by (destruct Htype as [H|[H|[H|[]]]]; inversion H; subst; discriminate).
  assert (Hcases : forall s0,
             m_socket s0 = m_socket s -> m_state s0 = m_state s ->
             (fst (readMessage s0 size) = true <-> size <= bytesAvailable (m_socket s))
             /\ (size <= bytesAvailable (m_socket s) ->
                 tookMessage size s (snd (readMessage s0 size)))
             /\ (bytesAvailable (m_socket s) < size -> readMessage s0 size = (false, s0))).
  { intros s0 Hsk Hst. rewrite readMessage_cases, Hsk.
    destruct (Z.leb_spec 0 size); [|lia].
    destruct (Z.leb_spec size (bytesAvailable (m_socket s))); cbn [andb fst snd].
    - split; [tauto|]. split; [|lia]. intros _.
      unfold tookMessage. cbn. rewrite Hst. repeat split; assumption.
    - split; [split; [discriminate | lia]|]. split; [lia | reflexivity]. }
  destruct Htype as [H|[H|[H|[]]]]; inversion H as [[Ht Hs]]; try subst size;
    repeat match goal with
           | |- context [?a =? ?b] =>
               let v := eval vm_compute in (a =? b) in change (a =? b) with v
           end; cbv iota.
  - unfold receiveBellMessage. apply Hcases; reflexivity.
  - unfold receiveResizeFramebufferMessage.
    destruct (Hcases s eq_refl eq_refl) as [Hiff [Htook Hshort]].
    destruct (readMessage s sz_rfbResizeFrameBufferMsg) as [ok s'] eqn:Hrm.
    cbn [fst snd] in *. destruct ok; cbn [fst snd].
    + split; [exact Hiff|]. split; [|intros Hlt; apply Hshort in Hlt; discriminate].
      intros Hle. exact (Htook Hle).
    + split; [exact Hiff|]. split; [exact Htook|].
      intros Hlt. rewrite (Hshort Hlt) in Hrm |- *. reflexivity.
  - unfold receiveXvpMessage. apply Hcases; reflexivity.
Qed.

(** ** No partial consumption *)


Lemma read_below_threshold (rfbDes : list byte -> list byte -> list byte)
    (s : VncClientProtocol) :
  bytesAvailable (m_socket s) < stepThreshold (m_state s) ->
  read rfbDes s = (false, s).
Proof.
  destruct_protocol s. unfold read, bytesAvailable; simpl.
  destruct st; simpl; intros Hlt;
    unfold readProtocol, receiveSecurityTypes, receiveSecurityChallenge,
      receiveSecurityResult, receiveServerInitMessage, bytesAvailable; simpl.
  - change sz_rfbProtocolVersionMsg with 12 in *.
    destruct (Z.eqb_spec (len inp) 12); [lia | reflexivity].
  - destruct (len inp >=? 2) eqn:E; [rewrite Z.geb_leb in E; apply Z.leb_le in E; lia | reflexivity].
  - change CHALLENGESIZE with 16 in *.
    destruct (len inp >=? 16) eqn:E; [rewrite Z.geb_leb in E; apply Z.leb_le in E; lia | reflexivity].
  - destruct (len inp >=? 4) eqn:E; [rewrite Z.geb_leb in E; apply Z.leb_le in E; lia | reflexivity].
  - change sz_rfbServerInitMsg with 24 in *.
    destruct (len inp >=? 24) eqn:E; [rewrite Z.geb_leb in E; apply Z.leb_le in E; lia | reflexivity].
  - reflexivity.
Qed.




(** ** The Running state *)

(** A remark on [receiveCutTextMessage]: the length field is cast to [int]
    before it is added to the header size, so a declared length of
    2^32 - 8 gives a message size of 0, and [receiveMessage()] returns
    [true] with no byte taken off the socket. *)
Lemma cut_text_length_wraps :
  let s := runningAt x08 200 200 cutText_wrapped in
  receiveMessage 67108864 s = (true, s)
  /\ tookMessage 0 s (snd (receiveMessage 67108864 s)).
Proof.
  cbv zeta. split; [vm_compute; reflexivity|].
  unfold tookMessage. repeat split; vm_compute; congruence.
Qed.

(** ** The updated rectangle *)

Lemma handleRect_raw (s : VncClientProtocol) (buffer : QBuffer)
    (rectHeader : rfbFramebufferUpdateRectHeader) :
  rh_encoding rectHeader = rfbEncodingRaw ->
  handleRect s buffer rectHeader
  = (readUInt buffer
       (rh_w rectHeader * rh_h rectHeader * (bitsPerPixel (m_pixelFormat s) / 8)), s).
Proof. intros H. unfold handleRect. rewrite H. reflexivity. Qed.

(** One turn of the rectangle loop over a Raw rectangle whose pixels are all
    in the buffer. *)
Lemma updateRects_raw (n : nat) (s : VncClientProtocol) (buffer : QBuffer)
    (updatedRegion : QRegion) (hdr pixels tail : list byte) :
  buf_rest buffer = hdr ++ pixels ++ tail ->
  len hdr = sz_rfbFramebufferUpdateRectHeader ->
  rh_encoding (decodeRectHeader hdr) = rfbEncodingRaw ->
  len pixels = rh_w (decodeRectHeader hdr) * rh_h (decodeRectHeader hdr)
               * (bitsPerPixel (m_pixelFormat s) / 8) ->
  len pixels < 2 ^ 31 ->
  updateRects (S n) s buffer updatedRegion
  = updateRects n s
      (mkBuffer tail (buf_pos buffer + sz_rfbFramebufferUpdateRectHeader + len pixels))
      (addUpdatedRect s updatedRegion (decodeRectHeader hdr)).
Proof.
  intros Hrest Hhdr Henc Hpix Hsmall. cbn [updateRects].
  pose proof (len_nonneg pixels) as Hp0. pose proof (len_nonneg tail) as Ht0.
  change sz_rfbFramebufferUpdateRectHeader with 12 in *.
  rewrite readExact_spec by lia. rewrite Hrest, len_app, len_app.
  destruct (Z.leb_spec 12 (len hdr + (len pixels + len tail))) as [_|]; [|lia].
  rewrite take_app_exact, drop_app_exact by assumption.
  rewrite Henc. change (rfbEncodingRaw =? rfbEncodingLastRect) with false. cbv iota.
  rewrite handleRect_raw by assumption.
  rewrite <- Hpix. rewrite readUInt_spec, skipExact_spec by lia. cbn [buf_rest buf_pos].
  rewrite len_app. destruct (Z.leb_spec (len pixels) (len pixels + len tail)) as [_|]; [|lia].
  rewrite drop_app_exact by reflexivity. reflexivity.
Qed.

(** One turn of the rectangle loop over a PointerPos, KeyboardLedState or
    NewFBSize rectangle: the header is read and nothing else, and the region
    is as before. *)
Lemma updateRects_no_payload (n : nat) (s : VncClientProtocol) (buffer : QBuffer)
    (updatedRegion : QRegion) (hdr tail : list byte) :
  buf_rest buffer = hdr ++ tail ->
  len hdr = sz_rfbFramebufferUpdateRectHeader ->
  In (rh_encoding (decodeRectHeader hdr))
     [rfbEncodingPointerPos; rfbEncodingKeyboardLedState; rfbEncodingNewFBSize] ->
  updateRects (S n) s buffer updatedRegion
  = updateRects n s
      (mkBuffer tail (buf_pos buffer + sz_rfbFramebufferUpdateRectHeader))
      updatedRegion.
Proof.
  intros Hrest Hhdr Henc. cbn [updateRects].
  pose proof (len_nonneg tail) as Ht0.
  change sz_rfbFramebufferUpdateRectHeader with 12 in *.
  rewrite readExact_spec by lia. rewrite Hrest, len_app.
  destruct (Z.leb_spec 12 (len hdr + len tail)) as [_|]; [|lia].
  rewrite take_app_exact, drop_app_exact by assumption.
  unfold handleRect, addUpdatedRect, isPseudoEncoding.
  destruct Henc as [He|[He|[He|[]]]]; rewrite <- He; reflexivity.
Qed.

(** A rectangle with a pseudo-encoding adds nothing to the region. *)
Lemma addUpdatedRect_pseudo (s : VncClientProtocol) (updatedRegion : QRegion)
    (rectHeader : rfbFramebufferUpdateRectHeader) :
  isPseudoEncoding rectHeader = true ->
  addUpdatedRect s updatedRegion rectHeader = updatedRegion.
Proof. intros H. unfold addUpdatedRect. now rewrite H. Qed.

Lemma addUpdatedRect_inside (s : VncClientProtocol) (updatedRegion : QRegion)
    (rectHeader : rfbFramebufferUpdateRectHeader) :
  isPseudoEncoding rectHeader = false ->
  insideFramebuffer (m_framebufferWidth s) (m_framebufferHeight s) rectHeader ->
  addUpdatedRect s updatedRegion rectHeader = updatedRegion ++ [rectOf rectHeader].
Proof.
  intros Hp [Hx [Hy [Hw Hh]]]. unfold addUpdatedRect, region_add, rect_isEmpty. rewrite Hp.
  apply Z.leb_le in Hx, Hy. rewrite Hx, Hy. simpl.
  destruct (Z.leb_spec (rh_w rectHeader) 0); [lia|].
  destruct (Z.leb_spec (rh_h rectHeader) 0); [lia|]. reflexivity.
Qed.

(** The bounding rectangle covers every rectangle of the region. *)
Lemma rect_united_contains (a b : QRect) (px py : Z) :
  rect_contains a px py \/ rect_contains b px py ->
  rect_contains (rect_united a b) px py.
Proof. unfold rect_contains, rect_united; simpl. lia. Qed.

Lemma fold_united_contains (rest : list QRect) :
  forall (r : QRect) (px py : Z),
    rect_contains r px py \/ region_contains rest px py ->
    rect_contains (fold_left rect_united rest r) px py.
Proof.
  induction rest as [|q rest IH]; intros r px py H; simpl.
  - destruct H as [H|[q [[] _]]]. exact H.
  - apply IH. destruct H as [H|[q' [[Hq|Hin] Hc]]].
    + left. apply rect_united_contains. now left.
    + subst q'. left. apply rect_united_contains. now right.
    + right. exists q'. split; assumption.
Qed.

Lemma boundingRect_contains (rg : QRegion) (px py : Z) :
  region_contains rg px py -> rect_contains (boundingRect rg) px py.
Proof.
  destruct rg as [|r rest]; intros [q [Hin Hc]]; [destruct Hin|].
  simpl. apply fold_united_contains. destruct Hin as [Hq|Hin].
  - subst q. now left.
  - right. exists q. split; assumption.
Qed.

(** C4 as the spec states it fails twice.  For the two Raw rectangles of
    [twoRawRects], (0,0) and (100,100), each of 2 by 2 pixels, in a
    framebuffer of 200 by 200 the exposed rectangle is 102 by 102: it holds
    the point (50,50), which is in neither rectangle, so it is not their
    union.  In a framebuffer of 100 by 100 the second rectangle does not lie
    inside and the exposed rectangle is the first alone. *)
Lemma updated_rect_is_not_the_union :
  let s := runningAt x08 200 200 twoRawRects in
  let s' := snd (receiveMessage 67108864 s) in
  let clipped := snd (receiveMessage 67108864 (runningAt x08 100 100 twoRawRects)) in
  fst (receiveMessage 67108864 s) = true
  /\ sk_in (m_socket s') = []
  /\ m_lastUpdatedRect s' = mkRect 0 0 102 102
  /\ rect_contains (m_lastUpdatedRect s') 50 50
  /\ ~ region_contains [mkRect 0 0 2 2; mkRect 100 100 2 2] 50 50
  /\ fst (receiveMessage 67108864 (runningAt x08 100 100 twoRawRects)) = true
  /\ m_lastUpdatedRect clipped = mkRect 0 0 2 2
  /\ ~ rect_contains (m_lastUpdatedRect clipped) 100 100.
Proof.
  cbv zeta.
  assert (H200 : m_lastUpdatedRect (snd (receiveMessage 67108864 (runningAt x08 200 200 twoRawRects)))
                 = mkRect 0 0 102 102) by (vm_compute; reflexivity).
  assert (H100 : m_lastUpdatedRect (snd (receiveMessage 67108864 (runningAt x08 100 100 twoRawRects)))
                 = mkRect 0 0 2 2) by (vm_compute; reflexivity).
  split; [vm_compute; reflexivity|]. split; [vm_compute; reflexivity|].
  split; [exact H200|]. split; [rewrite H200; unfold rect_contains; simpl; lia|].
  split.
  - intros [r [[Hr|[Hr|[]]] Hc]]; subst r; unfold rect_contains in Hc; simpl in Hc; lia.
  - split; [vm_compute; reflexivity|]. split; [exact H100|].
    rewrite H100. unfold rect_contains; simpl; lia.
Qed.

(** A remark on [isPseudoEncoding]: the cursor encodings are not among its
    cases, so a cursor rectangle inside the framebuffer is added to the
    region like a rectangle of pixels. *)
Lemma cursor_rect_is_added :
  let s := runningAt x08 200 200 richCursorUpdate in
  isPseudoEncoding (mkRectHeader 5 5 1 1 rfbEncodingRichCursor) = false
  /\ fst (receiveMessage 67108864 s) = true
  /\ m_lastUpdatedRect (snd (receiveMessage 67108864 s)) = mkRect 5 5 1 1.
Proof. cbv zeta. repeat split; vm_compute; reflexivity. Qed.

(** ** Chunks *)

Section Chunks.

Variable rfbDes : list byte -> list byte -> list byte.

Lemma read_empty (s : VncClientProtocol) :
  sk_in (m_socket s) = [] -> read rfbDes s = (false, s).
Proof.
  intros Hin. destruct (m_state s) eqn:Hst;
    try (apply read_below_threshold; unfold bytesAvailable; rewrite Hin, Hst; reflexivity).
  unfold read. now rewrite Hst.
Qed.

Lemma deliver_nil (s : VncClientProtocol) : deliver s [] = s.
Proof.
  destruct_protocol s. unfold deliver, sk_deliver; simpl.
  destruct op; [rewrite app_nil_r|]; reflexivity.
Qed.

Lemma deliver_deliver (s : VncClientProtocol) (a b : list byte) :
  deliver (deliver s a) b = deliver s (a ++ b).
Proof.
  destruct_protocol s. unfold deliver, sk_deliver; simpl.
  destruct op; simpl; [rewrite app_assoc|]; reflexivity.
Qed.

(** With the whole unit unread, the step reads all of it, or closes the
    socket: nothing is left unread. *)
Lemma fixed_unit_read_all (s : VncClientProtocol) :
  fixedUnit (m_state s) = true ->
  bytesAvailable (m_socket s) = stepThreshold (m_state s) ->
  sk_in (m_socket (snd (read rfbDes s))) = [].
Proof.
  intros Hu Hav. unfold read. destruct (m_state s) eqn:Hst; try discriminate;
    cbn [stepThreshold] in Hav.
  - rewrite readProtocol_twelve by exact Hav. cbv zeta.
    destruct_protocol s. repeat break_match; simpl; try reflexivity.
    unfold sk_write; simpl. destruct op; reflexivity.
  - destruct_protocol s.
    unfold receiveSecurityChallenge, bytesAvailable, sk_read, sk_write in *; simpl in *.
    change CHALLENGESIZE with 16 in *. rewrite Hav. simpl.
    rewrite (drop_all inp) by lia. destruct op; reflexivity.
  - destruct_protocol s.
    unfold receiveSecurityResult, bytesAvailable, sk_read, sk_write in *; simpl in *.
    rewrite Hav. simpl. rewrite (drop_all inp) by lia.
    break_match; simpl; [reflexivity|]. destruct op; reflexivity.
Qed.

Lemma pump_below_threshold (fuel : nat) (s : VncClientProtocol) :
  bytesAvailable (m_socket s) < stepThreshold (m_state s) ->
  pump rfbDes (S fuel) s = ([], s).
Proof. intros H. cbn [pump]. now rewrite read_below_threshold. Qed.

Lemma pump_fixed_unit (fuel : nat) (s : VncClientProtocol) :
  fixedUnit (m_state s) = true ->
  bytesAvailable (m_socket s) = stepThreshold (m_state s) ->
  pump rfbDes (S (S fuel)) s = readOnce rfbDes s.
Proof.
  intros Hu Hav. pose proof (fixed_unit_read_all s Hu Hav) as Hall.
  unfold readOnce. cbn [pump]. destruct (read rfbDes s) as [ok s']. simpl in Hall.
  destruct ok; [|reflexivity]. now rewrite read_empty.
Qed.

(** Once nothing is unread, chunks without bytes change nothing. *)
Lemma feed_idle (chunks : list (list byte)) :
  forall s, sk_in (m_socket s) = [] -> concat chunks = [] ->
            feed rfbDes chunks s = ([], s).
Proof.
  induction chunks as [|c rest IH]; intros s Hin Hc; [reflexivity|].
  simpl in Hc. apply app_eq_nil in Hc. destruct Hc as [Hc Hrest]. subst c.
  cbn [feed]. rewrite deliver_nil, Hin. cbn [length pump].
  rewrite read_empty by assumption. now rewrite IH.
Qed.

Lemma deliver_unread (s : VncClientProtocol) (chunk : list byte) :
  sk_open (m_socket s) = true ->
  sk_in (m_socket (deliver s chunk)) = sk_in (m_socket s) ++ chunk
  /\ sk_open (m_socket (deliver s chunk)) = true
  /\ m_state (deliver s chunk) = m_state s.
Proof.
  intros Hop. destruct_protocol s. subst op. repeat split.
Qed.

Lemma stepThreshold_pos (st : State) : fixedUnit st = true -> 0 < stepThreshold st.
Proof. destruct st; simpl; intros H; try discriminate; reflexivity. Qed.

(** A fixed unit fed in chunks: the calls before the last byte do nothing,
    the call after it is the one call on the whole unit. *)
Lemma feed_fixed_unit (chunks : list (list byte)) :
  forall s,
    fixedUnit (m_state s) = true ->
    sk_open (m_socket s) = true ->
    bytesAvailable (m_socket s) < stepThreshold (m_state s) ->
    bytesAvailable (m_socket s) + len (concat chunks) = stepThreshold (m_state s) ->
    feed rfbDes chunks s = readOnce rfbDes (deliver s (concat chunks)).
Proof.
  induction chunks as [|c rest IH]; intros s Hu Hop Hlt Hsum.
  - simpl in Hsum. change (len (@nil byte)) with 0 in Hsum. lia.
  - destruct (deliver_unread s c Hop) as [Hin1 [Hop1 Hst1]].
    simpl concat in *. rewrite len_app in Hsum. cbn [feed].
    pose proof (len_nonneg (concat rest)) as Hr0.
    assert (Hav1 : bytesAvailable (m_socket (deliver s c))
                   = bytesAvailable (m_socket s) + len c)
      by (unfold bytesAvailable; rewrite Hin1, len_app; reflexivity).
    destruct (Z.eq_dec (len (concat rest)) 0) as [Hdone|Hmore].
    + apply len_nil_inv in Hdone as Hnil. rewrite Hnil, app_nil_r.
      assert (Hfuel : exists k, length (sk_in (m_socket (deliver s c))) = S k).
      { destruct (sk_in (m_socket (deliver s c))) eqn:E; [|eexists; reflexivity].
        unfold bytesAvailable in Hav1. rewrite E in Hav1.
        change (len (@nil byte)) with 0 in Hav1.
        pose proof (stepThreshold_pos _ Hu).
        unfold bytesAvailable in *. lia. }
      destruct Hfuel as [k Hk]. rewrite Hk.
      rewrite pump_fixed_unit by (rewrite ?Hst1, ?Hav1; try assumption; lia).
      pose proof (fixed_unit_read_all (deliver s c)) as Hall.
      rewrite Hst1, Hav1 in Hall. specialize (Hall Hu ltac:(lia)).
      unfold readOnce in *. destruct (read rfbDes (deliver s c)) as [ok s']. simpl in Hall.
      rewrite feed_idle by assumption. now rewrite app_nil_r.
    + rewrite pump_below_threshold by (rewrite Hst1, Hav1; lia).
      rewrite IH by (rewrite ?Hst1, ?Hav1; try assumption; lia).
      rewrite deliver_deliver.
      destruct (readOnce rfbDes (deliver s (c ++ concat rest))); reflexivity.
Qed.

(** C2, as the code has it.  Chunk-size independence holds for each unit
    of fixed size, the 12-byte version line, the 16-byte challenge and the
    4-byte security result, arriving on a socket without unread bytes:
    however the bytes of the unit are cut into chunks, with [read()]
    called after every chunk until it returns [false], the transitions
    and the final object are those of the unit delivered at once, which
    are those of one call of [read()] on the whole unit. *)
Theorem fixed_unit_chunking (s : VncClientProtocol) (chunks : list (list byte)) :
  fixedUnit (m_state s) = true ->
  sk_open (m_socket s) = true ->
  sk_in (m_socket s) = [] ->
  len (concat chunks) = stepThreshold (m_state s) ->
  feed rfbDes chunks s = feed rfbDes [concat chunks] s
  /\ feed rfbDes chunks s = readOnce rfbDes (deliver s (concat chunks)).
Proof.
  intros Hu Hop Hin Hlen.
  assert (Hav : bytesAvailable (m_socket s) = 0)
    by (unfold bytesAvailable; now rewrite Hin).
  pose proof (stepThreshold_pos _ Hu) as Hpos.
  assert (Hchunks : feed rfbDes chunks s = readOnce rfbDes (deliver s (concat chunks)))
    by (apply feed_fixed_unit; try assumption; lia).
  split; [|exact Hchunks].
  rewrite Hchunks. rewrite feed_fixed_unit; try assumption; try lia.
  - simpl concat. now rewrite app_nil_r.
  - simpl concat. rewrite app_nil_r. lia.
Qed.

End Chunks.

Lemma fixed_unit_chunking_witness :
  let s := protocolAt Protocol [] in
  let chunks := [[x52; x46; x42]; []; [x20; x30; x30; x33; x2e; x30; x30]; [x38]; [x0a]] in
  fixedUnit (m_state s) = true
  /\ sk_open (m_socket s) = true
  /\ sk_in (m_socket s) = []
  /\ len (concat chunks) = stepThreshold (m_state s)
  /\ feed xorCipher chunks s = feed xorCipher [version_3_8] s
  /\ fst (feed xorCipher chunks s) = [SecurityInit].
Proof.
  intros s chunks.
  split; [reflexivity|]. split; [reflexivity|]. split; [reflexivity|]. split; [reflexivity|].
  split.
  - exact (proj1 (fixed_unit_chunking xorCipher s chunks eq_refl eq_refl eq_refl eq_refl)).
  - rewrite (proj2 (fixed_unit_chunking xorCipher s chunks eq_refl eq_refl eq_refl eq_refl)).
    reflexivity.
Defined.

(** C2 as the spec states it fails.  The version line followed by a list of
    one security type passes both steps when the line and the list arrive as
    two chunks, and passes none when they arrive as one, since the version
    step waits for exactly 12 unread bytes.  A list of two security types is
    accepted when it arrives at once and closes the socket when it arrives
    byte by byte. *)
Lemma chunking_changes_outcome :
  let stream := version_3_8 ++ [x01; x01] in
  let s := protocolAt Protocol [] in
  let types := [x02; x01; x02] in
  let t := protocolAt SecurityInit [] in
  concat [version_3_8; [x01; x01]] = stream
  /\ fst (feed xorCipher [version_3_8; [x01; x01]] s) = [SecurityInit; SecurityResult]
  /\ fst (feed xorCipher [stream] s) = []
  /\ m_state (snd (feed xorCipher [stream] s)) = Protocol
  /\ concat [[x02]; [x01]; [x02]] = types
  /\ fst (feed xorCipher [types] t) = [SecurityChallenge]
  /\ sk_open (m_socket (snd (feed xorCipher [types] t))) = true
  /\ fst (feed xorCipher [[x02]; [x01]; [x02]] t) = []
  /\ sk_open (m_socket (snd (feed xorCipher [[x02]; [x01]; [x02]] t))) = false.
Proof. cbv zeta. repeat split; vm_compute; reflexivity. Qed.

(** ** The event loop stops on a call that returned [false] *)

Lemma qFromBigEndian_nonneg (l : list byte) : 0 <= qFromBigEndian l.
Proof.
  unfold qFromBigEndian.
  assert (H : forall acc, 0 <= acc ->
                          0 <= fold_left (fun a b => a * 256 + byteZ b) l acc).
  { induction l as [|b t IH]; intros acc Hacc; simpl; [exact Hacc|].
    apply IH. pose proof (byteZ_range b). lia. }
  apply H. lia.
Qed.

Section Pump.

Variable rfbDes : list byte -> list byte -> list byte.

(** A successful call reads at least one byte. *)
Lemma read_true_consumes (s : VncClientProtocol) :
  fst (read rfbDes s) = true ->
  len (sk_in (m_socket (snd (read rfbDes s)))) < len (sk_in (m_socket s)).
Proof.
  unfold read. destruct (m_state s) eqn:Hst.
  - destruct (Z.eq_dec (bytesAvailable (m_socket s)) 12) as [H12|Hn].
    + rewrite readProtocol_twelve by exact H12. cbv zeta. unfold bytesAvailable in H12.
      destruct_protocol s. repeat break_match; simpl; try discriminate.
      intros _. unfold sk_write; simpl. destruct op; simpl;
        change (len (@nil byte)) with 0; lia.
    + unfold readProtocol. change sz_rfbProtocolVersionMsg with 12.
      destruct (Z.eqb_spec (bytesAvailable (m_socket s)) 12); [contradiction | discriminate].
  - destruct_protocol s. unfold receiveSecurityTypes, bytesAvailable, sk_read; simpl.
    destruct (len inp >=? 2) eqn:E; [|discriminate].
    rewrite Z.geb_leb in E. apply Z.leb_le in E.
    pose proof (len_drop inp 1 ltac:(lia)) as Hd.
    pose proof (qFromBigEndian_nonneg []) as _.
    set (count := uint8At 0 (take 1 inp)).
    assert (Hc : 0 <= count).
    { unfold count, uint8At. destruct (drop 0 (take 1 inp)); [lia | apply byteZ_range]. }
    pose proof (len_drop (drop 1 inp) count Hc) as Hd2.
    repeat break_match; simpl; try discriminate; intros _;
      unfold sk_write; simpl; destruct op; simpl; lia.
  - destruct_protocol s. unfold receiveSecurityChallenge, bytesAvailable, sk_read; simpl.
    change CHALLENGESIZE with 16.
    destruct (len inp >=? 16) eqn:E; [|discriminate].
    rewrite Z.geb_leb in E. apply Z.leb_le in E.
    pose proof (len_drop inp 16 ltac:(lia)) as Hd.
    intros _. unfold sk_write; simpl. destruct op; simpl; lia.
  - destruct_protocol s. unfold receiveSecurityResult, bytesAvailable, sk_read; simpl.
    destruct (len inp >=? 4) eqn:E; [|discriminate].
    rewrite Z.geb_leb in E. apply Z.leb_le in E.
    pose proof (len_drop inp 4 ltac:(lia)) as Hd.
    break_match; simpl; [discriminate|]. intros _.
    unfold sk_write; simpl. destruct op; simpl; lia.
  - destruct (Z_le_gt_dec sz_rfbServerInitMsg (bytesAvailable (m_socket s))) as [H24|Hlt].
    + rewrite receiveServerInitMessage_header by exact H24. cbv zeta.
      pose proof (qFromBigEndian_nonneg (serverInit_nameLength (sk_in (m_socket s)))) as Hnl.
      set (nameLength := qFromBigEndian (serverInit_nameLength (sk_in (m_socket s)))) in *.
      destruct (nameLength >? 255) eqn:E; [discriminate|].
      rewrite Z.gtb_ltb in E. apply Z.ltb_ge in E.
      break_match; [|discriminate]. intros _.
      change sz_rfbServerInitMsg with 24 in *. unfold bytesAvailable in H24.
      rewrite uint32_small by (change (2 ^ 32) with 4294967296; lia).
      cbn [snd m_socket sk_in set_state set_framebufferSize set_serverInitMessage set_socket].
      rewrite len_drop by lia. lia.
    + unfold receiveServerInitMessage.
      destruct (bytesAvailable (m_socket s) >=? sz_rfbServerInitMsg) eqn:E;
        [rewrite Z.geb_leb in E; apply Z.leb_le in E; lia | discriminate].
  - discriminate.
Qed.

(** A call that returned [false] closed the socket, whose unread bytes are
    gone, or left the object as it was but for the pixel format stored
    while waiting for a desktop name. *)
Lemma read_false_shape (s : VncClientProtocol) :
  fst (read rfbDes s) = false ->
  sk_in (m_socket (snd (read rfbDes s))) = []
  \/ snd (read rfbDes s) = s
  \/ (m_state s = FramebufferInit
      /\ exists pf, snd (read rfbDes s) = set_pixelFormat s pf).
Proof.
  destruct_protocol s. unfold read; simpl.
  destruct st;
    unfold readProtocol, receiveSecurityTypes, receiveSecurityChallenge,
      receiveSecurityResult, receiveServerInitMessage, sk_read, sk_peek, closeSocket;
    simpl; repeat break_match; simpl; intros; try discriminate;
    first [ left; reflexivity
          | right; left; reflexivity
          | right; right; split; [reflexivity | eexists; reflexivity] ].
Qed.

Lemma receiveServerInitMessage_pixelFormat (s : VncClientProtocol) (fmt : list byte) :
  fst (receiveServerInitMessage (set_pixelFormat s fmt))
  = fst (receiveServerInitMessage s).
Proof.
  destruct_protocol s. unfold receiveServerInitMessage, sk_read, sk_peek, closeSocket; simpl.
  repeat break_match; reflexivity.
Qed.

(** After a call that returned [false], the next call, with nothing new
    delivered, returns [false] again. *)
Lemma read_false_again (s : VncClientProtocol) :
  fst (read rfbDes s) = false ->
  fst (read rfbDes (snd (read rfbDes s))) = false.
Proof.
  intros Hf. destruct (read_false_shape s Hf) as [Hnil | [Hsame | [Hst [pf Hpf]]]].
  - now rewrite read_empty.
  - now rewrite Hsame.
  - rewrite Hpf. unfold read in Hf |- *. rewrite Hst in Hf.
    change (m_state (set_pixelFormat s pf)) with (m_state s). rewrite Hst.
    now rewrite receiveServerInitMessage_pixelFormat.
Qed.

(** With more fuel than unread bytes, [pump] ends because [read()]
    returned [false]: another call on the object it returns does nothing
    but return [false] again. *)
Lemma pump_settles (fuel : nat) :
  forall s, len (sk_in (m_socket s)) < Z.of_nat fuel ->
            fst (read rfbDes (snd (pump rfbDes fuel s))) = false.
Proof.
  induction fuel as [|fuel IH]; intros s Hlt.
  - pose proof (len_nonneg (sk_in (m_socket s))). lia.
  - cbn [pump]. pose proof (read_true_consumes s) as Hc.
    pose proof (read_false_again s) as Hf.
    destruct (read rfbDes s) as [ok s'] eqn:Hr. simpl in Hc, Hf. destruct ok.
    + specialize (Hc eq_refl). specialize (IH s' ltac:(lia)).
      destruct (pump rfbDes fuel s') as [trace s'']. exact IH.
    + simpl. apply Hf. reflexivity.
Qed.

End Pump.

(** * Further properties of the engine *)

(** ** Big-endian fields *)

Lemma byteZ_byteOfZ (z : Z) : byteZ (byteOfZ z) = z mod 256.
Proof.
  unfold byteZ, byteOfZ.
  pose proof (Z.mod_pos_bound z 256 ltac:(lia)) as Hm.
  destruct (Byte.of_N (Z.to_N (z mod 256))) as [b|] eqn:E.
  - apply Byte.to_of_N in E. rewrite E. apply Z2N.id. lia.
  - apply Byte.of_N_None_iff in E. lia.
Qed.

Lemma byteZ_inj (a b : byte) : byteZ a = byteZ b -> a = b.
Proof.
  unfold byteZ. intros H. apply N2Z.inj in H.
  pose proof (Byte.of_to_N a) as Ha. rewrite H, Byte.of_to_N in Ha. congruence.
Qed.

Lemma qFromBigEndian_cons (b : byte) (l : list byte) :
  qFromBigEndian (b :: l) = byteZ b * 256 ^ len l + qFromBigEndian l.
Proof.
  assert (H : forall l acc,
             fold_left (fun a c => a * 256 + byteZ c) l acc
             = acc * 256 ^ len l + fold_left (fun a c => a * 256 + byteZ c) l 0).
  { clear. induction l as [|c t IH]; intros acc.
    - cbn [fold_left]. change (len (@nil byte)) with 0. rewrite Z.pow_0_r. lia.
    - cbn [fold_left]. rewrite (IH (acc * 256 + byteZ c)), (IH (0 * 256 + byteZ c)).
      rewrite len_cons, Z.pow_add_r by (pose proof (len_nonneg t); lia). lia. }
  unfold qFromBigEndian. cbn [fold_left]. rewrite H. lia.
Qed.

Lemma len_toBigEndian (n : nat) (v : Z) : len (toBigEndian n v) = Z.of_nat n.
Proof. unfold toBigEndian, len. now rewrite length_map, length_rev, length_seq. Qed.

Lemma toBigEndian_S (n : nat) (v : Z) :
  toBigEndian (S n) v = byteOfZ (v / 256 ^ Z.of_nat n) :: toBigEndian n v.
Proof. unfold toBigEndian. rewrite seq_S, rev_app_distr. reflexivity. Qed.

(** Decoding what was encoded gives the value back, cut to [n] bytes. *)
Lemma qFromBigEndian_toBigEndian (n : nat) (v : Z) :
  qFromBigEndian (toBigEndian n v) = v mod 256 ^ Z.of_nat n.
Proof.
  induction n as [|n IH].
  - simpl. now rewrite Z.mod_1_r.
  - rewrite toBigEndian_S, qFromBigEndian_cons, len_toBigEndian, IH, byteZ_byteOfZ.
    rewrite Nat2Z.inj_succ, Z.pow_succ_r by lia.
    rewrite (Z.mul_comm 256 (256 ^ Z.of_nat n)).
    rewrite (Z.rem_mul_r v (256 ^ Z.of_nat n) 256) by
      (try apply Z.pow_nonzero; lia).
    lia.
Qed.

Lemma qFromBigEndian_bound (l : list byte) : qFromBigEndian l < 256 ^ len l.
Proof.
  induction l as [|b t IH].
  - reflexivity.
  - rewrite qFromBigEndian_cons, len_cons.
    rewrite Z.pow_add_r by (pose proof (len_nonneg t); lia).
    pose proof (byteZ_range b). pose proof (qFromBigEndian_nonneg t).
    assert (0 < 256 ^ len t) by (apply Z.pow_pos_nonneg; [lia | apply len_nonneg]).
    nia.
Qed.

(** A field decodes to zero exactly when all its bytes are zero. *)
Lemma qFromBigEndian_zero (l : list byte) :
  qFromBigEndian l = 0 <-> l = repeat x00 (length l).
Proof.
  induction l as [|b t IH].
  - split; reflexivity.
  - rewrite qFromBigEndian_cons. pose proof (byteZ_range b).
    pose proof (qFromBigEndian_nonneg t).
    assert (0 < 256 ^ len t) by (apply Z.pow_pos_nonneg; [lia | apply len_nonneg]).
    split.
    + intros Hz. assert (Hb : byteZ b = 0) by nia.
      assert (Ht : qFromBigEndian t = 0) by nia.
      simpl. f_equal; [apply byteZ_inj; rewrite Hb; reflexivity | now apply IH].
    + simpl. intros Heq. injection Heq as Hb Ht. apply IH in Ht.
      rewrite Hb, Ht. reflexivity.
Qed.

(** ** The version line in general *)

Lemma matchProtocolVersion_Some (line : list byte) (major minor : Z) :
  matchProtocolVersion line = Some (major, minor)
  <-> exists a1 a2 a3 b1 b2 b3,
        line = [x52; x46; x42; x20; a1; a2; a3; x2e; b1; b2; b3; x0a]
        /\ isDigit a1 = true /\ isDigit a2 = true /\ isDigit a3 = true
        /\ isDigit b1 = true /\ isDigit b2 = true /\ isDigit b3 = true
        /\ major = toInt3 a1 a2 a3 /\ minor = toInt3 b1 b2 b3.
Proof.
  split.
  - destruct line as [|r [|f [|b [|sp [|a1 [|a2 [|a3 [|dot [|b1 [|b2 [|b3 [|nl [|x t]]]]]]]]]]]]];
      try discriminate.
    unfold matchProtocolVersion.
    destruct (Byte.eqb r x52 && Byte.eqb f x46 && Byte.eqb b x42 && Byte.eqb sp x20
              && isDigit a1 && isDigit a2 && isDigit a3 && Byte.eqb dot x2e
              && isDigit b1 && isDigit b2 && isDigit b3 && Byte.eqb nl x0a) eqn:E;
      [|discriminate].
    intros H. injection H as Hmaj Hmin.
    repeat (apply andb_prop in E; destruct E as [E ?]).
    repeat match goal with
           | H : Byte.eqb _ _ = true |- _ => apply Byte.byte_dec_bl in H; subst
           end.
    exists a1, a2, a3, b1, b2, b3. repeat split; auto.
  - intros [a1 [a2 [a3 [b1 [b2 [b3 [Hl [H1 [H2 [H3 [H4 [H5 [H6 [Hmaj Hmin]]]]]]]]]]]]]].
    subst. unfold matchProtocolVersion.
    rewrite H1, H2, H3, H4, H5, H6. reflexivity.
Qed.

Lemma toInt3_three (a1 a2 a3 : byte) :
  isDigit a1 = true -> isDigit a2 = true -> isDigit a3 = true ->
  toInt3 a1 a2 a3 = 3 -> a1 = x30 /\ a2 = x30 /\ a3 = x33.
Proof.
  unfold isDigit, toInt3. intros H1 H2 H3 H.
  apply andb_prop in H1, H2, H3.
  destruct H1 as [H1 H1'], H2 as [H2 H2'], H3 as [H3 H3'].
  apply Z.leb_le in H1, H1', H2, H2', H3, H3'.
  repeat split; apply byteZ_inj.
  - change (byteZ x30) with 48. lia.
  - change (byteZ x30) with 48. lia.
  - change (byteZ x33) with 51. lia.
Qed.

Lemma readProtocol_not_twelve (s : VncClientProtocol) :
  bytesAvailable (m_socket s) <> 12 -> readProtocol s = (false, s).
Proof.
  intros H. unfold readProtocol. change sz_rfbProtocolVersionMsg with 12.
  destruct (Z.eqb_spec (bytesAvailable (m_socket s)) 12); [contradiction | reflexivity].
Qed.

(** X1.  In the Protocol state [read()] returns [true] exactly when the
    unread bytes are the twelve bytes [RFB 003.ddd] and a line feed, with
    three digits [ddd] whose value is at least 7: then the state is
    SecurityInit, nothing is left unread, and on an open socket the line
    was written back.  Any other content, a thirteenth byte included,
    gives [false]. *)
Theorem version_accepted_iff (rfbDes : list byte -> list byte -> list byte)
    (s : VncClientProtocol) :
  m_state s = Protocol ->
  (fst (read rfbDes s) = true
   <-> exists b1 b2 b3,
         sk_in (m_socket s) = [x52; x46; x42; x20; x30; x30; x33; x2e; b1; b2; b3; x0a]
         /\ isDigit b1 = true /\ isDigit b2 = true /\ isDigit b3 = true
         /\ 7 <= toInt3 b1 b2 b3)
  /\ (fst (read rfbDes s) = true ->
      m_state (snd (read rfbDes s)) = SecurityInit
      /\ sk_in (m_socket (snd (read rfbDes s))) = []
      /\ (sk_open (m_socket s) = true ->
          sk_out (m_socket (snd (read rfbDes s)))
          = sk_out (m_socket s) ++ sk_in (m_socket s))).
Proof.
  intros Hst. unfold read. rewrite Hst.
  destruct (Z.eq_dec (bytesAvailable (m_socket s)) 12) as [H12|Hn].
  - rewrite readProtocol_twelve by exact H12. cbv zeta.
    destruct (matchProtocolVersion (sk_in (m_socket s))) as [[major minor]|] eqn:Hm.
    + apply matchProtocolVersion_Some in Hm.
      destruct Hm as [a1 [a2 [a3 [b1 [b2 [b3 [Hl [H1 [H2 [H3 [H4 [H5 [H6 [Hmaj Hmin]]]]]]]]]]]]]].
      destruct (Z.eqb_spec major 3) as [E3|E3]; destruct (Z.leb_spec 7 minor) as [E7|E7];
        cbn [andb fst snd].
      * split.
        -- split; [|reflexivity]. intros _.
           rewrite Hmaj in E3. destruct (toInt3_three a1 a2 a3 H1 H2 H3 E3) as [? [? ?]].
           subst a1 a2 a3. exists b1, b2, b3. rewrite <- Hmin. auto.
        -- intros _. destruct_protocol s. unfold sk_write; simpl.
           destruct op; simpl; repeat split; try reflexivity. discriminate.
      * split; [|discriminate]. split; [discriminate|].
        intros [c1 [c2 [c3 [Hl' [_ [_ [_ H7]]]]]]]. rewrite Hl in Hl'.
        injection Hl' as -> -> -> -> -> ->. lia.
      * split; [|discriminate]. split; [discriminate|].
        intros [c1 [c2 [c3 [Hl' _]]]]. rewrite Hl in Hl'.
        injection Hl' as -> -> -> -> -> ->. exfalso. apply E3. subst major. reflexivity.
      * split; [|discriminate]. split; [discriminate|].
        intros [c1 [c2 [c3 [Hl' _]]]]. rewrite Hl in Hl'.
        injection Hl' as -> -> -> -> -> ->. exfalso. apply E3. subst major. reflexivity.
    + cbn [fst snd]. split; [|discriminate]. split; [discriminate|].
      intros [b1 [b2 [b3 [Hl [H4 [H5 [H6 H7]]]]]]].
      assert (Hs : matchProtocolVersion (sk_in (m_socket s))
                   = Some (toInt3 x30 x30 x33, toInt3 b1 b2 b3)).
      { apply matchProtocolVersion_Some. exists x30, x30, x33, b1, b2, b3.
        repeat split; auto. }
      congruence.
  - rewrite readProtocol_not_twelve by exact Hn. cbn [fst snd].
    split; [|discriminate]. split; [discriminate|].
    intros [b1 [b2 [b3 [Hl _]]]]. exfalso. apply Hn.
    unfold bytesAvailable. rewrite Hl. reflexivity.
Qed.

Lemma version_accepted_iff_witness :
  let s := protocolAt Protocol [x52; x46; x42; x20; x30; x30; x33; x2e; x30; x30; x37; x0a] in
  m_state s = Protocol
  /\ fst (read xorCipher s) = true
  /\ m_state (snd (read xorCipher s)) = SecurityInit.
Proof.
  intros s. split; [reflexivity|]. split; [reflexivity|].
  exact (proj1 (proj2 (version_accepted_iff xorCipher s eq_refl) eq_refl)).
Defined.

(** ** The version step does not recover from a thirteenth byte *)

Lemma deliver_available (s : VncClientProtocol) (chunk : list byte) :
  bytesAvailable (m_socket s) <= bytesAvailable (m_socket (deliver s chunk))
  /\ m_state (deliver s chunk) = m_state s.
Proof.
  destruct_protocol s. unfold deliver, sk_deliver, bytesAvailable; simpl.
  destruct op; simpl; split; try reflexivity; try lia.
  rewrite len_app. pose proof (len_nonneg chunk). lia.
Qed.

(** X2.  In the Protocol state, once more than twelve bytes are unread,
    [read()] returns [false] for good: whatever chunks arrive afterwards,
    with [read()] called after each, no transition happens and no byte is
    read; the bytes only pile up. *)
Theorem version_overrun_stalls (rfbDes : list byte -> list byte -> list byte)
    (chunks : list (list byte)) :
  forall s : VncClientProtocol,
    m_state s = Protocol ->
    12 < bytesAvailable (m_socket s) ->
    feed rfbDes chunks s = ([], deliver s (concat chunks))
    /\ m_state (snd (feed rfbDes chunks s)) = Protocol.
Proof.
  induction chunks as [|c rest IH]; intros s Hst Hav.
  - cbn [feed concat snd]. rewrite deliver_nil. split; [reflexivity | exact Hst].
  - destruct (deliver_available s c) as [Hav1 Hst1].
    destruct (IH (deliver s c)) as [Hfeed Hstate]; [congruence | lia |].
    rewrite Hfeed in Hstate. cbn [snd] in Hstate. rewrite deliver_deliver in *.
    assert (Hall : feed rfbDes (c :: rest) s = ([], deliver s (concat (c :: rest)))).
    { cbn [feed concat]. cbn [pump]. unfold read. rewrite Hst1, Hst.
      rewrite readProtocol_not_twelve by lia. rewrite Hfeed. reflexivity. }
    rewrite Hall. split; [reflexivity | exact Hstate].
Qed.

Lemma version_overrun_stalls_witness :
  let s := protocolAt Protocol (version_3_8 ++ [x01]) in
  m_state s = Protocol
  /\ 12 < bytesAvailable (m_socket s)
  /\ feed xorCipher [[x01]; [x02]] s = ([], deliver s (concat [[x01]; [x02]])).
Proof.
  intros s.
  assert (Hav : 12 < bytesAvailable (m_socket s)) by reflexivity.
  split; [reflexivity|]. split; [exact Hav|].
  exact (proj1 (version_overrun_stalls xorCipher [[x01]; [x02]] s eq_refl Hav)).
Defined.

(** ** The security result *)

(** X3.  In the SecurityResult state, with the four bytes of the result
    unread on an open socket: if all four are zero, the result OK,
    [read()] takes them, writes the client-init byte 1 and enters
    FramebufferInit; if any is not zero, it takes them, closes the socket
    and returns [false], the state staying SecurityResult. *)
Theorem security_result (rfbDes : list byte -> list byte -> list byte)
    (s : VncClientProtocol) (authResult rest : list byte) :
  m_state s = SecurityResult ->
  sk_open (m_socket s) = true ->
  sk_in (m_socket s) = authResult ++ rest ->
  len authResult = 4 ->
  (authResult = [x00; x00; x00; x00] ->
   read rfbDes s =
     (true, set_state (set_socket s (mkSocket rest (sk_out (m_socket s) ++ [x01]) true))
              FramebufferInit))
  /\ (authResult <> [x00; x00; x00; x00] ->
      read rfbDes s = (false, set_socket s (mkSocket [] (sk_out (m_socket s)) false))).
Proof.
  intros Hst Hopen Hin Hlen. unfold read. rewrite Hst.
  destruct_protocol s. subst.
  unfold receiveSecurityResult, bytesAvailable, sk_read; simpl.
  rewrite len_app, Hlen. pose proof (len_nonneg rest).
  destruct (4 + len rest >=? 4) eqn:E; [|rewrite Z.geb_leb in E; apply Z.leb_gt in E; lia].
  rewrite take_app_exact, drop_app_exact by assumption.
  assert (Hn : length authResult = 4%nat) by (unfold len in Hlen; lia).
  split.
  - intros Hz. subst authResult. reflexivity.
  - intros Hnz. change rfbVncAuthOK with 0.
    destruct (Z.eqb_spec (qFromBigEndian authResult) 0) as [Hq|Hq]; [|reflexivity].
    apply qFromBigEndian_zero in Hq. rewrite Hn in Hq. contradiction.
Qed.

Lemma security_result_witness :
  let s := protocolAt SecurityResult [x00; x00; x00; x01; x2a] in
  m_state s = SecurityResult
  /\ sk_open (m_socket s) = true
  /\ sk_in (m_socket s) = [x00; x00; x00; x01] ++ [x2a]
  /\ len [x00; x00; x00; x01] = 4
  /\ [x00; x00; x00; x01] <> [x00; x00; x00; x00]
  /\ read xorCipher s = (false, set_socket s (mkSocket [] [] false)).
Proof.
  intros s.
  assert (Hne : [x00; x00; x00; x01] <> [x00; x00; x00; x00]) by discriminate.
  split; [reflexivity|]. split; [reflexivity|]. split; [reflexivity|].
  split; [reflexivity|]. split; [exact Hne|].
  exact (proj2 (security_result xorCipher s [x00; x00; x00; x01] [x2a]
                  eq_refl eq_refl eq_refl eq_refl) Hne).
Defined.

(** ** Progress of the handshake *)

Lemma read_state_moves (rfbDes : list byte -> list byte -> list byte)
    (s : VncClientProtocol) :
  (fst (read rfbDes s) = true ->
   stateIndex (m_state s) < stateIndex (m_state (snd (read rfbDes s))))
  /\ (fst (read rfbDes s) = false ->
      m_state (snd (read rfbDes s)) = m_state s
      /\ m_framebufferWidth (snd (read rfbDes s)) = m_framebufferWidth s
      /\ m_framebufferHeight (snd (read rfbDes s)) = m_framebufferHeight s
      /\ sk_out (m_socket (snd (read rfbDes s))) = sk_out (m_socket s)).
Proof.
  destruct_protocol s. unfold read; simpl.
  destruct st;
    unfold readProtocol, receiveSecurityTypes, receiveSecurityChallenge,
      receiveSecurityResult, receiveServerInitMessage, sk_read, sk_peek, closeSocket;
    simpl; repeat break_match; simpl; split; intros; try discriminate;
    try reflexivity; try lia; repeat split.
Qed.

Lemma receiveMessage_state (MaximumMessageSize : Z) (s : VncClientProtocol) :
  m_state (snd (receiveMessage MaximumMessageSize s)) = m_state s.
Proof.
  assert (Hrm : forall s0 size, m_state (snd (readMessage s0 size)) = m_state s0).
  { intros s0 size. rewrite readMessage_cases. break_if; reflexivity. }
  unfold receiveMessage. repeat break_if; try reflexivity.
  - unfold receiveFramebufferUpdateMessage.
    destruct (readExact _ sz_rfbFramebufferUpdateMsg) as [[message buffer]|]; [|reflexivity].
    match goal with |- context [updateRects ?n s ?b ?r] =>
      destruct (updateRects_state n s b r) as [Hs|Hc];
      [ destruct (updateRects n s b r) as [[[buffer' region]|] s']; simpl in Hs; subst s'
      | rewrite Hc ]
    end; try reflexivity.
    rewrite Hrm. reflexivity.
  - unfold receiveColourMapEntriesMessage. break_if; [reflexivity | apply Hrm].
  - apply Hrm.
  - unfold receiveCutTextMessage. break_if; [reflexivity | apply Hrm].
  - unfold receiveResizeFramebufferMessage.
    pose proof (Hrm s sz_rfbResizeFrameBufferMsg) as H.
    destruct (readMessage s sz_rfbResizeFrameBufferMsg) as [ok s']. simpl in H.
    destruct ok; exact H.
  - apply Hrm.
Qed.

(** X4.  The states are passed in order.  A call of [read()] that returns
    [true] has moved the state forward and has read at least one byte; a
    call that returns [false] has kept the state, the geometry and the
    bytes written; [receiveMessage()] never changes the state. *)
Theorem handshake_moves_forward (rfbDes : list byte -> list byte -> list byte)
    (MaximumMessageSize : Z) (s : VncClientProtocol) :
  (fst (read rfbDes s) = true ->
   stateIndex (m_state s) < stateIndex (m_state (snd (read rfbDes s)))
   /\ bytesAvailable (m_socket (snd (read rfbDes s))) < bytesAvailable (m_socket s))
  /\ (fst (read rfbDes s) = false ->
      m_state (snd (read rfbDes s)) = m_state s
      /\ m_framebufferWidth (snd (read rfbDes s)) = m_framebufferWidth s
      /\ m_framebufferHeight (snd (read rfbDes s)) = m_framebufferHeight s
      /\ sk_out (m_socket (snd (read rfbDes s))) = sk_out (m_socket s))
  /\ m_state (snd (receiveMessage MaximumMessageSize s)) = m_state s.
Proof.
  split; [|split].
  - intros Ht. split.
    + now apply read_state_moves.
    + unfold bytesAvailable. now apply read_true_consumes.
  - apply read_state_moves.
  - apply receiveMessage_state.
Qed.

Lemma handshake_moves_forward_witness :
  let s := protocolAt SecurityInit [x01; x01] in
  fst (read xorCipher s) = true
  /\ stateIndex (m_state s) < stateIndex (m_state (snd (read xorCipher s)))
  /\ bytesAvailable (m_socket (snd (read xorCipher s))) < bytesAvailable (m_socket s).
Proof.
  intros s. split; [reflexivity|].
  exact (proj1 (handshake_moves_forward xorCipher 67108864 s) eq_refl).
Defined.

Lemma receiveServerInitMessage_again (s s1 : VncClientProtocol) :
  receiveServerInitMessage s = (false, s1) ->
  receiveServerInitMessage s1 = (false, s1).
Proof.
  unfold receiveServerInitMessage.
  destruct ((bytesAvailable (m_socket s) >=? sz_rfbServerInitMsg)
            && (len (sk_peek (m_socket s) sz_rfbServerInitMsg) =? sz_rfbServerInitMsg))
    eqn:Hhdr.
  - destruct (qFromBigEndian
                (serverInit_nameLength (sk_peek (m_socket s) sz_rfbServerInitMsg)) >? 255)
      eqn:Hlong.
    + intros H. inversion H; subst s1. reflexivity.
    + cbn [m_socket set_pixelFormat].
      destruct (len (sk_peek (m_socket s)
                       (qFromBigEndian
                          (serverInit_nameLength
                             (sk_peek (m_socket s) sz_rfbServerInitMsg))))
                =? qFromBigEndian
                     (serverInit_nameLength (sk_peek (m_socket s) sz_rfbServerInitMsg)))
        eqn:Hname; [discriminate|].
      intros H. inversion H; subst s1. cbn [m_socket set_pixelFormat].
      rewrite Hhdr, Hlong, Hname. reflexivity.
  - intros H. inversion H; subst s1. now rewrite Hhdr.
Qed.

(** X5.  A call of [read()] that returned [false] is not worth repeating
    before new bytes arrive: called again on the object it left, [read()]
    returns [false] again and leaves that object exactly as it is. *)
Theorem read_retry_fails (rfbDes : list byte -> list byte -> list byte)
    (s : VncClientProtocol) :
  fst (read rfbDes s) = false ->
  read rfbDes (snd (read rfbDes s)) = (false, snd (read rfbDes s)).
Proof.
  intros Hf.
  destruct (read_false_shape rfbDes s Hf) as [Hnil | [Hsame | [Hst [fmt Hfmt]]]].
  - now apply read_empty.
  - rewrite Hsame. destruct (read rfbDes s) as [ok s1]. simpl in *. now subst.
  - assert (Hst1 : m_state (snd (read rfbDes s)) = FramebufferInit)
      by (rewrite Hfmt; exact Hst).
    unfold read at 1. rewrite Hst1.
    apply (receiveServerInitMessage_again s).
    unfold read in *. rewrite Hst in *.
    destruct (receiveServerInitMessage s) as [ok s1]. simpl in Hf. now subst ok.
Qed.

Lemma read_retry_fails_witness :
  let s := protocolAt FramebufferInit serverInit_40_short in
  fst (read xorCipher s) = false
  /\ snd (read xorCipher s) <> s
  /\ read xorCipher (snd (read xorCipher s)) = (false, snd (read xorCipher s)).
Proof.
  intros s. split; [reflexivity|]. split; [discriminate|].
  exact (read_retry_fails xorCipher s eq_refl).
Defined.

(** ** Messages the engine refuses *)

(** X6.  [receiveMessage()] closes the socket and returns [false] when more
    bytes are unread than the maximum message size, whatever they are, and
    when the first unread byte is none of the six message types it knows
    (0, 1, 2, 3, 4 and 250). *)
Theorem receiveMessage_refuses (MaximumMessageSize : Z) (s : VncClientProtocol) :
  (MaximumMessageSize < bytesAvailable (m_socket s) ->
   receiveMessage MaximumMessageSize s = (false, closeSocket s))
  /\ (forall messageType rest,
        bytesAvailable (m_socket s) <= MaximumMessageSize ->
        sk_in (m_socket s) = messageType :: rest ->
        ~ In (byteZ messageType) knownMessageTypes ->
        receiveMessage MaximumMessageSize s = (false, closeSocket s)).
Proof.
  unfold receiveMessage. split.
  - intros H. destruct (bytesAvailable (m_socket s) >? MaximumMessageSize) eqn:E;
      [reflexivity | rewrite Z.gtb_ltb in E; apply Z.ltb_ge in E; lia].
  - intros messageType rest Hmax Hin Hunknown.
    destruct (bytesAvailable (m_socket s) >? MaximumMessageSize) eqn:E;
      [rewrite Z.gtb_ltb in E; apply Z.ltb_lt in E; lia|].
    unfold sk_peek. rewrite Hin, take_one.
    change (len [messageType] =? 1) with true. cbn [negb].
    change (uint8At 0 [messageType]) with (byteZ messageType).
    unfold knownMessageTypes in Hunknown. simpl in Hunknown.
    repeat match goal with
           | |- context [byteZ messageType =? ?c] =>
               let e := fresh "e" in
               destruct (Z.eqb_spec (byteZ messageType) c) as [e|e];
               [exfalso; symmetry in e; tauto|]
           end.
    reflexivity.
Qed.

Lemma receiveMessage_refuses_witness :
  let s := runningAt x08 200 200 [x07; x00] in
  bytesAvailable (m_socket s) <= 67108864
  /\ ~ In (byteZ x07) knownMessageTypes
  /\ receiveMessage 67108864 s = (false, closeSocket s).
Proof.
  intros s.
  assert (Hmax : bytesAvailable (m_socket s) <= 67108864) by (vm_compute; discriminate).
  assert (Hun : ~ In (byteZ x07) knownMessageTypes)
    by (vm_compute; intuition discriminate).
  split; [exact Hmax|]. split; [exact Hun|].
  exact (proj2 (receiveMessage_refuses 67108864 s) x07 [x00] Hmax eq_refl Hun).
Defined.

(** ** Payload sizes of the rectangle encodings *)

Lemma skipExact_advance (b : QBuffer) (n : Z) :
  0 <= n ->
  skipExact b n = if n <=? len (buf_rest b) then Some (buf_advance b n) else None.
Proof. intros Hn. now rewrite skipExact_spec. Qed.

Lemma drop_drop {A : Type} (l : list A) :
  forall n m, 0 <= n -> 0 <= m -> drop m (drop n l) = drop (n + m) l.
Proof.
  induction l as [|x t IH]; intros n m Hn Hm; [reflexivity|].
  destruct (Z.eq_dec n 0) as [->|Hn0]; [now rewrite (drop_nonpos 0) by lia|].
  change (drop n (x :: t)) with (if 0 <? n then drop (n - 1) t else x :: t).
  change (drop (n + m) (x :: t)) with (if 0 <? n + m then drop (n + m - 1) t else x :: t).
  destruct (Z.ltb_spec 0 n); [|lia]. destruct (Z.ltb_spec 0 (n + m)); [|lia].
  rewrite IH by lia. f_equal. lia.
Qed.

Lemma buf_advance_advance (b : QBuffer) (n m : Z) :
  0 <= n -> 0 <= m -> buf_advance (buf_advance b n) m = buf_advance b (n + m).
Proof.
  intros Hn Hm. unfold buf_advance; simpl. rewrite drop_drop by assumption.
  f_equal. lia.
Qed.

(** A length of [2^31] or more, cast to [int], is negative: no read can
    match it. *)
Lemma readUInt_huge (b : QBuffer) (n : Z) :
  2 ^ 31 <= uint32 n -> readUInt b n = None.
Proof.
  intros H. unfold readUInt, buf_read, toInt.
  destruct (Z.ltb_spec (uint32 n) (2 ^ 31)); [lia|].
  pose proof (len_nonneg (take (uint32 n) (buf_rest b))).
  assert (uint32 n < 2 ^ 32) by (unfold uint32; apply Z.mod_pos_bound; lia).
  destruct (Z.eqb_spec (len (take (uint32 n) (buf_rest b))) (uint32 n - 2 ^ 32));
    [lia | reflexivity].
Qed.

(** X7.  An RRE rectangle occupies its 4-byte header, one pixel and, for
    each of the subrectangles the header counts, a pixel and 8 bytes; a
    CoRRE rectangle the same with 4 bytes for a subrectangle.  The decoder
    advances by exactly that when the bytes are in the buffer and the size
    fits an [int], and fails when they are not. *)
Theorem rre_payload (buffer : QBuffer) (bytesPerPixel : Z) (hdr tail : list byte) :
  buf_rest buffer = hdr ++ tail ->
  len hdr = 4 ->
  0 <= bytesPerPixel <= 31 ->
  let nSubrects := qFromBigEndian hdr in
  (bytesPerPixel + nSubrects * (bytesPerPixel + 8) < 2 ^ 31 ->
   handleRectEncodingRRE buffer bytesPerPixel
   = if bytesPerPixel + nSubrects * (bytesPerPixel + 8) <=? len tail
     then Some (buf_advance buffer (4 + (bytesPerPixel + nSubrects * (bytesPerPixel + 8))))
     else None)
  /\ (bytesPerPixel + nSubrects * (bytesPerPixel + 4) < 2 ^ 31 ->
      handleRectEncodingCoRRE buffer bytesPerPixel
      = if bytesPerPixel + nSubrects * (bytesPerPixel + 4) <=? len tail
        then Some (buf_advance buffer (4 + (bytesPerPixel + nSubrects * (bytesPerPixel + 4))))
        else None).
Proof.
  intros Hrest Hlen Hbpp nSubrects.
  pose proof (qFromBigEndian_nonneg hdr) as Hn0. fold nSubrects in Hn0.
  pose proof (len_nonneg tail) as Ht0.
  assert (Hgen : forall k, 0 <= k <= 8 ->
            bytesPerPixel + nSubrects * (bytesPerPixel + k) < 2 ^ 31 ->
            ('(h, b) <- readExact buffer 4 ;;
             skipExact b (toInt (bytesPerPixel
                                 + uint32 (qFromBigEndian (field 0 4 h)
                                           * uint32 (bytesPerPixel + k)))))
            = if bytesPerPixel + nSubrects * (bytesPerPixel + k) <=? len tail
              then Some (buf_advance buffer (4 + (bytesPerPixel + nSubrects * (bytesPerPixel + k))))
              else None).
  { intros k Hk Hfit. change (2 ^ 31) with 2147483648 in Hfit.
    rewrite readExact_spec by lia. rewrite Hrest, len_app, Hlen.
    destruct (Z.leb_spec 4 (4 + len tail)); [|lia].
    rewrite take_app_exact, drop_app_exact by assumption. cbn [bind].
    unfold field. rewrite drop_nonpos, take_all by lia. fold nSubrects.
    assert (Hprod : 0 <= nSubrects * (bytesPerPixel + k)) by nia.
    rewrite (uint32_small (bytesPerPixel + k)) by (change (2 ^ 32) with 4294967296; lia).
    rewrite (uint32_small (nSubrects * (bytesPerPixel + k)))
      by (change (2 ^ 32) with 4294967296; lia).
    rewrite toInt_small by (change (2 ^ 31) with 2147483648; lia).
    rewrite skipExact_advance by lia. cbn [buf_rest].
    destruct (bytesPerPixel + nSubrects * (bytesPerPixel + k) <=? len tail); [|reflexivity].
    f_equal. unfold buf_advance; cbn [buf_rest buf_pos]. rewrite Hrest.
    rewrite <- (drop_drop (hdr ++ tail) 4) by lia.
    rewrite drop_app_exact by assumption. f_equal. lia. }
  split; intros Hfit.
  - unfold handleRectEncodingRRE. change sz_rfbRREHeader with 4.
    change sz_rfbRectangle with 8. apply Hgen; [lia | assumption].
  - unfold handleRectEncodingCoRRE. change sz_rfbRREHeader with 4.
    apply Hgen; [lia | assumption].
Qed.

Lemma rre_payload_witness :
  let buffer := mkBuffer [x00; x00; x00; x02; x01; x02; x03; x04; x05; x06; x07; x08; x09;
                          x0a; x0b; x0c; x0d; x0e; x0f; x10; x11; x12; x13; x14; x15; x16;
                          x17; x18; x19] 16 in
  buf_rest buffer = [x00; x00; x00; x02] ++ skipn 4 (buf_rest buffer)
  /\ len [x00; x00; x00; x02] = 4
  /\ 0 <= 2 <= 31
  /\ 2 + qFromBigEndian [x00; x00; x00; x02] * (2 + 8) < 2 ^ 31
  /\ handleRectEncodingRRE buffer 2 = Some (mkBuffer [x17; x18; x19] 42)
  /\ handleRectEncodingCoRRE buffer 2
     = Some (mkBuffer [x0f; x10; x11; x12; x13; x14; x15; x16; x17; x18; x19] 34).
Proof.
  intros buffer.
  assert (Hb : 0 <= 2 <= 31) by (split; discriminate).
  assert (H8 : 2 + qFromBigEndian [x00; x00; x00; x02] * (2 + 8) < 2 ^ 31) by reflexivity.
  assert (H4 : 2 + qFromBigEndian [x00; x00; x00; x02] * (2 + 4) < 2 ^ 31) by reflexivity.
  split; [reflexivity|]. split; [reflexivity|]. split; [exact Hb|]. split; [exact H8|].
  split.
  - rewrite (proj1 (rre_payload buffer 2 [x00; x00; x00; x02] (skipn 4 (buf_rest buffer))
                      eq_refl eq_refl Hb) H8). reflexivity.
  - rewrite (proj2 (rre_payload buffer 2 [x00; x00; x00; x02] (skipn 4 (buf_rest buffer))
                      eq_refl eq_refl Hb) H4). reflexivity.
Defined.

Lemma readExact_app (b : QBuffer) (hdr tail : list byte) (n : Z) :
  buf_rest b = hdr ++ tail -> len hdr = n ->
  readExact b n = Some (hdr, mkBuffer tail (buf_pos b + n)).
Proof.
  intros Hrest Hlen. pose proof (len_nonneg hdr). pose proof (len_nonneg tail).
  rewrite readExact_spec by lia. rewrite Hrest, len_app.
  destruct (Z.leb_spec n (len hdr + len tail)); [|lia].
  now rewrite take_app_exact, drop_app_exact by assumption.
Qed.

Lemma readExact_mk (hdr tail : list byte) (p n : Z) :
  len hdr = n ->
  readExact (mkBuffer (hdr ++ tail) p) n = Some (hdr, mkBuffer tail (p + n)).
Proof. intros Hlen. now apply (readExact_app (mkBuffer (hdr ++ tail) p) hdr tail n). Qed.

Lemma readUInt_advance (b : QBuffer) (n : Z) :
  0 <= n < 2 ^ 31 ->
  readUInt b n = if n <=? len (buf_rest b) then Some (buf_advance b n) else None.
Proof. intros Hn. rewrite readUInt_spec by assumption. apply skipExact_advance. lia. Qed.



Lemma encodingIn_In (encoding : Z) (cases : list Z) :
  encodingIn encoding cases = true <-> In encoding cases.
Proof.
  unfold encodingIn. rewrite existsb_exists. split.
  - intros [x [Hin Heq]]. apply Z.eqb_eq in Heq. now subst.
  - intros Hin. exists encoding. split; [assumption | apply Z.eqb_refl].
Qed.

(** A read of [n] bytes for an unsigned [n]: the count is taken modulo
    [2^32], and the read can only match it below [2^31]. *)
Lemma readUInt_exact (b : QBuffer) (n : Z) :
  readUInt b n
  = if (uint32 n <? 2 ^ 31) && (uint32 n <=? len (buf_rest b))
    then Some (buf_advance b (uint32 n)) else None.
Proof.
  assert (Hu : 0 <= uint32 n < 2 ^ 32) by (unfold uint32; apply Z.mod_pos_bound; lia).
  destruct (Z.ltb_spec (uint32 n) (2 ^ 31)) as [Hlt|Hge]; cbn [andb];
    [|now apply readUInt_huge].
  unfold readUInt, buf_read, toInt.
  destruct (Z.ltb_spec (uint32 n) (2 ^ 31)); [|lia].
  rewrite len_take by lia. pose proof (len_nonneg (buf_rest b)).
  destruct (Z.leb_spec (uint32 n) (len (buf_rest b))).
  - rewrite Z.min_l by lia. now rewrite Z.eqb_refl.
  - rewrite Z.min_r by lia.
    destruct (Z.eqb_spec (len (buf_rest b)) (uint32 n)); [lia | reflexivity].
Qed.

(** X9.  The cursor-shape rectangles, for every 16-bit width and height.
    An XCursor rectangle of zero area carries nothing, any other carries 6
    bytes of colours and two bitmaps of [(w+7)/8] bytes a row.  A RichCursor
    rectangle of zero area carries nothing; any other carries its pixels and
    one such bitmap, where the number of pixel bytes is
    [w*h*bytesPerPixel] as [uint] arithmetic gives it, that is modulo
    [2^32], and is never matched when that is [2^31] or more.  [handleRect]
    advances by exactly that much or fails when the bytes are not in the
    buffer; the object is left as it was. *)
Theorem cursor_payload (s : VncClientProtocol) (buffer : QBuffer)
    (rectHeader : rfbFramebufferUpdateRectHeader) :
  let w := rh_w rectHeader in
  let h := rh_h rectHeader in
  let bytesPerPixel := bitsPerPixel (m_pixelFormat s) / 8 in
  let bytesPerRow := (w + 7) / 8 in
  let pixelBytes := uint32 (w * h * bytesPerPixel) in
  0 <= w < 2 ^ 16 -> 0 <= h < 2 ^ 16 ->
  (rh_encoding rectHeader = rfbEncodingXCursor ->
   handleRect s buffer rectHeader
   = (if w * h =? 0 then Some buffer
      else if 6 + 2 * bytesPerRow * h <=? len (buf_rest buffer)
           then Some (buf_advance buffer (6 + 2 * bytesPerRow * h)) else None, s))
  /\ (rh_encoding rectHeader = rfbEncodingRichCursor ->
      handleRect s buffer rectHeader
      = (if w * h =? 0 then Some buffer
         else if (pixelBytes <? 2 ^ 31)
                 && (pixelBytes + bytesPerRow * h <=? len (buf_rest buffer))
              then Some (buf_advance buffer (pixelBytes + bytesPerRow * h))
              else None, s))
  /\ (w * h * bytesPerPixel < 2 ^ 32 -> pixelBytes = w * h * bytesPerPixel).
Proof.
  intros w h bytesPerPixel bytesPerRow pixelBytes Hw Hh.
  change (2 ^ 16) with 65536 in Hw, Hh.
  assert (Hrow : 0 <= bytesPerRow <= 8192).
  { unfold bytesPerRow. split; [apply Z.div_pos; lia|].
    pose proof (Z.mul_div_le (w + 7) 8 ltac:(lia)). lia. }
  assert (Hwh : 0 <= w * h < 2 ^ 32) by (change (2 ^ 32) with 4294967296; nia).
  assert (Hbpp : 0 <= bytesPerPixel).
  { unfold bytesPerPixel, bitsPerPixel. apply Z.div_pos; [|lia].
    unfold uint8At. destruct (drop 0 (m_pixelFormat s)); [lia | apply byteZ_range]. }
  pose proof (len_nonneg (buf_rest buffer)) as Hlen.
  split; [|split].
  - intros Henc. unfold handleRect. rewrite Henc.
    change (encodingIn rfbEncodingXCursor [rfbEncodingLastRect]) with false.
    change (encodingIn rfbEncodingXCursor [rfbEncodingXCursor]) with true.
    cbv iota. fold w h bytesPerRow. rewrite uint32_small by assumption.
    destruct (w * h =? 0); [reflexivity|]. f_equal.
    change sz_rfbXCursorColors with 6. rewrite skipExact_advance by lia.
    assert (Hsz : 0 <= 2 * bytesPerRow * h < 2 ^ 31)
      by (change (2 ^ 31) with 2147483648; nia).
    destruct (Z.leb_spec 6 (len (buf_rest buffer))) as [H6|H6].
    + cbn [bind]. rewrite readUInt_advance by assumption.
      unfold buf_advance at 1; cbn [buf_rest]. rewrite len_drop by lia.
      rewrite buf_advance_advance by lia.
      destruct (Z.leb_spec (2 * bytesPerRow * h) (len (buf_rest buffer)
                             - Z.min 6 (len (buf_rest buffer))));
        destruct (Z.leb_spec (6 + 2 * bytesPerRow * h) (len (buf_rest buffer)));
        try lia; reflexivity.
    + cbn [bind]. destruct (Z.leb_spec (6 + 2 * bytesPerRow * h) (len (buf_rest buffer)));
        [lia | reflexivity].
  - intros Henc. unfold handleRect. rewrite Henc.
    change (encodingIn rfbEncodingRichCursor [rfbEncodingLastRect]) with false.
    change (encodingIn rfbEncodingRichCursor [rfbEncodingXCursor]) with false.
    change (encodingIn rfbEncodingRichCursor [rfbEncodingRichCursor]) with true.
    cbv iota. fold w h bytesPerRow bytesPerPixel. rewrite uint32_small by assumption.
    destruct (w * h =? 0); [reflexivity|]. f_equal.
    assert (Hp : 0 <= pixelBytes < 2 ^ 32)
      by (unfold pixelBytes, uint32; apply Z.mod_pos_bound; lia).
    assert (Hmask : 0 <= bytesPerRow * h < 2 ^ 31)
      by (change (2 ^ 31) with 2147483648; nia).
    rewrite readUInt_exact. fold pixelBytes.
    destruct (Z.ltb_spec pixelBytes (2 ^ 31)) as [Hsmall|Hbig]; cbn [andb];
      [|reflexivity].
    destruct (Z.leb_spec pixelBytes (len (buf_rest buffer))) as [Hfit|Hshort].
    + cbn [bind]. rewrite readUInt_advance by assumption.
      unfold buf_advance at 1; cbn [buf_rest]. rewrite len_drop by lia.
      rewrite buf_advance_advance by lia.
      destruct (Z.leb_spec (bytesPerRow * h) (len (buf_rest buffer)
                             - Z.min pixelBytes (len (buf_rest buffer))));
        destruct (Z.leb_spec (pixelBytes + bytesPerRow * h) (len (buf_rest buffer)));
        try lia; reflexivity.
    + cbn [bind].
      destruct (Z.leb_spec (pixelBytes + bytesPerRow * h) (len (buf_rest buffer)));
        [lia | reflexivity].
  - intros Hfit. apply uint32_small. split; [nia | assumption].
Qed.

Lemma cursor_payload_witness :
  let s := runningAt x20 64 64 [] in
  let buffer := mkBuffer (repeat xaa 18 ++ [xee]) 16 in
  (0 <= 9 < 2 ^ 16 /\ 0 <= 2 < 2 ^ 16
   /\ handleRect s buffer (mkRectHeader 3 4 9 2 rfbEncodingXCursor)
      = (Some (mkBuffer (repeat xaa 4 ++ [xee]) 30), s))
  /\ (0 <= 2 < 2 ^ 16
      /\ handleRect s buffer (mkRectHeader 0 0 2 2 rfbEncodingRichCursor)
         = (Some (mkBuffer [xee] 34), s))
  /\ (0 <= 65535 < 2 ^ 16 /\ 0 <= 2115 < 2 ^ 16
      /\ uint32 (65535 * 2115 * (bitsPerPixel [xf8] / 8)) = 1834979
      /\ handleRect (runningAt xf8 64 64 []) buffer
           (mkRectHeader 0 0 65535 2115 rfbEncodingRichCursor)
         = (None, runningAt xf8 64 64 [])).
Proof.
  intros s buffer.
  assert (H9 : 0 <= 9 < 2 ^ 16) by (split; [discriminate | reflexivity]).
  assert (H2 : 0 <= 2 < 2 ^ 16) by (split; [discriminate | reflexivity]).
  assert (Hw : 0 <= 65535 < 2 ^ 16) by (split; [discriminate | reflexivity]).
  assert (Hh : 0 <= 2115 < 2 ^ 16) by (split; [discriminate | reflexivity]).
  split; [|split].
  - split; [exact H9|]. split; [exact H2|].
    rewrite (proj1 (cursor_payload s buffer (mkRectHeader 3 4 9 2 rfbEncodingXCursor) H9 H2)
               eq_refl).
    reflexivity.
  - split; [exact H2|].
    rewrite (proj1 (proj2 (cursor_payload s buffer
                             (mkRectHeader 0 0 2 2 rfbEncodingRichCursor) H2 H2)) eq_refl).
    reflexivity.
  - split; [exact Hw|]. split; [exact Hh|]. split; [reflexivity|].
    rewrite (proj1 (proj2 (cursor_payload (runningAt xf8 64 64 []) buffer
                             (mkRectHeader 0 0 65535 2115 rfbEncodingRichCursor) Hw Hh))
               eq_refl).
    reflexivity.
Defined.

(** X10.  The rectangles of fixed or declared size.  A LastRect, PointerPos,
    KeyboardLedState or NewFBSize rectangle carries no bytes; a CopyRect
    rectangle 4; a SupportedMessages rectangle 64; a SupportedEncodings or
    ServerIdentity rectangle as many as its 16-bit width field says.
    [handleRect] advances by exactly that much, whatever the height and the
    pixel format are, or fails when the bytes are not in the buffer. *)
Theorem declared_size_payload (s : VncClientProtocol) (buffer : QBuffer)
    (rectHeader : rfbFramebufferUpdateRectHeader) :
  let encoding := rh_encoding rectHeader in
  let skip (n : Z) :=
    (if n <=? len (buf_rest buffer) then Some (buf_advance buffer n) else None, s) in
  (In encoding [rfbEncodingLastRect; rfbEncodingPointerPos; rfbEncodingKeyboardLedState;
                rfbEncodingNewFBSize] ->
   handleRect s buffer rectHeader = (Some buffer, s))
  /\ (encoding = rfbEncodingCopyRect -> handleRect s buffer rectHeader = skip 4)
  /\ (encoding = rfbEncodingSupportedMessages -> handleRect s buffer rectHeader = skip 64)
  /\ (In encoding [rfbEncodingSupportedEncodings; rfbEncodingServerIdentity] ->
      0 <= rh_w rectHeader < 2 ^ 16 ->
      handleRect s buffer rectHeader = skip (rh_w rectHeader)).
Proof.
  intros encoding skip. subst skip. unfold encoding. cbv beta.
  repeat split.
  - intros Hin. unfold handleRect.
    repeat (destruct Hin as [<-|Hin]; [reflexivity|]). destruct Hin.
  - intros Henc. unfold handleRect. rewrite Henc. cbn -[skipExact].
    change sz_rfbCopyRect with 4. now rewrite skipExact_advance by lia.
  - intros Henc. unfold handleRect. rewrite Henc. cbn -[skipExact].
    change sz_rfbSupportedMessages with 64. now rewrite skipExact_advance by lia.
  - intros Hin Hw. change (2 ^ 16) with 65536 in Hw. unfold handleRect.
    repeat (destruct Hin as [<-|Hin];
            [cbn -[readUInt];
             now rewrite readUInt_advance by (change (2 ^ 31) with 2147483648; lia)|]).
    destruct Hin.
Qed.

Lemma declared_size_payload_witness :
  let s := runningAt x20 64 64 [] in
  let buffer := mkBuffer [x01; x02; x03; x04; x05] 16 in
  In rfbEncodingNewFBSize [rfbEncodingLastRect; rfbEncodingPointerPos;
                           rfbEncodingKeyboardLedState; rfbEncodingNewFBSize]
  /\ handleRect s buffer (mkRectHeader 0 0 800 600 rfbEncodingNewFBSize) = (Some buffer, s)
  /\ handleRect s buffer (mkRectHeader 0 0 9 9 rfbEncodingCopyRect)
     = (Some (mkBuffer [x05] 20), s)
  /\ handleRect s buffer (mkRectHeader 0 0 9 9 rfbEncodingSupportedMessages) = (None, s)
  /\ In rfbEncodingServerIdentity [rfbEncodingSupportedEncodings; rfbEncodingServerIdentity]
  /\ 0 <= 3 < 2 ^ 16
  /\ handleRect s buffer (mkRectHeader 0 0 3 700 rfbEncodingServerIdentity)
     = (Some (mkBuffer [x04; x05] 19), s).
Proof.
  intros s buffer.
  assert (Hin1 : In rfbEncodingNewFBSize
                   [rfbEncodingLastRect; rfbEncodingPointerPos;
                    rfbEncodingKeyboardLedState; rfbEncodingNewFBSize])
    by (right; right; right; left; reflexivity).
  assert (Hin2 : In rfbEncodingServerIdentity
                   [rfbEncodingSupportedEncodings; rfbEncodingServerIdentity])
    by (right; left; reflexivity).
  assert (H3 : 0 <= 3 < 2 ^ 16) by (split; [discriminate | reflexivity]).
  split; [exact Hin1|]. split.
  { exact (proj1 (declared_size_payload s buffer
                    (mkRectHeader 0 0 800 600 rfbEncodingNewFBSize)) Hin1). }
  split.
  { rewrite (proj1 (proj2 (declared_size_payload s buffer
                             (mkRectHeader 0 0 9 9 rfbEncodingCopyRect))) eq_refl).
    reflexivity. }
  split.
  { rewrite (proj1 (proj2 (proj2 (declared_size_payload s buffer
                      (mkRectHeader 0 0 9 9 rfbEncodingSupportedMessages)))) eq_refl).
    reflexivity. }
  split; [exact Hin2|]. split; [exact H3|].
  rewrite (proj2 (proj2 (proj2 (declared_size_payload s buffer
                     (mkRectHeader 0 0 3 700 rfbEncodingServerIdentity)))) Hin2 H3).
  reflexivity.
Defined.

Lemma take_app_le {A : Type} (a : list A) :
  forall n b, n <= len a -> take n (a ++ b) = take n a.
Proof.
  induction a as [|x t IH]; intros n b Hn.
  - change (len (@nil A)) with 0 in Hn. now rewrite !take_nonpos by lia.
  - rewrite len_cons in Hn. rewrite <- app_comm_cons.
    change (take n (x :: t ++ b)) with (if 0 <? n then x :: take (n - 1) (t ++ b) else []).
    change (take n (x :: t)) with (if 0 <? n then x :: take (n - 1) t else []).
    destruct (0 <? n); [|reflexivity]. now rewrite IH by lia.
Qed.

Lemma drop_app_le {A : Type} (a : list A) :
  forall n b, n <= len a -> drop n (a ++ b) = drop n a ++ b.
Proof.
  induction a as [|x t IH]; intros n b Hn.
  - change (len (@nil A)) with 0 in Hn. now rewrite !drop_nonpos by lia.
  - rewrite len_cons in Hn. rewrite <- app_comm_cons.
    change (drop n (x :: t ++ b)) with (if 0 <? n then drop (n - 1) (t ++ b) else x :: t ++ b).
    change (drop n (x :: t)) with (if 0 <? n then drop (n - 1) t else x :: t).
    destruct (0 <? n); [|reflexivity]. now rewrite IH by lia.
Qed.

(** A read that a flag switches on or off, over exactly the bytes [cs]. *)
Lemma optional_read (c : bool) (b : QBuffer) (n : Z) (cs t : list byte) :
  buf_rest b = cs ++ t -> len cs = (if c then n else 0) -> 0 <= n < 2 ^ 31 ->
  (if c then readUInt b n else Some b) = Some (mkBuffer t (buf_pos b + len cs)).
Proof.
  intros Hrest Hlen Hn. destruct c.
  - rewrite readUInt_spec by assumption. unfold skipExact.
    rewrite (readExact_app b cs t n Hrest Hlen). simpl. now rewrite Hlen.
  - apply len_nil_inv in Hlen as Hnil. subst cs. destruct b as [r p]. simpl in *.
    subst r. change (len (@nil byte)) with 0. f_equal. f_equal. lia.
Qed.

(** X11.  A Hextile tile whose flag byte has the raw bit clear occupies the
    flag, one pixel for each of the background and foreground bits that are
    set and, when the subrectangle bit is set, a count byte and for each
    subrectangle counted 2 bytes, with a pixel more when the coloured bit is
    set.  The decoder advances by exactly that; the size of the tile plays
    no part.  It fails when the count byte or the subrectangles are not in
    the buffer. *)
Theorem hextile_subrect_tile (w h bytesPerPixel : Z) (buffer : QBuffer)
    (flag : byte) (colours rest : list byte) :
  let f := byteZ flag in
  let nColours := (if flagSet f rfbHextileBackgroundSpecified then 1 else 0)
                  + (if flagSet f rfbHextileForegroundSpecified then 1 else 0) in
  0 <= bytesPerPixel <= 31 ->
  flagSet f rfbHextileRaw = false ->
  buf_rest buffer = flag :: colours ++ rest ->
  len colours = nColours * bytesPerPixel ->
  hextileTile w h bytesPerPixel buffer
  = if negb (flagSet f rfbHextileAnySubrects)
    then Some (buf_advance buffer (1 + len colours))
    else match rest with
         | [] => None
         | n :: subrects =>
             let size := byteZ n * (if flagSet f rfbHextileSubrectsColoured
                                    then 2 + bytesPerPixel else 2) in
             if size <=? len subrects
             then Some (buf_advance buffer (1 + len colours + 1 + size))
             else None
         end.
Proof.
  intros f nColours Hbpp Hraw Hrest Hlen.
  assert (Hbpp31 : 0 <= bytesPerPixel < 2 ^ 31) by (change (2 ^ 31) with 2147483648; lia).
  unfold hextileTile.
  rewrite (readExact_app buffer [flag] (colours ++ rest) 1 Hrest eq_refl). cbn [bind].
  change (uint8At 0 [flag]) with f. rewrite Hraw.
  set (bg := flagSet f rfbHextileBackgroundSpecified) in *.
  set (fg := flagSet f rfbHextileForegroundSpecified) in *.
  set (k1 := if bg then bytesPerPixel else 0).
  pose proof (len_nonneg colours) as Hc0.
  assert (Hk1 : 0 <= k1 <= len colours)
    by (unfold k1; rewrite Hlen; unfold nColours; destruct bg, fg; lia).
  assert (Hsplit : colours ++ rest = take k1 colours ++ (drop k1 colours ++ rest))
    by (now rewrite app_assoc, take_drop).
  assert (Hl1 : len (take k1 colours) = if bg then bytesPerPixel else 0)
    by (rewrite len_take by lia; fold k1; lia).
  assert (Hl2 : len (drop k1 colours) = if fg then bytesPerPixel else 0)
    by (rewrite len_drop by lia; rewrite Hlen; unfold k1, nColours; destruct bg, fg; lia).
  rewrite (optional_read bg (mkBuffer (colours ++ rest) (buf_pos buffer + 1)) bytesPerPixel
             (take k1 colours) (drop k1 colours ++ rest) Hsplit Hl1 Hbpp31).
  cbn [bind buf_pos].
  rewrite (optional_read fg
             (mkBuffer (drop k1 colours ++ rest) (buf_pos buffer + 1 + len (take k1 colours)))
             bytesPerPixel (drop k1 colours) rest eq_refl Hl2 Hbpp31).
  cbn [bind buf_pos].
  assert (Hpos : buf_pos buffer + 1 + len (take k1 colours) + len (drop k1 colours)
                 = buf_pos buffer + (1 + len colours)).
  { rewrite <- Z.add_assoc, <- Z.add_assoc, <- len_app, take_drop. lia. }
  rewrite Hpos.
  assert (Hflag : len (flag :: colours) = 1 + len colours) by apply len_cons.
  destruct (flagSet f rfbHextileAnySubrects); cbn [negb].
  - destruct rest as [|n subrects]; [reflexivity|].
    rewrite (readExact_app (mkBuffer (n :: subrects) (buf_pos buffer + (1 + len colours)))
               [n] subrects 1 eq_refl eq_refl).
    cbn [bind buf_pos].
    change (uint8At 0 [n]) with (byteZ n). pose proof (byteZ_range n) as Hn.
    assert (Hsize : (if flagSet f rfbHextileSubrectsColoured
                     then toInt (byteZ n * (2 + bytesPerPixel)) else byteZ n * 2)
                    = byteZ n * (if flagSet f rfbHextileSubrectsColoured
                                 then 2 + bytesPerPixel else 2)).
    { destruct (flagSet f rfbHextileSubrectsColoured); [|reflexivity].
      apply toInt_small. change (2 ^ 31) with 2147483648. nia. }
    rewrite Hsize. cbv zeta.
    set (size := byteZ n * (if flagSet f rfbHextileSubrectsColoured
                            then 2 + bytesPerPixel else 2)).
    assert (Hs0 : 0 <= size).
    { unfold size. apply Z.mul_nonneg_nonneg; [lia|].
      destruct (flagSet f rfbHextileSubrectsColoured); lia. }
    rewrite skipExact_advance by assumption. cbn [buf_rest].
    destruct (size <=? len subrects); [|reflexivity].
    f_equal. unfold buf_advance; cbn [buf_rest buf_pos]. rewrite Hrest. f_equal; [|lia].
    rewrite <- (drop_drop (flag :: colours ++ n :: subrects) (1 + len colours + 1)) by lia.
    f_equal. symmetry.
    replace (flag :: colours ++ n :: subrects) with ((flag :: colours ++ [n]) ++ subrects)
      by (simpl; now rewrite <- app_assoc).
    apply drop_app_exact. rewrite len_cons, len_app. change (len [n]) with 1. lia.
  - f_equal. unfold buf_advance. rewrite Hrest. f_equal.
    symmetry. change (flag :: colours ++ rest) with ((flag :: colours) ++ rest).
    now apply drop_app_exact.
Qed.

Lemma hextile_subrect_tile_witness :
  let buffer := mkBuffer [x1a; xb1; xb2; x02; x01; x02; xc1; xc2; x03; x04; xc3; xc4; xee] 16 in
  0 <= 2 <= 31
  /\ flagSet (byteZ x1a) rfbHextileRaw = false
  /\ buf_rest buffer = x1a :: [xb1; xb2] ++ [x02; x01; x02; xc1; xc2; x03; x04; xc3; xc4; xee]
  /\ len [xb1; xb2]
     = ((if flagSet (byteZ x1a) rfbHextileBackgroundSpecified then 1 else 0)
        + (if flagSet (byteZ x1a) rfbHextileForegroundSpecified then 1 else 0)) * 2
  /\ hextileTile 16 16 2 buffer = Some (mkBuffer [xee] 28)
  /\ hextileTile 3 1 2 buffer = Some (mkBuffer [xee] 28).
Proof.
  intros buffer.
  assert (Hb : 0 <= 2 <= 31) by (split; discriminate).
  split; [exact Hb|]. split; [reflexivity|]. split; [reflexivity|]. split; [reflexivity|].
  split.
  - rewrite (hextile_subrect_tile 16 16 2 buffer x1a [xb1; xb2]
               [x02; x01; x02; xc1; xc2; x03; x04; xc3; xc4; xee] Hb eq_refl eq_refl eq_refl).
    reflexivity.
  - rewrite (hextile_subrect_tile 3 1 2 buffer x1a [xb1; xb2]
               [x02; x01; x02; xc1; xc2; x03; x04; xc3; xc4; xee] Hb eq_refl eq_refl eq_refl).
    reflexivity.
Defined.

Lemma forEach_one_byte {A : Type} (body : A -> QBuffer -> option QBuffer) :
  (forall a t p, body a (mkBuffer (x00 :: t) p) = Some (mkBuffer t (p + 1))) ->
  forall (l : list A) (t : list byte) (p : Z),
    forEach l body (mkBuffer (repeat x00 (length l) ++ t) p)
    = Some (mkBuffer t (p + Z.of_nat (length l))).
Proof.
  intros Hbody l. induction l as [|a l IH]; intros t p.
  - simpl. now rewrite Z.add_0_r.
  - cbn [length repeat forEach app]. rewrite Hbody. cbn [bind]. rewrite IH.
    f_equal. f_equal. lia.
Qed.

Lemma forEach_rows {A B : Type} (body : A -> B -> QBuffer -> option QBuffer) (xs : list B) :
  (forall a b t p, body a b (mkBuffer (x00 :: t) p) = Some (mkBuffer t (p + 1))) ->
  forall (ys : list A) (t : list byte) (p : Z),
    forEach ys (fun y => forEach xs (body y))
      (mkBuffer (repeat x00 (length ys * length xs) ++ t) p)
    = Some (mkBuffer t (p + Z.of_nat (length ys * length xs))).
Proof.
  intros Hbody ys. induction ys as [|y ys IH]; intros t p.
  - simpl. now rewrite Z.add_0_r.
  - cbn [length forEach Nat.mul]. rewrite repeat_app, <- app_assoc.
    rewrite (forEach_one_byte (body y) (Hbody y)). cbn [bind]. rewrite IH.
    f_equal. f_equal. lia.
Qed.

Lemma hextileTile_blank (w h bytesPerPixel : Z) (t : list byte) (p : Z) :
  hextileTile w h bytesPerPixel (mkBuffer (x00 :: t) p) = Some (mkBuffer t (p + 1)).
Proof.
  unfold hextileTile.
  now rewrite (readExact_app (mkBuffer (x00 :: t) p) [x00] t 1 eq_refl eq_refl).
Qed.

(** X12.  The tile loop of the Hextile decoder visits one tile for every 16
    columns and every 16 rows begun: a rectangle of [w] by [h] all of whose
    tiles carry the flag byte 0 occupies [((w+15)/16) * ((h+15)/16)] bytes,
    and a rectangle of no width or no height none. *)
Theorem hextile_tile_count (buffer : QBuffer) (rectHeader : rfbFramebufferUpdateRectHeader)
    (bytesPerPixel : Z) (tail : list byte) :
  let tiles := ((rh_w rectHeader + 15) / 16) * ((rh_h rectHeader + 15) / 16) in
  0 <= rh_w rectHeader -> 0 <= rh_h rectHeader ->
  buf_rest buffer = repeat x00 (Z.to_nat tiles) ++ tail ->
  handleRectEncodingHextile buffer rectHeader bytesPerPixel
  = Some (mkBuffer tail (buf_pos buffer + tiles)).
Proof.
  intros tiles Hw Hh Hrest. unfold handleRectEncodingHextile.
  set (xs := tileStarts (rh_x rectHeader) (rh_w rectHeader)).
  set (ys := tileStarts (rh_y rectHeader) (rh_h rectHeader)).
  assert (Hxs : Z.of_nat (length xs) = (rh_w rectHeader + 15) / 16).
  { unfold xs, tileStarts. rewrite length_map, length_seq.
    apply Z2Nat.id. apply Z.div_pos; lia. }
  assert (Hys : Z.of_nat (length ys) = (rh_h rectHeader + 15) / 16).
  { unfold ys, tileStarts. rewrite length_map, length_seq.
    apply Z2Nat.id. apply Z.div_pos; lia. }
  assert (Htiles : Z.to_nat tiles = (length ys * length xs)%nat).
  { unfold tiles. rewrite <- Hxs, <- Hys, <- Nat2Z.inj_mul, Nat2Z.id. apply Nat.mul_comm. }
  destruct buffer as [r p]. simpl in Hrest. subst r. cbn [buf_pos]. rewrite Htiles.
  rewrite (forEach_rows
             (fun y x => hextileTile (tileExtent (rh_x rectHeader + rh_w rectHeader) x)
                           (tileExtent (rh_y rectHeader + rh_h rectHeader) y) bytesPerPixel)
             xs (fun y x => hextileTile_blank _ _ bytesPerPixel)).
  f_equal. f_equal. f_equal. rewrite <- Htiles. apply Z2Nat.id.
  unfold tiles. apply Z.mul_nonneg_nonneg; apply Z.div_pos; lia.
Qed.

Lemma hextile_tile_count_witness :
  let buffer := mkBuffer [x00; x00; x00; x00; x00; x00; xee] 16 in
  0 <= 33 /\ 0 <= 17
  /\ buf_rest buffer = repeat x00 (Z.to_nat (((33 + 15) / 16) * ((17 + 15) / 16))) ++ [xee]
  /\ handleRectEncodingHextile buffer (mkRectHeader 10 20 33 17 rfbEncodingHextile) 4
     = Some (mkBuffer [xee] 22).
Proof.
  intros buffer.
  assert (H33 : 0 <= 33) by discriminate. assert (H17 : 0 <= 17) by discriminate.
  split; [exact H33|]. split; [exact H17|]. split; [reflexivity|].
  exact (hextile_tile_count buffer (mkRectHeader 10 20 33 17 rfbEncodingHextile) 4 [xee]
           H33 H17 eq_refl).
Defined.

(** ** Bytes behind a message *)

Lemma readExact_extend (b : QBuffer) (n : Z) (c : list byte) (b' : QBuffer)
    (more : list byte) :
  readExact b n = Some (c, b') ->
  readExact (buf_extend b more) n = Some (c, buf_extend b' more).
Proof.
  unfold readExact, buf_read, buf_extend. cbn [buf_rest buf_pos].
  destruct (Z.eqb_spec (len (take n (buf_rest b))) n) as [E|E]; [|discriminate].
  intros H. inversion H; subst c b'; clear H. cbn [buf_rest buf_pos].
  assert (Hn : n <= len (buf_rest b)).
  { destruct (Z.le_gt_cases 0 n) as [H0|H0]; [rewrite len_take in E by lia; lia|].
    rewrite take_nonpos in E by lia. change (len (@nil byte)) with 0 in E. lia. }
  rewrite take_app_le, drop_app_le by assumption.
  destruct (Z.eqb_spec (len (take n (buf_rest b))) n); [reflexivity | contradiction].
Qed.

Lemma extendable_readUInt (n : Z) : extendable (fun b => readUInt b n).
Proof.
  intros b b' more. unfold readUInt, buf_read, buf_extend. cbn [buf_rest buf_pos].
  destruct (Z.eqb_spec (len (take (uint32 n) (buf_rest b))) (toInt n)) as [E|E];
    [|discriminate].
  intros H. inversion H; subst b'; clear H. cbn [buf_rest buf_pos].
  assert (Hu : 0 <= uint32 n < 2 ^ 32) by (unfold uint32; apply Z.mod_pos_bound; lia).
  assert (Hn : uint32 n <= len (buf_rest b)).
  { rewrite len_take in E by lia. unfold toInt in E.
    destruct (uint32 n <? 2 ^ 31); pose proof (len_nonneg (buf_rest b)); lia. }
  rewrite take_app_le, drop_app_le by assumption.
  destruct (Z.eqb_spec (len (take (uint32 n) (buf_rest b))) (toInt n));
    [reflexivity | contradiction].
Qed.

Lemma extendable_skipExact (n : Z) : extendable (fun b => skipExact b n).
Proof.
  intros b b' more. unfold skipExact.
  destruct (readExact b n) as [[c b1]|] eqn:E; [|discriminate].
  intros H. inversion H; subst b'. now rewrite (readExact_extend _ _ _ _ more E).
Qed.

Lemma extendable_Some : extendable Some.
Proof. intros b b' more H. now inversion H. Qed.

Lemma extendable_bind (first next : QBuffer -> option QBuffer) :
  extendable first -> extendable next ->
  extendable (fun b => b1 <- first b ;; next b1).
Proof.
  intros Hf Hn b b' more. destruct (first b) as [b1|] eqn:E; [|discriminate].
  cbn [bind]. intros H. rewrite (Hf b b1 more E). cbn [bind]. now apply Hn.
Qed.

Lemma extendable_readExact (n : Z) (next : list byte -> QBuffer -> option QBuffer) :
  (forall c, extendable (next c)) ->
  extendable (fun b => '(c, b1) <- readExact b n ;; next c b1).
Proof.
  intros Hn b b' more. destruct (readExact b n) as [[c b1]|] eqn:E; [|discriminate].
  cbn [bind]. intros H. rewrite (readExact_extend _ _ _ _ more E). cbn [bind].
  now apply Hn.
Qed.

Lemma extendable_forEach {A : Type} (body : A -> QBuffer -> option QBuffer) (l : list A) :
  (forall a, extendable (body a)) -> extendable (forEach l body).
Proof.
  intros Hbody. induction l as [|a l IH]; [apply extendable_Some|].
  cbn [forEach]. apply extendable_bind; [apply Hbody | exact IH].
Qed.

Lemma extendable_RRE (bytesPerPixel : Z) :
  extendable (fun b => handleRectEncodingRRE b bytesPerPixel).
Proof.
  unfold handleRectEncodingRRE.
  apply (extendable_readExact sz_rfbRREHeader
           (fun hdr b => skipExact b (toInt (bytesPerPixel
              + uint32 (qFromBigEndian (field 0 4 hdr)
                        * uint32 (bytesPerPixel + sz_rfbRectangle)))))).
  intros c. apply extendable_skipExact.
Qed.

Lemma extendable_CoRRE (bytesPerPixel : Z) :
  extendable (fun b => handleRectEncodingCoRRE b bytesPerPixel).
Proof.
  unfold handleRectEncodingCoRRE.
  apply (extendable_readExact sz_rfbRREHeader
           (fun hdr b => skipExact b (toInt (bytesPerPixel
              + uint32 (qFromBigEndian (field 0 4 hdr) * uint32 (bytesPerPixel + 4)))))).
  intros c. apply extendable_skipExact.
Qed.

Lemma extendable_Zlib : extendable handleRectEncodingZlib.
Proof.
  unfold handleRectEncodingZlib.
  apply (extendable_readExact sz_rfbZlibHeader
           (fun hdr b => readUInt b (qFromBigEndian (field 0 4 hdr)))).
  intros c. apply extendable_readUInt.
Qed.

Lemma extendable_hextileTile (w h bytesPerPixel : Z) :
  extendable (hextileTile w h bytesPerPixel).
Proof.
  unfold hextileTile.
  apply (extendable_readExact 1
    (fun sub buffer =>
       if flagSet (uint8At 0 sub) rfbHextileRaw
       then skipExact buffer (toInt (w * h * bytesPerPixel))
       else
         buffer <- (if flagSet (uint8At 0 sub) rfbHextileBackgroundSpecified
                    then readUInt buffer bytesPerPixel else Some buffer) ;;
         buffer <- (if flagSet (uint8At 0 sub) rfbHextileForegroundSpecified
                    then readUInt buffer bytesPerPixel else Some buffer) ;;
         if negb (flagSet (uint8At 0 sub) rfbHextileAnySubrects) then Some buffer
         else
           '(n, buffer) <- readExact buffer 1 ;;
           skipExact buffer
             (if flagSet (uint8At 0 sub) rfbHextileSubrectsColoured
              then toInt (uint8At 0 n * (2 + bytesPerPixel))
              else uint8At 0 n * 2))).
  intros sub.
  destruct (flagSet (uint8At 0 sub) rfbHextileRaw); [apply extendable_skipExact|].
  apply (extendable_bind
           (fun b => if flagSet (uint8At 0 sub) rfbHextileBackgroundSpecified
                     then readUInt b bytesPerPixel else Some b)).
  { destruct (flagSet _ _); [apply extendable_readUInt | apply extendable_Some]. }
  apply (extendable_bind
           (fun b => if flagSet (uint8At 0 sub) rfbHextileForegroundSpecified
                     then readUInt b bytesPerPixel else Some b)).
  { destruct (flagSet _ _); [apply extendable_readUInt | apply extendable_Some]. }
  destruct (flagSet (uint8At 0 sub) rfbHextileAnySubrects); cbn [negb];
    [|apply extendable_Some].
  apply (extendable_readExact 1
           (fun n b => skipExact b
              (if flagSet (uint8At 0 sub) rfbHextileSubrectsColoured
               then toInt (uint8At 0 n * (2 + bytesPerPixel))
               else uint8At 0 n * 2))).
  intros n. apply extendable_skipExact.
Qed.

Lemma extendable_Hextile (rectHeader : rfbFramebufferUpdateRectHeader) (bytesPerPixel : Z) :
  extendable (fun b => handleRectEncodingHextile b rectHeader bytesPerPixel).
Proof.
  unfold handleRectEncodingHextile. cbv zeta.
  apply (extendable_forEach
           (fun y => forEach (tileStarts (rh_x rectHeader) (rh_w rectHeader))
              (fun x => hextileTile
                          (tileExtent (rh_x rectHeader + rh_w rectHeader) x)
                          (tileExtent (rh_y rectHeader + rh_h rectHeader) y)
                          bytesPerPixel))).
  intros y. apply extendable_forEach. intros x. apply extendable_hextileTile.
Qed.

(** A rectangle that [handleRect] decoded is decoded the same way when more
    bytes follow in the buffer, by any object with the same pixel format. *)
Lemma handleRect_extend (s s2 : VncClientProtocol) (b b' : QBuffer) (s' : VncClientProtocol)
    (rectHeader : rfbFramebufferUpdateRectHeader) (more : list byte) :
  m_pixelFormat s2 = m_pixelFormat s ->
  handleRect s b rectHeader = (Some b', s') ->
  handleRect s2 (buf_extend b more) rectHeader = (Some (buf_extend b' more), s2).
Proof.
  intros Hpf. unfold handleRect. rewrite Hpf. cbv zeta.
  set (bytesPerPixel := bitsPerPixel (m_pixelFormat s) / 8).
  set (encoding := rh_encoding rectHeader).
  assert (Hstep : forall (decode : QBuffer -> option QBuffer),
            extendable decode ->
            (decode b, s) = (Some b', s') ->
            (decode (buf_extend b more), s2) = (Some (buf_extend b' more), s2)).
  { intros decode Hd H. inversion H as [[H1 H2]]. now rewrite (Hd b b' more H1). }
  destruct (encodingIn encoding [rfbEncodingLastRect]);
    [apply (Hstep Some extendable_Some)|].
  destruct (encodingIn encoding [rfbEncodingXCursor]).
  { destruct (uint32 (rh_w rectHeader * rh_h rectHeader) =? 0);
      [apply (Hstep Some extendable_Some)|].
    apply (Hstep (fun b => b1 <- skipExact b sz_rfbXCursorColors ;;
                           readUInt b1 (2 * ((rh_w rectHeader + 7) / 8) * rh_h rectHeader))).
    apply extendable_bind; [apply extendable_skipExact | apply extendable_readUInt]. }
  destruct (encodingIn encoding [rfbEncodingRichCursor]).
  { destruct (uint32 (rh_w rectHeader * rh_h rectHeader) =? 0);
      [apply (Hstep Some extendable_Some)|].
    apply (Hstep (fun b => b1 <- readUInt b (rh_w rectHeader * rh_h rectHeader * bytesPerPixel) ;;
                           readUInt b1 ((rh_w rectHeader + 7) / 8 * rh_h rectHeader))).
    apply extendable_bind; apply extendable_readUInt. }
  destruct (encodingIn encoding [rfbEncodingSupportedMessages]);
    [apply (Hstep (fun b => skipExact b sz_rfbSupportedMessages)), extendable_skipExact|].
  destruct (encodingIn encoding [rfbEncodingSupportedEncodings; rfbEncodingServerIdentity]);
    [apply (Hstep (fun b => readUInt b (rh_w rectHeader))), extendable_readUInt|].
  destruct (encodingIn encoding [rfbEncodingRaw]);
    [apply (Hstep (fun b => readUInt b (rh_w rectHeader * rh_h rectHeader * bytesPerPixel))),
       extendable_readUInt|].
  destruct (encodingIn encoding [rfbEncodingCopyRect]);
    [apply (Hstep (fun b => skipExact b sz_rfbCopyRect)), extendable_skipExact|].
  destruct (encodingIn encoding [rfbEncodingRRE]);
    [apply (Hstep (fun b => handleRectEncodingRRE b bytesPerPixel)), extendable_RRE|].
  destruct (encodingIn encoding [rfbEncodingCoRRE]);
    [apply (Hstep (fun b => handleRectEncodingCoRRE b bytesPerPixel)), extendable_CoRRE|].
  destruct (encodingIn encoding [rfbEncodingHextile]);
    [apply (Hstep (fun b => handleRectEncodingHextile b rectHeader bytesPerPixel)),
       extendable_Hextile|].
  destruct (encodingIn encoding [rfbEncodingUltra; rfbEncodingUltraZip; rfbEncodingZlib]);
    [apply (Hstep handleRectEncodingZlib extendable_Zlib)|].
  destruct (encodingIn encoding [rfbEncodingZRLE; rfbEncodingZYWRLE]);
    [apply (Hstep handleRectEncodingZRLE extendable_Zlib)|].
  destruct (encodingIn encoding
              [rfbEncodingPointerPos; rfbEncodingKeyboardLedState; rfbEncodingNewFBSize]);
    [apply (Hstep Some extendable_Some)|].
  discriminate.
Qed.

Lemma updateRects_extend (more : list byte) (s s2 : VncClientProtocol) :
  m_pixelFormat s2 = m_pixelFormat s ->
  m_framebufferWidth s2 = m_framebufferWidth s ->
  m_framebufferHeight s2 = m_framebufferHeight s ->
  forall (n : nat) (b : QBuffer) (rg : QRegion) (b' : QBuffer) (rg' : QRegion)
         (s' : VncClientProtocol),
    updateRects n s b rg = (Some (b', rg'), s') ->
    updateRects n s2 (buf_extend b more) rg = (Some (buf_extend b' more, rg'), s2).
Proof.
  intros Hpf Hw Hh n. induction n as [|n IH]; intros b rg b' rg' s' H.
  - simpl in *. now inversion H.
  - cbn [updateRects] in *.
    destruct (readExact b sz_rfbFramebufferUpdateRectHeader) as [[hdr b1]|] eqn:E;
      [|discriminate].
    rewrite (readExact_extend _ _ _ _ more E).
    destruct (rh_encoding (decodeRectHeader hdr) =? rfbEncodingLastRect);
      [now inversion H|].
    destruct (handleRect s b1 (decodeRectHeader hdr)) as [[b2|] s1] eqn:Eh; [|discriminate].
    rewrite (handleRect_extend s s2 b1 b2 s1 _ more Hpf Eh).
    assert (Hs1 : s1 = s).
    { destruct (handleRect_state s b1 (decodeRectHeader hdr)) as [Hs|Hc].
      - now rewrite Eh in Hs.
      - rewrite Eh in Hc. discriminate. }
    subst s1.
    assert (Hadd : addUpdatedRect s2 rg (decodeRectHeader hdr)
                   = addUpdatedRect s rg (decodeRectHeader hdr))
      by (unfold addUpdatedRect; now rewrite Hw, Hh).
    rewrite Hadd. now apply (IH b2 _ b' rg' s').
Qed.

Lemma bytesAvailable_appendInput (s : VncClientProtocol) (more : list byte) :
  bytesAvailable (m_socket (appendInput s more))
  = bytesAvailable (m_socket s) + len more.
Proof. unfold appendInput, bytesAvailable; simpl. apply len_app. Qed.

Lemma readMessage_appendInput (s : VncClientProtocol) (size : Z) (more : list byte) :
  fst (readMessage s size) = true ->
  readMessage (appendInput s more) size
  = (true, appendInput (snd (readMessage s size)) more).
Proof.
  rewrite !readMessage_cases, bytesAvailable_appendInput.
  pose proof (len_nonneg more).
  destruct (Z.leb_spec 0 size); [|discriminate].
  destruct (Z.leb_spec size (bytesAvailable (m_socket s))) as [Hle|]; [|discriminate].
  destruct (Z.leb_spec size (bytesAvailable (m_socket s) + len more)); [|lia].
  intros _. cbn [andb snd]. unfold bytesAvailable in Hle.
  unfold appendInput, set_lastMessage, set_socket; simpl.
  now rewrite take_app_le, drop_app_le by assumption.
Qed.

Lemma receiveFramebufferUpdateMessage_appendInput (s : VncClientProtocol)
    (more : list byte) :
  fst (receiveFramebufferUpdateMessage s) = true ->
  receiveFramebufferUpdateMessage (appendInput s more)
  = (true, appendInput (snd (receiveFramebufferUpdateMessage s)) more).
Proof.
  unfold receiveFramebufferUpdateMessage.
  rewrite bytesAvailable_appendInput. unfold sk_peek.
  assert (Hall : take (bytesAvailable (m_socket s) + len more)
                   (sk_in (m_socket (appendInput s more)))
                 = sk_in (m_socket s) ++ more).
  { apply take_all. unfold appendInput, bytesAvailable; simpl. rewrite len_app. lia. }
  rewrite Hall. rewrite (take_all (sk_in (m_socket s))) by (unfold bytesAvailable; lia).
  change (buf_open (sk_in (m_socket s) ++ more))
    with (buf_extend (buf_open (sk_in (m_socket s))) more).
  destruct (readExact (buf_open (sk_in (m_socket s))) sz_rfbFramebufferUpdateMsg)
    as [[message b1]|] eqn:E; [|discriminate].
  rewrite (readExact_extend _ _ _ _ more E).
  destruct (updateRects (Z.to_nat (qFromBigEndian (field 2 2 message))) s b1 [])
    as [[[b2 rg]|] s'] eqn:Eu; [|discriminate].
  rewrite (updateRects_extend more s (appendInput s more) eq_refl eq_refl eq_refl
             _ _ _ _ _ _ Eu).
  assert (Hs' : s' = s).
  { destruct (updateRects_state (Z.to_nat (qFromBigEndian (field 2 2 message))) s b1 [])
      as [Hs|Hc].
    - now rewrite Eu in Hs.
    - rewrite Eu in Hc. discriminate. }
  subst s'. intros Htrue.
  exact (readMessage_appendInput (set_lastUpdatedRect s (boundingRect rg))
           (toInt (buf_pos b2)) more Htrue).
Qed.

(** X13.  A message that [receiveMessage] took from the socket is taken the
    same way when more bytes have arrived behind it, as long as the unread
    bytes stay within the bound on a message: the same bytes leave the
    socket, the same updated rectangle and geometry are stored, and the
    bytes behind the message stay unread.  How a message is framed never
    depends on what follows it. *)
Theorem receiveMessage_more_input (MaximumMessageSize : Z) (s : VncClientProtocol)
    (more : list byte) :
  fst (receiveMessage MaximumMessageSize s) = true ->
  bytesAvailable (m_socket s) + len more <= MaximumMessageSize ->
  receiveMessage MaximumMessageSize (appendInput s more)
  = (true, appendInput (snd (receiveMessage MaximumMessageSize s)) more).
Proof.
  intros Htrue Hmax. unfold receiveMessage in *.
  rewrite bytesAvailable_appendInput.
  destruct (Z.gtb_spec (bytesAvailable (m_socket s) + len more) MaximumMessageSize); [lia|].
  destruct (bytesAvailable (m_socket s) >? MaximumMessageSize); [discriminate|].
  unfold sk_peek in *.
  destruct (Z.eqb_spec (len (take 1 (sk_in (m_socket s)))) 1) as [H1|H1];
    [|discriminate]. cbn [negb] in *.
  assert (Hle : 1 <= len (sk_in (m_socket s))) by (rewrite len_take in H1 by lia; lia).
  assert (Hpeek : take 1 (sk_in (m_socket (appendInput s more))) = take 1 (sk_in (m_socket s)))
    by (unfold appendInput; simpl; now apply take_app_le).
  rewrite Hpeek, H1. cbn [Z.eqb Pos.eqb negb].
  destruct (uint8At 0 (take 1 (sk_in (m_socket s))) =? rfbFramebufferUpdate);
    [now apply receiveFramebufferUpdateMessage_appendInput|].
  destruct (uint8At 0 (take 1 (sk_in (m_socket s))) =? rfbSetColourMapEntries).
  { unfold receiveColourMapEntriesMessage, sk_peek in *.
    destruct (Z.eqb_spec (len (take sz_rfbSetColourMapEntriesMsg (sk_in (m_socket s))))
                sz_rfbSetColourMapEntriesMsg) as [H6|H6]; [|discriminate].
    cbn [negb] in *.
    assert (H6le : sz_rfbSetColourMapEntriesMsg <= len (sk_in (m_socket s))).
    { change sz_rfbSetColourMapEntriesMsg with 6 in *.
      rewrite len_take in H6 by lia. lia. }
    assert (Hp6 : take sz_rfbSetColourMapEntriesMsg (sk_in (m_socket (appendInput s more)))
                  = take sz_rfbSetColourMapEntriesMsg (sk_in (m_socket s)))
      by (unfold appendInput; simpl; now apply take_app_le).
    rewrite Hp6, H6, Z.eqb_refl. cbn [negb].
    now apply readMessage_appendInput. }
  destruct (uint8At 0 (take 1 (sk_in (m_socket s))) =? rfbBell);
    [now apply readMessage_appendInput|].
  destruct (uint8At 0 (take 1 (sk_in (m_socket s))) =? rfbServerCutText).
  { unfold receiveCutTextMessage, sk_peek in *.
    destruct (Z.eqb_spec (len (take sz_rfbServerCutTextMsg (sk_in (m_socket s))))
                sz_rfbServerCutTextMsg) as [H8|H8]; [|discriminate].
    cbn [negb] in *.
    assert (H8le : sz_rfbServerCutTextMsg <= len (sk_in (m_socket s))).
    { change sz_rfbServerCutTextMsg with 8 in *.
      rewrite len_take in H8 by lia. lia. }
    assert (Hp8 : take sz_rfbServerCutTextMsg (sk_in (m_socket (appendInput s more)))
                  = take sz_rfbServerCutTextMsg (sk_in (m_socket s)))
      by (unfold appendInput; simpl; now apply take_app_le).
    rewrite Hp8, H8, Z.eqb_refl. cbn [negb].
    now apply readMessage_appendInput. }
  destruct (uint8At 0 (take 1 (sk_in (m_socket s))) =? rfbResizeFrameBuffer).
  { unfold receiveResizeFramebufferMessage in *.
    destruct (readMessage s sz_rfbResizeFrameBufferMsg) as [ok s1] eqn:Er.
    destruct ok; [|discriminate].
    rewrite (readMessage_appendInput s sz_rfbResizeFrameBufferMsg more)
      by (now rewrite Er).
    rewrite Er. reflexivity. }
  destruct (uint8At 0 (take 1 (sk_in (m_socket s))) =? rfbXvp);
    [now apply readMessage_appendInput|].
  discriminate.
Qed.

Lemma receiveMessage_more_input_witness :
  let s := runningAt x08 200 200 twoRawRects in
  let more := [x02; x03; x00] in
  fst (receiveMessage 67108864 s) = true
  /\ bytesAvailable (m_socket s) + len more <= 67108864
  /\ receiveMessage 67108864 (runningAt x08 200 200 (twoRawRects ++ more))
     = (true, appendInput (snd (receiveMessage 67108864 s)) more)
  /\ sk_in (m_socket (snd (receiveMessage 67108864
                             (runningAt x08 200 200 (twoRawRects ++ more))))) = more.
Proof.
  intros s more.
  assert (Ht : fst (receiveMessage 67108864 s) = true) by reflexivity.
  assert (Hm : bytesAvailable (m_socket s) + len more <= 67108864) by discriminate.
  pose proof (receiveMessage_more_input 67108864 s more Ht Hm) as H.
  split; [exact Ht|]. split; [exact Hm|]. split; [exact H|].
  change (runningAt x08 200 200 (twoRawRects ++ more)) with (appendInput s more).
  rewrite H. reflexivity.
Defined.

(** ** Framebuffer updates *)

Lemma receiveMessage_dispatch (MaximumMessageSize : Z) (s : VncClientProtocol)
    (t : byte) (rest : list byte) :
  bytesAvailable (m_socket s) <= MaximumMessageSize ->
  sk_in (m_socket s) = t :: rest ->
  receiveMessage MaximumMessageSize s
  = if byteZ t =? rfbFramebufferUpdate then receiveFramebufferUpdateMessage s
    else if byteZ t =? rfbSetColourMapEntries then receiveColourMapEntriesMessage s
    else if byteZ t =? rfbBell then receiveBellMessage s
    else if byteZ t =? rfbServerCutText then receiveCutTextMessage s
    else if byteZ t =? rfbResizeFrameBuffer then receiveResizeFramebufferMessage s
    else if byteZ t =? rfbXvp then receiveXvpMessage s
    else (false, closeSocket s).
Proof.
  intros Hmax Hin. unfold receiveMessage.
  destruct (Z.gtb_spec (bytesAvailable (m_socket s)) MaximumMessageSize); [lia|].
  unfold sk_peek. rewrite Hin, take_one. reflexivity.
Qed.

Lemma handleRect_unhandled (s : VncClientProtocol) (buffer : QBuffer)
    (rectHeader : rfbFramebufferUpdateRectHeader) :
  encodingIn (rh_encoding rectHeader) handledEncodings = false ->
  handleRect s buffer rectHeader = (None, closeSocket s).
Proof.
  intros H.
  assert (Hne : forall c, In c handledEncodings -> (rh_encoding rectHeader =? c) = false).
  { intros c Hc. destruct (rh_encoding rectHeader =? c) eqn:E; [|reflexivity].
    apply Z.eqb_eq in E. rewrite <- E in Hc. apply encodingIn_In in Hc. congruence. }
  unfold handleRect, encodingIn. cbn [existsb].
  rewrite !Hne by (unfold handledEncodings; cbn [In];
                   repeat first [left; reflexivity | right]).
  reflexivity.
Qed.

(** X14.  A framebuffer update whose first rectangle has an encoding
    without a case in [handleRect], Tight for one, is fatal: whatever
    follows the rectangle header, [receiveMessage] returns [false] and
    closes the socket, dropping the unread bytes. *)
Theorem unsupported_encoding_closes (MaximumMessageSize : Z) (s : VncClientProtocol)
    (pad n1 n2 : byte) (hdr tail : list byte) :
  bytesAvailable (m_socket s) <= MaximumMessageSize ->
  sk_in (m_socket s) = [x00; pad; n1; n2] ++ hdr ++ tail ->
  len hdr = sz_rfbFramebufferUpdateRectHeader ->
  0 < qFromBigEndian [n1; n2] ->
  encodingIn (rh_encoding (decodeRectHeader hdr)) handledEncodings = false ->
  receiveMessage MaximumMessageSize s = (false, closeSocket s).
Proof.
  intros Hmax Hin Hlen Hn Henc.
  rewrite (receiveMessage_dispatch MaximumMessageSize s x00 ([pad; n1; n2] ++ hdr ++ tail)
             Hmax Hin).
  change (byteZ x00 =? rfbFramebufferUpdate) with true. cbv iota.
  unfold receiveFramebufferUpdateMessage, sk_peek.
  rewrite take_all by (unfold bytesAvailable; lia). rewrite Hin.
  rewrite (readExact_app (buf_open ([x00; pad; n1; n2] ++ hdr ++ tail)) [x00; pad; n1; n2]
             (hdr ++ tail) sz_rfbFramebufferUpdateMsg eq_refl eq_refl).
  change (field 2 2 [x00; pad; n1; n2]) with [n1; n2].
  destruct (Z.to_nat (qFromBigEndian [n1; n2])) as [|k] eqn:Ek; [lia|].
  cbn [updateRects].
  rewrite (readExact_mk hdr tail _ sz_rfbFramebufferUpdateRectHeader Hlen).
  assert (Hlast : (rh_encoding (decodeRectHeader hdr) =? rfbEncodingLastRect) = false).
  { destruct (rh_encoding (decodeRectHeader hdr) =? rfbEncodingLastRect) eqn:E;
      [|reflexivity].
    apply Z.eqb_eq in E. rewrite E in Henc. discriminate. }
  rewrite Hlast. now rewrite handleRect_unhandled.
Qed.

Lemma unsupported_encoding_closes_witness :
  let s := runningAt x20 640 480
             [x00; x00; x00; x01;
              x00; x00; x00; x00; x00; x10; x00; x10; x00; x00; x00; x07;
              xaa; xbb] in
  bytesAvailable (m_socket s) <= 67108864
  /\ len [x00; x00; x00; x00; x00; x10; x00; x10; x00; x00; x00; x07]
     = sz_rfbFramebufferUpdateRectHeader
  /\ 0 < qFromBigEndian [x00; x01]
  /\ encodingIn 7 handledEncodings = false
  /\ receiveMessage 67108864 s = (false, closeSocket s)
  /\ sk_in (m_socket (closeSocket s)) = []
  /\ sk_open (m_socket (closeSocket s)) = false.
Proof.
  intros s.
  assert (Hmax : bytesAvailable (m_socket s) <= 67108864) by discriminate.
  assert (Hn : 0 < qFromBigEndian [x00; x01]) by reflexivity.
  split; [exact Hmax|]. split; [reflexivity|]. split; [exact Hn|]. split; [reflexivity|].
  split; [|split; reflexivity].
  exact (unsupported_encoding_closes 67108864 s x00 x00 x01
           [x00; x00; x00; x00; x00; x10; x00; x10; x00; x00; x00; x07] [xaa; xbb]
           Hmax eq_refl eq_refl Hn eq_refl).
Defined.

(** X15.  A framebuffer update without rectangles.  With a rectangle count
    of zero the message is its 4-byte header; with any other count and a
    first rectangle header of encoding LastRect it is the 16 bytes of the
    two headers, whatever the count announces.  Either is taken off the
    socket as the last message, the bytes behind it stay unread, and the
    updated rectangle is reset to the null rectangle. *)
Theorem update_without_rectangles (MaximumMessageSize : Z) (s : VncClientProtocol)
    (pad n1 n2 : byte) (tail : list byte) :
  bytesAvailable (m_socket s) <= MaximumMessageSize ->
  sk_in (m_socket s) = [x00; pad; n1; n2] ++ tail ->
  let taken (message rest : list byte) :=
    (true,
     set_lastMessage
       (set_socket (set_lastUpdatedRect s (mkRect 0 0 0 0))
          (mkSocket rest (sk_out (m_socket s)) (sk_open (m_socket s))))
       message) in
  (qFromBigEndian [n1; n2] = 0 ->
   receiveMessage MaximumMessageSize s = taken [x00; pad; n1; n2] tail)
  /\ (forall hdr tail',
        tail = hdr ++ tail' ->
        len hdr = sz_rfbFramebufferUpdateRectHeader ->
        rh_encoding (decodeRectHeader hdr) = rfbEncodingLastRect ->
        0 < qFromBigEndian [n1; n2] ->
        receiveMessage MaximumMessageSize s = taken ([x00; pad; n1; n2] ++ hdr) tail').
Proof.
  intros Hmax Hin taken. subst taken. cbv beta.
  pose proof (receiveMessage_dispatch MaximumMessageSize s x00 ([pad; n1; n2] ++ tail)
                Hmax Hin) as Hd.
  change (byteZ x00 =? rfbFramebufferUpdate) with true in Hd. cbv iota in Hd.
  rewrite Hd. clear Hd.
  unfold receiveFramebufferUpdateMessage, sk_peek.
  rewrite take_all by (unfold bytesAvailable; lia). rewrite Hin.
  rewrite (readExact_app (buf_open ([x00; pad; n1; n2] ++ tail)) [x00; pad; n1; n2]
             tail sz_rfbFramebufferUpdateMsg eq_refl eq_refl).
  change (field 2 2 [x00; pad; n1; n2]) with [n1; n2].
  pose proof (len_nonneg tail) as Ht.
  split.
  - intros Hz. rewrite Hz. cbn [Z.to_nat updateRects buf_pos buf_open].
    rewrite readMessage_cases.
    change (toInt (0 + sz_rfbFramebufferUpdateMsg)) with 4.
    unfold bytesAvailable. cbn [m_socket set_lastUpdatedRect]. rewrite Hin, len_app.
    change (len [x00; pad; n1; n2]) with 4.
    destruct (Z.leb_spec 4 (4 + len tail)); [|lia]. cbn [Z.leb andb].
    rewrite take_app_exact, drop_app_exact by reflexivity. reflexivity.
  - intros hdr tail' Htail Hlen Henc Hn. subst tail.
    destruct (Z.to_nat (qFromBigEndian [n1; n2])) as [|k] eqn:Ek; [lia|].
    cbn [updateRects].
    rewrite (readExact_mk hdr tail' _ sz_rfbFramebufferUpdateRectHeader Hlen).
    rewrite Henc, Z.eqb_refl. cbn [buf_pos buf_open].
    rewrite readMessage_cases.
    change (toInt (0 + sz_rfbFramebufferUpdateMsg + sz_rfbFramebufferUpdateRectHeader))
      with 16.
    unfold bytesAvailable. cbn [m_socket set_lastUpdatedRect]. rewrite Hin.
    rewrite app_assoc, len_app, len_app. change (len [x00; pad; n1; n2]) with 4.
    rewrite Hlen. change sz_rfbFramebufferUpdateRectHeader with 12.
    pose proof (len_nonneg tail') as Ht'.
    destruct (Z.leb_spec 16 (4 + 12 + len tail')); [|lia]. cbn [Z.leb andb].
    assert (H16 : len ([x00; pad; n1; n2] ++ hdr) = 16)
      by (rewrite len_app, Hlen; reflexivity).
    rewrite take_app_exact, drop_app_exact by assumption. reflexivity.
Qed.

Lemma update_without_rectangles_witness :
  let s := set_lastUpdatedRect
             (runningAt x20 640 480
                [x00; x00; x00; x05;
                 x00; x00; x00; x00; x00; x00; x00; x00; xff; xff; xff; x20;
                 x02]) (mkRect 1 2 3 4) in
  bytesAvailable (m_socket s) <= 67108864
  /\ rh_encoding (decodeRectHeader
                    [x00; x00; x00; x00; x00; x00; x00; x00; xff; xff; xff; x20])
     = rfbEncodingLastRect
  /\ 0 < qFromBigEndian [x00; x05]
  /\ receiveMessage 67108864 s
     = (true,
        set_lastMessage
          (set_socket (set_lastUpdatedRect s (mkRect 0 0 0 0)) (mkSocket [x02] [] true))
          [x00; x00; x00; x05;
           x00; x00; x00; x00; x00; x00; x00; x00; xff; xff; xff; x20]).
Proof.
  intros s.
  assert (Hmax : bytesAvailable (m_socket s) <= 67108864) by discriminate.
  assert (Hn : 0 < qFromBigEndian [x00; x05]) by reflexivity.
  split; [exact Hmax|]. split; [reflexivity|]. split; [exact Hn|].
  exact (proj2 (update_without_rectangles 67108864 s x00 x00 x05
                  ([x00; x00; x00; x00; x00; x00; x00; x00; xff; xff; xff; x20] ++ [x02])
                  Hmax eq_refl)
           [x00; x00; x00; x00; x00; x00; x00; x00; xff; xff; xff; x20] [x02]
           eq_refl eq_refl eq_refl Hn).
Defined.

Lemma rect_united_within (width height : Z) (a b : QRect) :
  rectWithin width height a -> rectWithin width height b ->
  rectWithin width height (rect_united a b).
Proof. unfold rectWithin, rect_united. simpl. lia. Qed.

Lemma boundingRect_within (width height : Z) (rg : QRegion) :
  0 <= width -> 0 <= height ->
  Forall (rectWithin width height) rg ->
  rectWithin width height (boundingRect rg).
Proof.
  intros Hw Hh Hall. destruct rg as [|r rest]; [unfold rectWithin; simpl; lia|].
  simpl. inversion Hall as [|r0 l0 Hr Hrest]; subst. clear Hall.
  revert r Hr. induction rest as [|q rest IH]; intros r Hr; [exact Hr|].
  simpl. inversion Hrest; subst. apply IH; [assumption|].
  now apply rect_united_within.
Qed.

Lemma addUpdatedRect_within (s : VncClientProtocol) (rg : QRegion) (hdr : list byte) :
  Forall (rectWithin (m_framebufferWidth s) (m_framebufferHeight s)) rg ->
  Forall (rectWithin (m_framebufferWidth s) (m_framebufferHeight s))
    (addUpdatedRect s rg (decodeRectHeader hdr)).
Proof.
  intros Hall. unfold addUpdatedRect.
  destruct (negb (isPseudoEncoding (decodeRectHeader hdr))); [|exact Hall].
  cbn [andb].
  destruct (Z.leb_spec (rh_x (decodeRectHeader hdr) + rh_w (decodeRectHeader hdr))
              (m_framebufferWidth s)); [|exact Hall].
  destruct (Z.leb_spec (rh_y (decodeRectHeader hdr) + rh_h (decodeRectHeader hdr))
              (m_framebufferHeight s)); [|exact Hall].
  cbn [andb]. unfold region_add, rect_isEmpty. cbn [r_w r_h].
  destruct (Z.leb_spec (rh_w (decodeRectHeader hdr)) 0); [exact Hall|].
  destruct (Z.leb_spec (rh_h (decodeRectHeader hdr)) 0); [exact Hall|].
  cbn [orb]. apply Forall_app. split; [exact Hall|]. constructor; [|constructor].
  unfold rectWithin. cbn [r_x r_y r_w r_h].
  pose proof (qFromBigEndian_nonneg (field 0 2 hdr)).
  pose proof (qFromBigEndian_nonneg (field 2 2 hdr)).
  unfold decodeRectHeader in *. cbn [rh_x rh_y rh_w rh_h] in *. lia.
Qed.

Lemma updateRects_within (n : nat) :
  forall (s : VncClientProtocol) (b : QBuffer) (rg : QRegion) (b' : QBuffer)
         (rg' : QRegion) (s' : VncClientProtocol),
    updateRects n s b rg = (Some (b', rg'), s') ->
    Forall (rectWithin (m_framebufferWidth s) (m_framebufferHeight s)) rg ->
    Forall (rectWithin (m_framebufferWidth s) (m_framebufferHeight s)) rg'.
Proof.
  induction n as [|n IH]; intros s b rg b' rg' s' H Hall.
  - simpl in H. now inversion H; subst.
  - cbn [updateRects] in H.
    destruct (readExact b sz_rfbFramebufferUpdateRectHeader) as [[hdr b1]|];
      [|discriminate].
    destruct (rh_encoding (decodeRectHeader hdr) =? rfbEncodingLastRect);
      [now inversion H; subst|].
    destruct (handleRect s b1 (decodeRectHeader hdr)) as [[b2|] s1] eqn:Eh; [|discriminate].
    assert (Hs1 : s1 = s).
    { destruct (handleRect_state s b1 (decodeRectHeader hdr)) as [Hs|Hc].
      - now rewrite Eh in Hs.
      - rewrite Eh in Hc. discriminate. }
    subst s1. apply (IH s b2 _ b' rg' s' H). now apply addUpdatedRect_within.
Qed.

(** X16.  After a framebuffer update that [receiveMessage] accepted, the
    updated rectangle lies within the framebuffer: its corner is not
    negative, and its right and bottom edges are not beyond the width and
    height the object holds.  The update leaves that geometry as it was. *)
Theorem updated_rect_within (MaximumMessageSize : Z) (s : VncClientProtocol)
    (rest : list byte) :
  sk_in (m_socket s) = x00 :: rest ->
  fst (receiveMessage MaximumMessageSize s) = true ->
  0 <= m_framebufferWidth s -> 0 <= m_framebufferHeight s ->
  let s' := snd (receiveMessage MaximumMessageSize s) in
  rectWithin (m_framebufferWidth s) (m_framebufferHeight s) (m_lastUpdatedRect s')
  /\ m_framebufferWidth s' = m_framebufferWidth s
  /\ m_framebufferHeight s' = m_framebufferHeight s.
Proof.
  intros Hin Htrue Hw Hh.
  assert (Hmax : bytesAvailable (m_socket s) <= MaximumMessageSize).
  { unfold receiveMessage in Htrue.
    destruct (Z.gtb_spec (bytesAvailable (m_socket s)) MaximumMessageSize);
      [discriminate | lia]. }
  rewrite (receiveMessage_dispatch MaximumMessageSize s x00 rest Hmax Hin) in *.
  change (byteZ x00 =? rfbFramebufferUpdate) with true in *. cbv iota in *.
  unfold receiveFramebufferUpdateMessage in *.
  destruct (readExact _ sz_rfbFramebufferUpdateMsg) as [[message b1]|]; [|discriminate].
  destruct (updateRects (Z.to_nat (qFromBigEndian (field 2 2 message))) s b1 [])
    as [[[b2 rg]|] s1] eqn:Eu; [|discriminate].
  assert (Hs1 : s1 = s).
  { destruct (updateRects_state (Z.to_nat (qFromBigEndian (field 2 2 message))) s b1 [])
      as [Hs|Hc].
    - now rewrite Eu in Hs.
    - rewrite Eu in Hc. discriminate. }
  subst s1.
  pose proof (updateRects_within _ _ _ _ _ _ _ Eu (Forall_nil _)) as Hall.
  rewrite readMessage_cases in *.
  destruct ((0 <=? toInt (buf_pos b2))
            && (toInt (buf_pos b2)
                <=? bytesAvailable (m_socket (set_lastUpdatedRect s (boundingRect rg)))));
    [|discriminate].
  cbn [snd set_lastMessage set_socket set_lastUpdatedRect m_lastUpdatedRect
         m_framebufferWidth m_framebufferHeight].
  split; [|split; reflexivity]. now apply boundingRect_within.
Qed.

Lemma updated_rect_within_witness :
  let s := runningAt x08 200 200 twoRawRects in
  sk_in (m_socket s) = x00 :: skipn 1 twoRawRects
  /\ fst (receiveMessage 67108864 s) = true
  /\ 0 <= m_framebufferWidth s /\ 0 <= m_framebufferHeight s
  /\ rectWithin 200 200 (m_lastUpdatedRect (snd (receiveMessage 67108864 s)))
  /\ m_lastUpdatedRect (snd (receiveMessage 67108864 s)) = mkRect 0 0 102 102.
Proof.
  intros s.
  assert (Ht : fst (receiveMessage 67108864 s) = true) by reflexivity.
  assert (Hw : 0 <= m_framebufferWidth s) by discriminate.
  assert (Hh : 0 <= m_framebufferHeight s) by discriminate.
  split; [reflexivity|]. split; [exact Ht|]. split; [exact Hw|]. split; [exact Hh|].
  split; [|reflexivity].
  exact (proj1 (updated_rect_within 67108864 s (skipn 1 twoRawRects) eq_refl Ht Hw Hh)).
Defined.

(** ** Messages of variable size *)



(** X18.  A ServerCutText message is its 8-byte header and the text, whose
    length the header gives in 32 bits; the length is cast to [int] before
    it is added.  With the header unread: a length below [2^31 - 8] makes a
    message of [8 + length] bytes, taken when they are all unread; a length
    from [2^31] to below [2^32 - 8] makes a negative size, and the call
    returns [false] and changes nothing however many bytes are unread; a
    length from [2^32 - 8] on makes a size below 8, and the call takes only
    that many bytes of the header as the message. *)
Theorem cut_text_size (MaximumMessageSize : Z) (s : VncClientProtocol)
    (hdr tail : list byte) :
  bytesAvailable (m_socket s) <= MaximumMessageSize ->
  sk_in (m_socket s) = hdr ++ tail ->
  len hdr = sz_rfbServerCutTextMsg ->
  uint8At 0 hdr = rfbServerCutText ->
  let length := qFromBigEndian (field 4 4 hdr) in
  let taken (size : Z) :=
    (true,
     set_lastMessage
       (set_socket s (mkSocket (drop size (sk_in (m_socket s)))
                        (sk_out (m_socket s)) (sk_open (m_socket s))))
       (take size (sk_in (m_socket s)))) in
  (length < 2 ^ 31 - 8 ->
   receiveMessage MaximumMessageSize s
   = if 8 + length <=? bytesAvailable (m_socket s) then taken (8 + length) else (false, s))
  /\ (2 ^ 31 <= length < 2 ^ 32 - 8 ->
      receiveMessage MaximumMessageSize s = (false, s))
  /\ (2 ^ 32 - 8 <= length ->
      receiveMessage MaximumMessageSize s = taken (8 + length - 2 ^ 32)).
Proof.
  intros Hmax Hin Hlen Htype length taken. subst taken. cbv beta.
  destruct hdr as [|t hdr']; [discriminate Hlen|].
  change (uint8At 0 (t :: hdr')) with (byteZ t) in Htype.
  rewrite (receiveMessage_dispatch MaximumMessageSize s t (hdr' ++ tail) Hmax Hin).
  rewrite Htype. change (rfbServerCutText =? rfbFramebufferUpdate) with false.
  change (rfbServerCutText =? rfbSetColourMapEntries) with false.
  change (rfbServerCutText =? rfbBell) with false.
  change (rfbServerCutText =? rfbServerCutText) with true. cbv iota.
  assert (Hpeek : take sz_rfbServerCutTextMsg (sk_in (m_socket s)) = t :: hdr')
    by (rewrite Hin; now apply take_app_exact).
  unfold receiveCutTextMessage, sk_peek.
  rewrite Hpeek, Hlen, Z.eqb_refl. cbn [negb].
  fold length. rewrite readMessage_cases.
  assert (Hl0 : 0 <= length) by apply qFromBigEndian_nonneg.
  assert (Hl1 : length < 2 ^ 32).
  { pose proof (qFromBigEndian_bound (field 4 4 (t :: hdr'))) as Hb. fold length in Hb.
    assert (Hf : 0 <= len (field 4 4 (t :: hdr')) <= 4).
    { unfold field. rewrite len_take by lia. pose proof (len_nonneg (drop 4 (t :: hdr'))).
      lia. }
    assert (256 ^ len (field 4 4 (t :: hdr')) <= 256 ^ 4)
      by (apply Z.pow_le_mono_r; lia).
    change (256 ^ 4) with (2 ^ 32) in *. lia. }
  assert (Havail : 8 <= bytesAvailable (m_socket s)).
  { unfold bytesAvailable. rewrite Hin, len_app, Hlen.
    pose proof (len_nonneg tail). change sz_rfbServerCutTextMsg with 8. lia. }
  change sz_rfbServerCutTextMsg with 8.
  change (2 ^ 31) with 2147483648 in *. change (2 ^ 32) with 4294967296 in *.
  assert (Hcases :
            toInt (8 + toInt length)
            = if length <? 2147483648 - 8 then 8 + length
              else 8 + length - 4294967296).
  { unfold toInt at 2. rewrite (uint32_small length)
      by (change (2 ^ 32) with 4294967296; lia).
    change (2 ^ 31) with 2147483648. change (2 ^ 32) with 4294967296.
    destruct (Z.ltb_spec length 2147483648) as [Hs|Hs].
    - destruct (Z.ltb_spec length (2147483648 - 8)).
      + apply toInt_small. change (2 ^ 31) with 2147483648. lia.
      + unfold toInt. rewrite uint32_small by (change (2 ^ 32) with 4294967296; lia).
        change (2 ^ 31) with 2147483648. change (2 ^ 32) with 4294967296.
        destruct (Z.ltb_spec (8 + length) 2147483648); lia.
    - destruct (Z.ltb_spec length (2147483648 - 8)); [lia|].
      unfold toInt, uint32. change (2 ^ 31) with 2147483648.
      change (2 ^ 32) with 4294967296.
      destruct (Z.ltb_spec ((8 + (length - 4294967296)) mod 4294967296) 2147483648);
        pose proof (Z.mod_pos_bound (8 + (length - 4294967296)) 4294967296 ltac:(lia));
        pose proof (Z.div_mod (8 + (length - 4294967296)) 4294967296 ltac:(lia));
        lia. }
  rewrite Hcases.
  split; [|split].
  - intros Hlt. destruct (Z.ltb_spec length (2147483648 - 8)); [|lia].
    destruct (Z.leb_spec 0 (8 + length)); [|lia]. reflexivity.
  - intros Hmid. destruct (Z.ltb_spec length (2147483648 - 8)); [lia|].
    destruct (Z.leb_spec 0 (8 + length - 4294967296)); [lia|]. reflexivity.
  - intros Hbig. destruct (Z.ltb_spec length (2147483648 - 8)); [lia|].
    destruct (Z.leb_spec 0 (8 + length - 4294967296)); [|lia].
    destruct (Z.leb_spec (8 + length - 4294967296) (bytesAvailable (m_socket s))); [|lia].
    reflexivity.
Qed.

Lemma cut_text_size_witness :
  (let s := runningAt x08 200 200
              [x03; x00; x00; x00; x00; x00; x00; x02; x68; x69; x02] in
   bytesAvailable (m_socket s) <= 67108864
   /\ len [x03; x00; x00; x00; x00; x00; x00; x02] = sz_rfbServerCutTextMsg
   /\ uint8At 0 [x03; x00; x00; x00; x00; x00; x00; x02] = rfbServerCutText
   /\ qFromBigEndian (field 4 4 [x03; x00; x00; x00; x00; x00; x00; x02]) < 2 ^ 31 - 8
   /\ fst (receiveMessage 67108864 s) = true
   /\ sk_in (m_socket (snd (receiveMessage 67108864 s))) = [x02])
  /\ (let s := runningAt x08 200 200
                 [x03; x00; x00; x00; x80; x00; x00; x00; x68; x69; x02] in
      2 ^ 31 <= qFromBigEndian (field 4 4 [x03; x00; x00; x00; x80; x00; x00; x00])
              < 2 ^ 32 - 8
      /\ receiveMessage 67108864 s = (false, s))
  /\ (let s := runningAt x08 200 200
                 [x03; x00; x00; x00; xff; xff; xff; xfa; x68; x69; x02] in
      2 ^ 32 - 8 <= qFromBigEndian (field 4 4 [x03; x00; x00; x00; xff; xff; xff; xfa])
      /\ m_lastMessage (snd (receiveMessage 67108864 s)) = [x03; x00]).
Proof.
  split; [|split].
  - intros s.
    assert (Hmax : bytesAvailable (m_socket s) <= 67108864) by discriminate.
    assert (Hl : qFromBigEndian (field 4 4 [x03; x00; x00; x00; x00; x00; x00; x02])
                 < 2 ^ 31 - 8) by reflexivity.
    pose proof (proj1 (cut_text_size 67108864 s [x03; x00; x00; x00; x00; x00; x00; x02]
                         [x68; x69; x02] Hmax eq_refl eq_refl eq_refl) Hl) as H.
    split; [exact Hmax|]. split; [reflexivity|]. split; [reflexivity|].
    split; [exact Hl|]. rewrite H. split; reflexivity.
  - intros s.
    assert (Hmax : bytesAvailable (m_socket s) <= 67108864) by discriminate.
    assert (Hl : 2 ^ 31
                 <= qFromBigEndian (field 4 4 [x03; x00; x00; x00; x80; x00; x00; x00])
                 < 2 ^ 32 - 8) by (split; [discriminate | reflexivity]).
    split; [exact Hl|].
    exact (proj1 (proj2 (cut_text_size 67108864 s [x03; x00; x00; x00; x80; x00; x00; x00]
                           [x68; x69; x02] Hmax eq_refl eq_refl eq_refl)) Hl).
  - intros s.
    assert (Hmax : bytesAvailable (m_socket s) <= 67108864) by discriminate.
    assert (Hl : 2 ^ 32 - 8
                 <= qFromBigEndian (field 4 4 [x03; x00; x00; x00; xff; xff; xff; xfa]))
      by discriminate.
    split; [exact Hl|].
    rewrite (proj2 (proj2 (cut_text_size 67108864 s [x03; x00; x00; x00; xff; xff; xff; xfa]
                             [x68; x69; x02] Hmax eq_refl eq_refl eq_refl)) Hl).
    reflexivity.
Defined.

(** ** Messages to the server *)

Lemma byteOfZ_byteZ (b : byte) : byteOfZ (byteZ b) = b.
Proof.
  apply byteZ_inj. rewrite byteZ_byteOfZ. apply Z.mod_small.
  pose proof (byteZ_range b). lia.
Qed.

Lemma qFromBigEndian_inj (l1 : list byte) :
  forall l2, length l1 = length l2 -> qFromBigEndian l1 = qFromBigEndian l2 -> l1 = l2.
Proof.
  induction l1 as [|a t1 IH]; intros [|b t2] Hlen Hq; try discriminate; [reflexivity|].
  injection Hlen as Hlen. rewrite !qFromBigEndian_cons in Hq.
  assert (Hl : len t1 = len t2) by (unfold len; now rewrite Hlen).
  rewrite Hl in Hq.
  pose proof (byteZ_range a). pose proof (byteZ_range b).
  pose proof (qFromBigEndian_nonneg t1). pose proof (qFromBigEndian_nonneg t2).
  pose proof (qFromBigEndian_bound t1) as B1. rewrite Hl in B1.
  pose proof (qFromBigEndian_bound t2) as B2.
  assert (Hab : byteZ a = byteZ b) by nia.
  f_equal; [now apply byteZ_inj | apply IH; [assumption | nia]].
Qed.

(** Encoding what was decoded gives the bytes back. *)
Lemma toBigEndian_qFromBigEndian (l : list byte) :
  toBigEndian (length l) (qFromBigEndian l) = l.
Proof.
  apply qFromBigEndian_inj.
  - pose proof (len_toBigEndian (length l) (qFromBigEndian l)) as H.
    unfold len in H. now apply Nat2Z.inj in H.
  - rewrite qFromBigEndian_toBigEndian. apply Z.mod_small.
    split; [apply qFromBigEndian_nonneg | apply qFromBigEndian_bound].
Qed.

(** X19.  A ResizeFrameBuffer message sets the geometry, and the next
    update request asks for it: after the 6 bytes of the message are taken
    from an open socket, the width and height are those of its bytes 2..3
    and 4..5, and [requestFramebufferUpdate] writes a request for the
    rectangle at (0,0) whose width and height are those four bytes as they
    came. *)
Theorem request_after_resize (MaximumMessageSize : Z) (s : VncClientProtocol)
    (pad w1 w2 h1 h2 : byte) (tail : list byte) (incremental : bool) :
  bytesAvailable (m_socket s) <= MaximumMessageSize ->
  sk_open (m_socket s) = true ->
  sk_in (m_socket s) = [x04; pad; w1; w2; h1; h2] ++ tail ->
  let s1 := snd (receiveMessage MaximumMessageSize s) in
  fst (receiveMessage MaximumMessageSize s) = true
  /\ m_framebufferWidth s1 = qFromBigEndian [w1; w2]
  /\ m_framebufferHeight s1 = qFromBigEndian [h1; h2]
  /\ m_lastMessage s1 = [x04; pad; w1; w2; h1; h2]
  /\ m_socket (requestFramebufferUpdate s1 incremental)
     = mkSocket tail
         (sk_out (m_socket s)
          ++ [x03; if incremental then x01 else x00; x00; x00; x00; x00; w1; w2; h1; h2])
         true.
Proof.
  intros Hmax Hopen Hin s1.
  assert (Hrecv : receiveMessage MaximumMessageSize s
                  = (true,
                     set_framebufferSize
                       (set_lastMessage
                          (set_socket s (mkSocket tail (sk_out (m_socket s)) true))
                          [x04; pad; w1; w2; h1; h2])
                       (qFromBigEndian [w1; w2]) (qFromBigEndian [h1; h2]))).
  { rewrite (receiveMessage_dispatch MaximumMessageSize s x04
               ([pad; w1; w2; h1; h2] ++ tail) Hmax Hin).
    change (byteZ x04 =? rfbFramebufferUpdate) with false.
    change (byteZ x04 =? rfbSetColourMapEntries) with false.
    change (byteZ x04 =? rfbBell) with false.
    change (byteZ x04 =? rfbServerCutText) with false.
    change (byteZ x04 =? rfbResizeFrameBuffer) with true. cbv iota.
    unfold receiveResizeFramebufferMessage. rewrite readMessage_cases.
    change sz_rfbResizeFrameBufferMsg with 6. unfold bytesAvailable.
    rewrite Hin, len_app, Hopen. change (len [x04; pad; w1; w2; h1; h2]) with 6.
    pose proof (len_nonneg tail).
    destruct (Z.leb_spec 6 (6 + len tail)); [|lia]. cbn [Z.leb andb].
    rewrite take_app_exact, drop_app_exact by reflexivity. reflexivity. }
  subst s1. rewrite Hrecv. cbn [fst snd].
  split; [reflexivity|]. split; [reflexivity|]. split; [reflexivity|]. split; [reflexivity|].
  unfold requestFramebufferUpdate.
  cbn [m_framebufferWidth m_framebufferHeight set_framebufferSize set_lastMessage
         set_socket m_socket sk_open sk_in sk_out].
  assert (Hw : toBigEndian 2 (qFromBigEndian [w1; w2]) = [w1; w2])
    by exact (toBigEndian_qFromBigEndian [w1; w2]).
  assert (Hh : toBigEndian 2 (qFromBigEndian [h1; h2]) = [h1; h2])
    by exact (toBigEndian_qFromBigEndian [h1; h2]).
  rewrite Hw, Hh. destruct incremental; reflexivity.
Qed.

Lemma request_after_resize_witness :
  let s := runningAt x20 640 480 [x04; x00; x04; x00; x03; x00; x02] in
  bytesAvailable (m_socket s) <= 67108864
  /\ m_framebufferWidth (snd (receiveMessage 67108864 s)) = 1024
  /\ m_framebufferHeight (snd (receiveMessage 67108864 s)) = 768
  /\ m_socket (requestFramebufferUpdate (snd (receiveMessage 67108864 s)) true)
     = mkSocket [x02] [x03; x01; x00; x00; x00; x00; x04; x00; x03; x00] true.
Proof.
  intros s.
  assert (Hmax : bytesAvailable (m_socket s) <= 67108864) by discriminate.
  pose proof (request_after_resize 67108864 s x00 x04 x00 x03 x00 [x02] true
                Hmax eq_refl eq_refl) as [_ [Hw [Hh [_ Hreq]]]].
  split; [exact Hmax|]. split; [exact Hw|]. split; [exact Hh|]. exact Hreq.
Defined.

Lemma array_set_app {A : Type} (done : list A) (x v : A) (t : list A) :
  array_set (done ++ x :: t) (length done) v = done ++ v :: t.
Proof. induction done as [|d done IH]; simpl; [reflexivity | now rewrite IH]. Qed.

Lemma storeEncodings_fold (encodings : list Z) :
  forall (done : list (list byte)) (n : nat),
    len done + len encodings < 2 ^ 16 ->
    (length encodings <= n)%nat ->
    fold_left
      (fun (st : list (list byte) * Z) (encoding : Z) =>
         (array_set (fst st) (Z.to_nat (snd st)) (toBigEndian 4 encoding),
          uint16 (snd st + 1)))
      encodings
      (done ++ repeat [x00; x00; x00; x00] n, len done)
    = (done ++ map (toBigEndian 4) encodings
         ++ repeat [x00; x00; x00; x00] (n - length encodings),
       len done + len encodings).
Proof.
  induction encodings as [|e encodings IH]; intros done n Hsmall Hn.
  - cbn [fold_left map length app]. rewrite Nat.sub_0_r. change (len (@nil Z)) with 0.
    now rewrite Z.add_0_r.
  - cbn [fold_left fst snd length] in *. destruct n as [|n]; [lia|].
    rewrite len_cons in Hsmall. pose proof (len_nonneg encodings).
    pose proof (len_nonneg done).
    assert (Hidx : Z.to_nat (len done) = length done) by (unfold len; apply Nat2Z.id).
    rewrite Hidx. cbn [repeat]. rewrite array_set_app.
    assert (Hcount : uint16 (len done + 1) = len (done ++ [toBigEndian 4 e])).
    { rewrite len_app. change (len [toBigEndian 4 e]) with 1.
      unfold uint16. apply Z.mod_small. lia. }
    rewrite Hcount.
    replace (done ++ toBigEndian 4 e :: repeat [x00; x00; x00; x00] n)
      with ((done ++ [toBigEndian 4 e]) ++ repeat [x00; x00; x00; x00] n)
      by (now rewrite <- app_assoc).
    rewrite IH.
    + rewrite <- app_assoc, len_app, !len_cons. change (len (@nil (list byte))) with 0.
      change (len (@nil Z)) with 0. cbn [map app Nat.sub]. f_equal. lia.
    + rewrite len_app. change (len [toBigEndian 4 e]) with 1. lia.
    + lia.
Qed.

Lemma len_concat_toBigEndian (encodings : list Z) :
  len (concat (map (toBigEndian 4) encodings)) = len encodings * 4.
Proof.
  induction encodings as [|e encodings IH]; [reflexivity|].
  cbn [map concat]. rewrite len_app, len_toBigEndian, IH, len_cons. lia.
Qed.

(** X20.  [setEncodings] refuses a list longer than the array it copies
    the encodings into, returning [false] with nothing written.  A list that
    fits is sent on an open socket as one SetEncodings message: the type
    byte 2, a zero byte, the number of encodings in 16 bits and each
    encoding in 32 bits, most significant byte first, in the order given;
    nothing else of the object changes. *)
Theorem setEncodings_message (MAX_ENCODINGS : Z) (s : VncClientProtocol)
    (encodings : list Z) :
  0 <= MAX_ENCODINGS < 2 ^ 16 ->
  (MAX_ENCODINGS < len encodings ->
   setEncodings MAX_ENCODINGS s encodings = (false, s))
  /\ (len encodings <= MAX_ENCODINGS ->
      sk_open (m_socket s) = true ->
      setEncodings MAX_ENCODINGS s encodings
      = (true,
         set_socket s
           (mkSocket (sk_in (m_socket s))
              (sk_out (m_socket s)
               ++ [x02; x00] ++ toBigEndian 2 (len encodings)
               ++ concat (map (toBigEndian 4) encodings))
              true))).
Proof.
  intros Hmax. split.
  - intros Hlong. unfold setEncodings.
    destruct (Z.gtb_spec (len encodings) MAX_ENCODINGS); [reflexivity | lia].
  - intros Hfit Hopen. unfold setEncodings.
    destruct (Z.gtb_spec (len encodings) MAX_ENCODINGS); [lia|].
    unfold storeEncodings.
    assert (Hn : (length encodings <= Z.to_nat MAX_ENCODINGS)%nat)
      by (unfold len in Hfit; lia).
    pose proof (storeEncodings_fold encodings [] (Z.to_nat MAX_ENCODINGS)) as Hfold.
    cbn [app] in Hfold. change (len (@nil (list byte))) with 0 in Hfold.
    rewrite Hfold by (try assumption; lia). clear Hfold.
    rewrite Z.add_0_l.
    change (byteOfZ rfbSetEncodings) with x02.
    assert (Hhdr : take sz_rfbSetEncodingsMsg ([x02; x00] ++ toBigEndian 2 (len encodings))
                   = [x02; x00] ++ toBigEndian 2 (len encodings)).
    { apply take_all. rewrite len_app, len_toBigEndian. reflexivity. }
    rewrite Hhdr.
    assert (Hhl : len ([x02; x00] ++ toBigEndian 2 (len encodings)) = sz_rfbSetEncodingsMsg)
      by (rewrite len_app, len_toBigEndian; reflexivity).
    unfold sk_written, sk_write. rewrite Hopen. rewrite Hhl, Z.eqb_refl.
    cbn [m_socket set_socket sk_open sk_in sk_out].
    assert (Hdata : take (len encodings * 4)
                      (concat (map (toBigEndian 4) encodings
                               ++ repeat [x00; x00; x00; x00]
                                    (Z.to_nat MAX_ENCODINGS - length encodings)))
                    = concat (map (toBigEndian 4) encodings)).
    { rewrite concat_app. apply take_app_exact. apply len_concat_toBigEndian. }
    rewrite Hdata, len_concat_toBigEndian, Z.eqb_refl.
    unfold set_socket. cbn. now rewrite <- !app_assoc.
Qed.

Lemma setEncodings_message_witness :
  let s := runningAt x20 640 480 [] in
  0 <= 64 < 2 ^ 16
  /\ len [5; 0; 4294967056] <= 64
  /\ sk_open (m_socket s) = true
  /\ setEncodings 64 s [5; 0; 4294967056]
     = (true,
        set_socket s
          (mkSocket [] [x02; x00; x00; x03;
                        x00; x00; x00; x05; x00; x00; x00; x00; xff; xff; xff; x10] true))
  /\ 2 < len [5; 0; 4294967056]
  /\ setEncodings 2 s [5; 0; 4294967056] = (false, s).
Proof.
  intros s.
  assert (H64 : 0 <= 64 < 2 ^ 16) by (split; [discriminate | reflexivity]).
  assert (H2 : 0 <= 2 < 2 ^ 16) by (split; [discriminate | reflexivity]).
  assert (Hfit : len [5; 0; 4294967056] <= 64) by discriminate.
  assert (Hlong : 2 < len [5; 0; 4294967056]) by reflexivity.
  split; [exact H64|]. split; [exact Hfit|]. split; [reflexivity|]. split.
  - rewrite (proj2 (setEncodings_message 64 s [5; 0; 4294967056] H64) Hfit eq_refl).
    reflexivity.
  - split; [exact Hlong|].
    exact (proj1 (setEncodings_message 2 s [5; 0; 4294967056] H2) Hlong).
Defined.

(** X21.  [setPixelFormat] on an open socket returns [true] and writes one
    SetPixelFormat message of 20 bytes: the type byte 0, three zero bytes
    and the 16 bytes of the format, its three channel maxima in 16 bits,
    most significant byte first, so that maxima below [2^16] read back as
    given.  The pixel format the object itself decodes rectangles with is
    not changed by the call, nor is anything else but the bytes written. *)
Theorem setPixelFormat_message (s : VncClientProtocol) (pixelFormat : rfbPixelFormat) :
  sk_open (m_socket s) = true ->
  let message :=
    [x00; x00; x00; x00;
     pf_bitsPerPixel pixelFormat; pf_depth pixelFormat;
     pf_bigEndian pixelFormat; pf_trueColour pixelFormat]
    ++ toBigEndian 2 (pf_redMax pixelFormat)
    ++ toBigEndian 2 (pf_greenMax pixelFormat)
    ++ toBigEndian 2 (pf_blueMax pixelFormat)
    ++ [pf_redShift pixelFormat; pf_greenShift pixelFormat; pf_blueShift pixelFormat;
        pf_pad1 pixelFormat; fst (pf_pad2 pixelFormat); snd (pf_pad2 pixelFormat)] in
  setPixelFormat s pixelFormat
  = (true,
     set_socket s (mkSocket (sk_in (m_socket s)) (sk_out (m_socket s) ++ message) true))
  /\ len message = 20
  /\ m_pixelFormat (snd (setPixelFormat s pixelFormat)) = m_pixelFormat s
  /\ (0 <= pf_redMax pixelFormat < 2 ^ 16 ->
      qFromBigEndian (field 8 2 message) = pf_redMax pixelFormat)
  /\ (0 <= pf_greenMax pixelFormat < 2 ^ 16 ->
      qFromBigEndian (field 10 2 message) = pf_greenMax pixelFormat)
  /\ (0 <= pf_blueMax pixelFormat < 2 ^ 16 ->
      qFromBigEndian (field 12 2 message) = pf_blueMax pixelFormat).
Proof.
  intros Hopen message.
  assert (Hlen : len message = 20).
  { unfold message. rewrite !len_app, !len_toBigEndian. reflexivity. }
  assert (Hback : forall v, 0 <= v < 2 ^ 16 -> qFromBigEndian (toBigEndian 2 v) = v).
  { intros v Hv. rewrite qFromBigEndian_toBigEndian. apply Z.mod_small.
    change (256 ^ Z.of_nat 2) with (2 ^ 16). assumption. }
  split; [|split; [exact Hlen|split; [reflexivity|]]].
  - unfold setPixelFormat. change (byteOfZ rfbSetPixelFormat) with x00.
    change ([x00; x00; x00; x00]
            ++ [pf_bitsPerPixel pixelFormat; pf_depth pixelFormat;
                pf_bigEndian pixelFormat; pf_trueColour pixelFormat]
            ++ toBigEndian 2 (pf_redMax pixelFormat)
            ++ toBigEndian 2 (pf_greenMax pixelFormat)
            ++ toBigEndian 2 (pf_blueMax pixelFormat)
            ++ [pf_redShift pixelFormat; pf_greenShift pixelFormat;
                pf_blueShift pixelFormat; pf_pad1 pixelFormat;
                fst (pf_pad2 pixelFormat); snd (pf_pad2 pixelFormat)])
      with message.
    rewrite take_all by (rewrite Hlen; reflexivity).
    unfold sk_written, sk_write. now rewrite Hopen, Hlen.
  - split; [|split]; intros Hv; rewrite <- (Hback _ Hv) at 1; reflexivity.
Qed.

Lemma setPixelFormat_message_witness :
  let s := runningAt x08 640 480 [x02] in
  let pixelFormat := mkPixelFormat x20 x18 x00 x01 255 255 1023 x10 x08 x00 x00 (x00, x00) in
  sk_open (m_socket s) = true
  /\ setPixelFormat s pixelFormat
     = (true,
        set_socket s
          (mkSocket [x02]
             [x00; x00; x00; x00; x20; x18; x00; x01;
              x00; xff; x00; xff; x03; xff; x10; x08; x00; x00; x00; x00] true))
  /\ bitsPerPixel (m_pixelFormat (snd (setPixelFormat s pixelFormat))) = 8.
Proof.
  intros s pixelFormat.
  pose proof (setPixelFormat_message s pixelFormat eq_refl) as [H [_ [Hpf _]]].
  split; [reflexivity|]. split.
  - rewrite H. reflexivity.
  - rewrite Hpf. reflexivity.
Defined.

(** X22.  No command writes on a closed socket.  [setPixelFormat] and
    [setEncodings] return [false] and leave the object as it is;
    [requestFramebufferUpdate] closes the socket once more, which leaves a
    closed socket without unread bytes as it is. *)
Theorem commands_on_closed_socket (MAX_ENCODINGS : Z) (s : VncClientProtocol)
    (pixelFormat : rfbPixelFormat) (encodings : list Z) (incremental : bool) :
  sk_open (m_socket s) = false ->
  setPixelFormat s pixelFormat = (false, s)
  /\ setEncodings MAX_ENCODINGS s encodings = (false, s)
  /\ requestFramebufferUpdate s incremental = closeSocket s
  /\ (sk_in (m_socket s) = [] -> requestFramebufferUpdate s incremental = s).
Proof.
  intros Hclosed.
  assert (Hwrite : forall data, sk_write (m_socket s) data = m_socket s)
    by (intros data; unfold sk_write; now rewrite Hclosed).
  assert (Hwritten : forall data, sk_written (m_socket s) data = -1)
    by (intros data; unfold sk_written; now rewrite Hclosed).
  assert (Hs : set_socket s (m_socket s) = s) by (now destruct s).
  assert (Hreq : requestFramebufferUpdate s incremental = closeSocket s).
  { unfold requestFramebufferUpdate. cbv zeta. rewrite Hwritten, Hwrite, Hs. reflexivity. }
  split; [|split; [|split]].
  - unfold setPixelFormat. cbv zeta. rewrite Hwritten, Hwrite, Hs. reflexivity.
  - unfold setEncodings.
    destruct (len encodings >? MAX_ENCODINGS); [reflexivity|].
    destruct (storeEncodings MAX_ENCODINGS encodings) as [encs nEncodings].
    cbv zeta. rewrite Hwritten, Hwrite, Hs. reflexivity.
  - exact Hreq.
  - intros Hin. rewrite Hreq. destruct s as [[inp out op] st pw sim pf fw fh lm lr].
    simpl in *. subst. reflexivity.
Qed.

Lemma commands_on_closed_socket_witness :
  let s := closeSocket (runningAt x20 640 480 [x02]) in
  let pixelFormat := mkPixelFormat x20 x18 x00 x01 255 255 255 x10 x08 x00 x00 (x00, x00) in
  sk_open (m_socket s) = false
  /\ setPixelFormat s pixelFormat = (false, s)
  /\ setEncodings 64 s [5; 0] = (false, s)
  /\ requestFramebufferUpdate s true = s.
Proof.
  intros s pixelFormat.
  pose proof (commands_on_closed_socket 64 s pixelFormat [5; 0] true eq_refl)
    as [Hp [He [_ Hr]]].
  split; [reflexivity|]. split; [exact Hp|]. split; [exact He|]. exact (Hr eq_refl).
Defined.

(** ** The handshake from end to end *)

Section Handshake.

Variable rfbDes : list byte -> list byte -> list byte.

Variables (pw sim pf : list byte) (fw fh : Z) (lm : list byte) (lr : QRect).

Lemma step_protocol (line out : list byte) (minor : Z) :
  matchProtocolVersion line = Some (3, minor) -> 7 <= minor ->
  read rfbDes (mkProtocol (mkSocket line out true) Protocol pw sim pf fw fh lm lr)
  = (true, mkProtocol (mkSocket [] (out ++ line) true) SecurityInit pw sim pf fw fh lm lr).
Proof.
  intros Hm Hminor. unfold read. cbn [m_state].
  assert (H12 : bytesAvailable (mkSocket line out true) = 12).
  { apply matchProtocolVersion_Some in Hm.
    destruct Hm as [a1 [a2 [a3 [b1 [b2 [b3 [-> _]]]]]]]. reflexivity. }
  rewrite readProtocol_twelve by exact H12. cbn [m_socket sk_in sk_out sk_open].
  cbv zeta. rewrite Hm. change (3 =? 3) with true.
  destruct (Z.leb_spec 7 minor); [|lia]. reflexivity.
Qed.

Lemma step_securityTypes (count : byte) (types out : list byte) :
  byteZ count = len types -> In rfbSecTypeVncAuth types ->
  read rfbDes (mkProtocol (mkSocket (count :: types) out true) SecurityInit
                 pw sim pf fw fh lm lr)
  = (true, mkProtocol (mkSocket [] (out ++ [rfbSecTypeVncAuth]) true) SecurityChallenge
             pw sim pf fw fh lm lr).
Proof.
  intros Hcount Hin. unfold read. cbn [m_state].
  assert (Hpos : 0 < len types).
  { destruct types; [destruct Hin|]. rewrite len_cons.
    pose proof (len_nonneg types). lia. }
  unfold receiveSecurityTypes, bytesAvailable, sk_read.
  cbn [m_socket sk_in sk_out sk_open set_socket].
  rewrite len_cons. destruct (Z.geb_spec (1 + len types) 2); [|lia].
  rewrite take_one, drop_one. change (uint8At 0 [count]) with (byteZ count).
  rewrite Hcount. destruct (Z.eqb_spec (len types) 0); [lia|].
  cbn [m_socket sk_in sk_out sk_open set_socket].
  rewrite take_all, drop_all by lia. rewrite Z.eqb_refl. cbn [negb].
  apply contains_In in Hin. rewrite Hin. reflexivity.
Qed.

Lemma step_challenge (challenge out : list byte) :
  len challenge = CHALLENGESIZE ->
  read rfbDes (mkProtocol (mkSocket challenge out true) SecurityChallenge
                 pw sim pf fw fh lm lr)
  = (true,
     mkProtocol
       (mkSocket [] (out ++ take CHALLENGESIZE (vncEncryptBytes rfbDes challenge pw)) true)
       SecurityResult pw sim pf fw fh lm lr).
Proof.
  intros Hlen. unfold read. cbn [m_state].
  unfold receiveSecurityChallenge, bytesAvailable, sk_read.
  cbn [m_socket sk_in sk_out sk_open set_socket m_vncPassword].
  rewrite Hlen. change (CHALLENGESIZE >=? CHALLENGESIZE) with true. cbv iota.
  rewrite (take_all challenge CHALLENGESIZE), (drop_all challenge CHALLENGESIZE)
    by (rewrite Hlen; apply Z.le_refl).
  reflexivity.
Qed.

Lemma step_securityResult (out : list byte) :
  read rfbDes (mkProtocol (mkSocket [x00; x00; x00; x00] out true) SecurityResult
                 pw sim pf fw fh lm lr)
  = (true, mkProtocol (mkSocket [] (out ++ [x01]) true) FramebufferInit
             pw sim pf fw fh lm lr).
Proof. reflexivity. Qed.

Lemma field_app (a b : list byte) (off n : Z) :
  0 <= off -> 0 <= n -> off + n <= len a -> field off n (a ++ b) = field off n a.
Proof.
  intros Hoff Hn0 Hn. unfold field. rewrite drop_app_le by lia.
  apply take_app_le. rewrite len_drop by lia. lia.
Qed.

Lemma step_serverInit (header name out : list byte) :
  len header = sz_rfbServerInitMsg ->
  qFromBigEndian (serverInit_nameLength header) = len name ->
  len name <= 255 ->
  read rfbDes (mkProtocol (mkSocket (header ++ name) out true) FramebufferInit
                 pw sim pf fw fh lm lr)
  = (true,
     mkProtocol (mkSocket [] out true) Running pw (header ++ name)
       (serverInit_format header)
       (qFromBigEndian (serverInit_framebufferWidth header))
       (qFromBigEndian (serverInit_framebufferHeight header)) lm lr).
Proof.
  intros Hlen Hname H255. unfold read. cbn [m_state].
  pose proof (len_nonneg name) as Hn0. change sz_rfbServerInitMsg with 24 in Hlen.
  rewrite receiveServerInitMessage_header
    by (unfold bytesAvailable; cbn [m_socket sk_in]; rewrite len_app, Hlen;
        change sz_rfbServerInitMsg with 24; lia).
  cbn [m_socket sk_in sk_out sk_open]. cbv zeta.
  assert (Hnl : serverInit_nameLength (header ++ name) = serverInit_nameLength header)
    by (apply field_app; [discriminate | discriminate | rewrite Hlen; discriminate]).
  rewrite Hnl, Hname.
  destruct (Z.gtb_spec (len name) 255); [lia|].
  rewrite len_take, len_app, Hlen by lia. rewrite Z.min_l by lia. rewrite Z.eqb_refl.
  change sz_rfbServerInitMsg with 24.
  rewrite uint32_small by (change (2 ^ 32) with 4294967296; lia).
  rewrite take_all, drop_all by (rewrite len_app, Hlen; lia).
  unfold serverInit_format, serverInit_framebufferWidth, serverInit_framebufferHeight.
  rewrite !field_app by (try discriminate; rewrite Hlen; discriminate).
  reflexivity.
Qed.

End Handshake.

(** One chunk that one call consumes whole. *)
Lemma feed_step (rfbDes : list byte -> list byte -> list byte)
    (chunk : list byte) (rest : list (list byte)) (s s' : VncClientProtocol) :
  chunk <> [] ->
  sk_in (m_socket s) = [] -> sk_open (m_socket s) = true ->
  read rfbDes (deliver s chunk) = (true, s') ->
  sk_in (m_socket s') = [] ->
  feed rfbDes (chunk :: rest) s
  = (m_state s' :: fst (feed rfbDes rest s'), snd (feed rfbDes rest s')).
Proof.
  intros Hne Hin Hopen Hread Hin'. cbn [feed].
  assert (Hd : sk_in (m_socket (deliver s chunk)) = chunk).
  { unfold deliver, sk_deliver. rewrite Hopen, Hin. reflexivity. }
  rewrite Hd. destruct chunk as [|c chunk]; [contradiction|].
  cbn [length pump]. rewrite Hread. rewrite (read_empty rfbDes s' Hin').
  destruct (feed rfbDes rest s') as [t2 s3]. reflexivity.
Qed.

(** X23.  The handshake from end to end.  Started on an open socket
    without unread bytes, and fed a version line of a 3.x server with x from
    7 on, a list of security types that offers VNC authentication, a
    16-byte challenge, a security result of zero and a server-init message
    with a name of at most 255 bytes, each as one chunk, the engine passes
    through SecurityInit, SecurityChallenge, SecurityResult and
    FramebufferInit and ends in Running with nothing unread.  It has
    written the version line back, the security type 2, the encrypted
    challenge and the client-init byte 1, in this order, and holds the pixel
    format and geometry of the server-init header. *)
Theorem handshake_completes (rfbDes : list byte -> list byte -> list byte)
    (s : VncClientProtocol)
    (line types challenge header name : list byte) (count : byte) (minor : Z) :
  sk_in (m_socket s) = [] -> sk_open (m_socket s) = true ->
  matchProtocolVersion line = Some (3, minor) -> 7 <= minor ->
  byteZ count = len types -> In rfbSecTypeVncAuth types ->
  len challenge = CHALLENGESIZE ->
  len header = sz_rfbServerInitMsg ->
  qFromBigEndian (serverInit_nameLength header) = len name ->
  len name <= 255 ->
  feed rfbDes [line; count :: types; challenge; [x00; x00; x00; x00]; header ++ name]
    (start s)
  = ([SecurityInit; SecurityChallenge; SecurityResult; FramebufferInit; Running],
     mkProtocol
       (mkSocket []
          (sk_out (m_socket s) ++ line ++ [rfbSecTypeVncAuth]
           ++ take CHALLENGESIZE (vncEncryptBytes rfbDes challenge (m_vncPassword s))
           ++ [x01])
          true)
       Running (m_vncPassword s) (header ++ name) (serverInit_format header)
       (qFromBigEndian (serverInit_framebufferWidth header))
       (qFromBigEndian (serverInit_framebufferHeight header))
       (m_lastMessage s) (m_lastUpdatedRect s)).
Proof.
  intros Hin Hopen Hline Hminor Hcount Htypes Hchal Hhdr Hname H255.
  destruct s as [[inp out op] st pw sim pf fw fh lm lr]. simpl in Hin, Hopen. subst inp op.
  unfold start, set_state. cbn [m_socket m_vncPassword m_serverInitMessage m_pixelFormat
    m_framebufferWidth m_framebufferHeight m_lastMessage m_lastUpdatedRect sk_out].
  assert (Hl : line <> []).
  { intros ->. discriminate Hline. }
  assert (Hc : challenge <> []) by (intros ->; discriminate Hchal).
  assert (Hh : header ++ name <> []).
  { destruct header; [discriminate Hhdr | discriminate]. }
  rewrite (feed_step rfbDes line _
             (mkProtocol (mkSocket [] out true) Protocol pw sim pf fw fh lm lr) _
             Hl eq_refl eq_refl
             (step_protocol rfbDes pw sim pf fw fh lm lr line out minor Hline Hminor)
             eq_refl).
  rewrite (feed_step rfbDes (count :: types) _
             (mkProtocol (mkSocket [] (out ++ line) true) SecurityInit
                pw sim pf fw fh lm lr) _
             ltac:(discriminate) eq_refl eq_refl
             (step_securityTypes rfbDes pw sim pf fw fh lm lr count types (out ++ line)
                Hcount Htypes) eq_refl).
  rewrite (feed_step rfbDes challenge _
             (mkProtocol (mkSocket [] ((out ++ line) ++ [rfbSecTypeVncAuth]) true)
                SecurityChallenge pw sim pf fw fh lm lr) _
             Hc eq_refl eq_refl
             (step_challenge rfbDes pw sim pf fw fh lm lr challenge _ Hchal) eq_refl).
  rewrite (feed_step rfbDes [x00; x00; x00; x00] _
             (mkProtocol
                (mkSocket []
                   (((out ++ line) ++ [rfbSecTypeVncAuth])
                    ++ take CHALLENGESIZE (vncEncryptBytes rfbDes challenge pw)) true)
                SecurityResult pw sim pf fw fh lm lr) _
             ltac:(discriminate) eq_refl eq_refl
             (step_securityResult rfbDes pw sim pf fw fh lm lr _) eq_refl).
  rewrite (feed_step rfbDes (header ++ name) _
             (mkProtocol
                (mkSocket []
                   ((((out ++ line) ++ [rfbSecTypeVncAuth])
                     ++ take CHALLENGESIZE (vncEncryptBytes rfbDes challenge pw))
                    ++ [x01]) true)
                FramebufferInit pw sim pf fw fh lm lr) _
             Hh eq_refl eq_refl
             (step_serverInit rfbDes pw sim pf fw fh lm lr header name _ Hhdr Hname H255)
             eq_refl).
  cbn [feed fst snd m_state]. now rewrite <- !app_assoc.
Qed.

Lemma handshake_completes_witness :
  let s := protocolAt Running [] in
  let challenge := [x00; x01; x02; x03; x04; x05; x06; x07;
                    x08; x09; x0a; x0b; x0c; x0d; x0e; x0f] in
  let header := [x04; x00; x03; x00;
                 x20; x18; x00; x01; x00; xff; x00; xff; x00; xff; x10; x08;
                 x00; x00; x00; x00;
                 x00; x00; x00; x02] in
  matchProtocolVersion version_3_8 = Some (3, 8)
  /\ 7 <= 8
  /\ byteZ x02 = len [x01; x02]
  /\ In rfbSecTypeVncAuth [x01; x02]
  /\ len challenge = CHALLENGESIZE
  /\ len header = sz_rfbServerInitMsg
  /\ qFromBigEndian (serverInit_nameLength header) = len [x68; x69]
  /\ len [x68; x69] <= 255
  /\ feed xorCipher
       [version_3_8; [x02; x01; x02]; challenge; [x00; x00; x00; x00]; header ++ [x68; x69]]
       (start s)
     = ([SecurityInit; SecurityChallenge; SecurityResult; FramebufferInit; Running],
        mkProtocol
          (mkSocket []
             (version_3_8 ++ [x02]
              ++ [x73; x64; x61; x71; x61; x71; x06; x07;
                  x7b; x6c; x69; x79; x69; x79; x0e; x0f]
              ++ [x01])
             true)
          Running [x73; x65; x63; x72; x65; x74] (header ++ [x68; x69])
          [x20; x18; x00; x01; x00; xff; x00; xff; x00; xff; x10; x08; x00; x00; x00; x00]
          1024 768 [] (mkRect 0 0 0 0)).
Proof.
  intros s challenge header.
  assert (H7 : 7 <= 8) by discriminate.
  assert (Hin : In rfbSecTypeVncAuth [x01; x02]) by (right; left; reflexivity).
  assert (H255 : len [x68; x69] <= 255) by discriminate.
  split; [reflexivity|]. split; [exact H7|]. split; [reflexivity|]. split; [exact Hin|].
  split; [reflexivity|]. split; [reflexivity|]. split; [reflexivity|]. split; [exact H255|].
  rewrite (handshake_completes xorCipher s version_3_8 [x01; x02] challenge header
             [x68; x69] x02 8 eq_refl eq_refl eq_refl H7 eq_refl Hin eq_refl eq_refl
             eq_refl H255).
  reflexivity.
Defined.

(** ** The name of the server-init message *)

Lemma take_app_ge {A : Type} (a : list A) :
  forall n b, len a <= n -> take n (a ++ b) = a ++ take (n - len a) b.
Proof.
  induction a as [|x t IH]; intros n b Hn.
  - change (len (@nil A)) with 0. now rewrite Z.sub_0_r.
  - rewrite len_cons in *. pose proof (len_nonneg t). rewrite <- !app_comm_cons.
    change (take n (x :: t ++ b)) with (if 0 <? n then x :: take (n - 1) (t ++ b) else []).
    destruct (Z.ltb_spec 0 n); [|lia].
    rewrite IH by lia. do 3 f_equal. lia.
Qed.

Lemma drop_app_ge {A : Type} (a : list A) :
  forall n b, len a <= n -> drop n (a ++ b) = drop (n - len a) b.
Proof.
  induction a as [|x t IH]; intros n b Hn.
  - change (len (@nil A)) with 0. now rewrite Z.sub_0_r.
  - rewrite len_cons in *. pose proof (len_nonneg t). rewrite <- !app_comm_cons.
    change (drop n (x :: t ++ b)) with (if 0 <? n then drop (n - 1) (t ++ b) else x :: t ++ b).
    destruct (Z.ltb_spec 0 n); [|lia].
    rewrite IH by lia. f_equal. lia.
Qed.

(** X24.  In the FramebufferInit state, with the 24-byte header unread and
    a declared name length of at most 255, [read()] accepts as soon as the
    unread bytes in all, header included, number at least the declared name
    length.  It then takes the header and up to that many bytes behind it as
    the server-init message and enters Running.  With the whole name unread
    the message is the header and the name, and what follows stays unread;
    with only a part of the name unread the message is cut short: it is the
    header and that part, and nothing stays unread. *)
Theorem server_init_name_framing (rfbDes : list byte -> list byte -> list byte)
    (s : VncClientProtocol) (header behind : list byte) :
  m_state s = FramebufferInit ->
  sk_in (m_socket s) = header ++ behind ->
  len header = sz_rfbServerInitMsg ->
  let nameLength := qFromBigEndian (serverInit_nameLength header) in
  nameLength <= 255 ->
  nameLength <= sz_rfbServerInitMsg + len behind ->
  let s' := snd (read rfbDes s) in
  fst (read rfbDes s) = true
  /\ m_state s' = Running
  /\ m_serverInitMessage s' = header ++ take nameLength behind
  /\ sk_in (m_socket s') = drop nameLength behind
  /\ m_pixelFormat s' = serverInit_format header
  /\ m_framebufferWidth s' = qFromBigEndian (serverInit_framebufferWidth header)
  /\ m_framebufferHeight s' = qFromBigEndian (serverInit_framebufferHeight header)
  /\ (len behind < nameLength ->
      m_serverInitMessage s' = header ++ behind /\ sk_in (m_socket s') = []).
Proof.
  intros Hst Hin Hlen nameLength H255 Havail s'. subst s'.
  unfold read. rewrite Hst.
  pose proof (len_nonneg behind) as Hb0. change sz_rfbServerInitMsg with 24 in *.
  assert (Hn0 : 0 <= nameLength) by apply qFromBigEndian_nonneg.
  rewrite receiveServerInitMessage_header
    by (unfold bytesAvailable; rewrite Hin, len_app, Hlen;
        change sz_rfbServerInitMsg with 24; lia).
  cbv zeta. rewrite Hin.
  assert (Hnl : serverInit_nameLength (header ++ behind) = serverInit_nameLength header)
    by (apply field_app; [discriminate | discriminate | rewrite Hlen; discriminate]).
  rewrite Hnl. fold nameLength.
  destruct (Z.gtb_spec nameLength 255); [lia|].
  rewrite len_take, len_app, Hlen by lia. rewrite Z.min_l by lia. rewrite Z.eqb_refl.
  change sz_rfbServerInitMsg with 24.
  rewrite uint32_small by (change (2 ^ 32) with 4294967296; lia).
  rewrite take_app_ge, drop_app_ge by lia. rewrite Hlen.
  replace (24 + nameLength - 24) with nameLength by lia.
  cbn [fst snd m_state m_serverInitMessage m_socket sk_in m_pixelFormat
         m_framebufferWidth m_framebufferHeight set_state set_framebufferSize
         set_serverInitMessage set_socket set_pixelFormat].
  unfold serverInit_format, serverInit_framebufferWidth, serverInit_framebufferHeight.
  rewrite !field_app by (try discriminate; rewrite Hlen; discriminate).
  repeat (split; [reflexivity|]).
  intros Hshort. now rewrite take_all, drop_all by lia.
Qed.

Lemma server_init_name_framing_witness :
  let header := [x04; x00; x03; x00;
                 x20; x18; x00; x01; x00; xff; x00; xff; x00; xff; x10; x08;
                 x00; x00; x00; x00;
                 x00; x00; x00; x1e] in
  let s := protocolAt FramebufferInit (header ++ [x41; x42; x43; x44; x45; x46]) in
  len header = sz_rfbServerInitMsg
  /\ qFromBigEndian (serverInit_nameLength header) = 30
  /\ 30 <= sz_rfbServerInitMsg + len [x41; x42; x43; x44; x45; x46]
  /\ len [x41; x42; x43; x44; x45; x46] < 30
  /\ fst (read xorCipher s) = true
  /\ m_state (snd (read xorCipher s)) = Running
  /\ m_serverInitMessage (snd (read xorCipher s))
     = header ++ [x41; x42; x43; x44; x45; x46]
  /\ sk_in (m_socket (snd (read xorCipher s))) = [].
Proof.
  intros header s.
  assert (H255 : qFromBigEndian (serverInit_nameLength header) <= 255) by discriminate.
  assert (Hav : qFromBigEndian (serverInit_nameLength header)
                <= sz_rfbServerInitMsg + len [x41; x42; x43; x44; x45; x46])
    by discriminate.
  assert (Hshort : len [x41; x42; x43; x44; x45; x46]
                   < qFromBigEndian (serverInit_nameLength header)) by reflexivity.
  pose proof (server_init_name_framing xorCipher s header [x41; x42; x43; x44; x45; x46]
                eq_refl eq_refl eq_refl H255 Hav)
    as [Ht [Hst [_ [_ [_ [_ [_ Hcut]]]]]]].
  destruct (Hcut Hshort) as [Hmsg Hin].
  split; [reflexivity|]. split; [reflexivity|]. split; [exact Hav|]. split; [exact Hshort|].
  split; [exact Ht|]. split; [exact Hst|]. split; [exact Hmsg | exact Hin].
Defined.

(** ** Messages of fixed size *)

(** X25.  A Bell message is 1 byte, a ResizeFrameBuffer message 6 and an
    Xvp message 4.  On a socket within the size bound whose first unread
    byte is one of these types, [receiveMessage] returns [true] exactly
    when the whole message is unread, and then takes just the message off
    the socket; with less unread it returns [false] and changes
    nothing. *)
Theorem fixed_size_messages (MaximumMessageSize : Z) (s : VncClientProtocol)
    (messageType : byte) (rest : list byte) (size : Z) :
  sk_in (m_socket s) = messageType :: rest ->
  bytesAvailable (m_socket s) <= MaximumMessageSize ->
  In (byteZ messageType, size) [(rfbBell, 1); (rfbResizeFrameBuffer, 6); (rfbXvp, 4)] ->
  (fst (receiveMessage MaximumMessageSize s) = true
   <-> size <= bytesAvailable (m_socket s))
  /\ (size <= bytesAvailable (m_socket s) ->
      sk_in (m_socket (snd (receiveMessage MaximumMessageSize s)))
      = drop size (sk_in (m_socket s))
      /\ m_lastMessage (snd (receiveMessage MaximumMessageSize s))
         = take size (sk_in (m_socket s)))
  /\ (bytesAvailable (m_socket s) < size ->
      receiveMessage MaximumMessageSize s = (false, s)).
Proof.
  intros Hin Hmax Htype.
  destruct (receiveMessage_fixed_size MaximumMessageSize s messageType rest size
              Hin Hmax Htype) as [Hiff [Htook Hshort]].
  split; [exact Hiff|]. split; [|exact Hshort].
  intros Hle. destruct (Htook Hle) as [_ [Hi [Hm _]]]. split; assumption.
Qed.

Lemma fixed_size_messages_witness :
  let s := runningAt x20 640 480 [xfa; x00; x01; x02; x02] in
  bytesAvailable (m_socket s) <= 67108864
  /\ In (byteZ xfa, 4) [(rfbBell, 1); (rfbResizeFrameBuffer, 6); (rfbXvp, 4)]
  /\ 4 <= bytesAvailable (m_socket s)
  /\ fst (receiveMessage 67108864 s) = true
  /\ sk_in (m_socket (snd (receiveMessage 67108864 s))) = [x02]
  /\ m_lastMessage (snd (receiveMessage 67108864 s)) = [xfa; x00; x01; x02].
Proof.
  intros s.
  assert (Hmax : bytesAvailable (m_socket s) <= 67108864) by discriminate.
  assert (Hin : In (byteZ xfa, 4) [(rfbBell, 1); (rfbResizeFrameBuffer, 6); (rfbXvp, 4)])
    by (right; right; left; reflexivity).
  assert (H4 : 4 <= bytesAvailable (m_socket s)) by discriminate.
  pose proof (fixed_size_messages 67108864 s xfa [x00; x01; x02; x02] 4 eq_refl Hmax Hin)
    as [Hiff [Htook _]].
  destruct (Htook H4) as [Hi Hm].
  split; [exact Hmax|]. split; [exact Hin|]. split; [exact H4|].
  split; [exact (proj2 Hiff H4)|]. split; [rewrite Hi | rewrite Hm]; reflexivity.
Defined.

(** ** The tiles of a Hextile rectangle *)

Lemma forEach_app {A : Type} (body : A -> QBuffer -> option QBuffer) (l1 l2 : list A)
    (b : QBuffer) :
  forEach (l1 ++ l2) body b = (b1 <- forEach l1 body b ;; forEach l2 body b1).
Proof.
  revert b. induction l1 as [|a l1 IH]; intros b; [reflexivity|].
  cbn [forEach app]. destruct (body a b) as [b1|]; cbn [bind]; [apply IH | reflexivity].
Qed.

Lemma forEach_map {A B : Type} (f : A -> B) (body : B -> QBuffer -> option QBuffer)
    (l : list A) (b : QBuffer) :
  forEach (map f l) body b = forEach l (fun a => body (f a)) b.
Proof.
  revert b. induction l as [|a l IH]; intros b; [reflexivity|].
  cbn [forEach map]. destruct (body (f a) b) as [b1|]; cbn [bind]; [apply IH | reflexivity].
Qed.

Lemma forEach_flat_map {A B : Type} (g : A -> list B)
    (body : B -> QBuffer -> option QBuffer) (l : list A) (b : QBuffer) :
  forEach (flat_map g l) body b = forEach l (fun a => forEach (g a) body) b.
Proof.
  revert b. induction l as [|a l IH]; intros b; [reflexivity|].
  cbn [flat_map forEach]. rewrite forEach_app.
  destruct (forEach (g a) body b) as [b1|]; cbn [bind]; [apply IH | reflexivity].
Qed.

Lemma forEach_ext_in {A : Type} (body1 body2 : A -> QBuffer -> option QBuffer)
    (l : list A) :
  (forall a b, In a l -> body1 a b = body2 a b) ->
  forall b, forEach l body1 b = forEach l body2 b.
Proof.
  induction l as [|a l IH]; intros Hext b; [reflexivity|].
  cbn [forEach]. rewrite (Hext a b) by (left; reflexivity).
  destruct (body2 a b) as [b1|]; cbn [bind]; [|reflexivity].
  apply IH. intros a' b' Hin. apply Hext. now right.
Qed.

(** A loop whose every turn takes exactly its chunk of the buffer takes
    them all. *)
Lemma forEach_chunks {A : Type} (body : A -> QBuffer -> option QBuffer)
    (fits : A -> list byte -> Prop) :
  (forall a chunk t p, fits a chunk ->
     body a (mkBuffer (chunk ++ t) p) = Some (mkBuffer t (p + len chunk))) ->
  forall (l : list A) (chunks : list (list byte)) (t : list byte) (p : Z),
    Forall2 fits l chunks ->
    forEach l body (mkBuffer (concat chunks ++ t) p)
    = Some (mkBuffer t (p + len (concat chunks))).
Proof.
  intros Hbody l chunks t p Hall. revert p.
  induction Hall as [|a chunk l chunks Hfit Hall IH]; intros p.
  - cbn [forEach concat app]. change (len (@nil byte)) with 0. now rewrite Z.add_0_r.
  - cbn [forEach concat]. rewrite <- app_assoc, (Hbody a chunk _ p Hfit). cbn [bind].
    rewrite IH, len_app. f_equal. f_equal. lia.
Qed.

(** The extent the decoder computes for the tile at [start + 16 k] is what
    is left of the rectangle there, and at most 16. *)
Lemma tileExtent_clipped (start extent : Z) (k : nat) :
  0 <= start -> 0 <= extent -> start + extent < 2 ^ 32 ->
  16 * Z.of_nat k < extent ->
  tileExtent (start + extent) (start + 16 * Z.of_nat k)
  = Z.min 16 (extent - 16 * Z.of_nat k).
Proof.
  intros Hs He Hov Hk. unfold tileExtent.
  replace (start + extent - (start + 16 * Z.of_nat k)) with (extent - 16 * Z.of_nat k)
    by lia.
  rewrite uint32_small by lia.
  destruct (Z.ltb_spec (extent - 16 * Z.of_nat k) 16); lia.
Qed.

Lemma tile_index_inside (extent : Z) (k : nat) :
  0 <= extent -> In k (seq 0 (Z.to_nat ((extent + 15) / 16))) ->
  16 * Z.of_nat k < extent.
Proof.
  intros He Hin. apply in_seq in Hin. destruct Hin as [_ Hk]. simpl in Hk.
  apply Nat2Z.inj_lt in Hk. rewrite Z2Nat.id in Hk by (apply Z.div_pos; lia).
  pose proof (Z.mul_div_le (extent + 15) 16 ltac:(lia)). lia.
Qed.

Lemma clippedExtents_bounds (extent v : Z) :
  0 <= extent -> In v (clippedExtents extent) -> 1 <= v <= 16.
Proof.
  intros He Hin. unfold clippedExtents in Hin. apply in_map_iff in Hin.
  destruct Hin as [k [Hv Hk]]. pose proof (tile_index_inside extent k He Hk). lia.
Qed.

(** The tile loop of the decoder goes through the tiles of the rectangle,
    each with its clipped width and height. *)
Lemma handleRectEncodingHextile_tiles (buffer : QBuffer)
    (rectHeader : rfbFramebufferUpdateRectHeader) (bytesPerPixel : Z) :
  0 <= rh_x rectHeader < 2 ^ 16 -> 0 <= rh_y rectHeader < 2 ^ 16 ->
  0 <= rh_w rectHeader < 2 ^ 16 -> 0 <= rh_h rectHeader < 2 ^ 16 ->
  handleRectEncodingHextile buffer rectHeader bytesPerPixel
  = forEach (hextileTiles (rh_w rectHeader) (rh_h rectHeader))
      (fun tile => hextileTile (fst tile) (snd tile) bytesPerPixel) buffer.
Proof.
  intros Hx Hy Hw Hh. change (2 ^ 16) with 65536 in *.
  unfold handleRectEncodingHextile, hextileTiles, clippedExtents, tileStarts. cbv zeta.
  rewrite forEach_flat_map, !forEach_map.
  apply forEach_ext_in. intros j b Hj.
  rewrite !forEach_map. apply forEach_ext_in. intros i b' Hi. cbn [fst snd].
  rewrite tileExtent_clipped
    by (try apply tile_index_inside; try assumption;
        change (2 ^ 32) with 4294967296; lia).
  rewrite tileExtent_clipped
    by (try apply tile_index_inside; try assumption;
        change (2 ^ 32) with 4294967296; lia).
  reflexivity.
Qed.

(** A tile with the raw bit in its flag: the flag and the pixels are read,
    and nothing else. *)
Lemma hextileTile_raw (w h bytesPerPixel : Z) (buffer : QBuffer)
    (flag : byte) (rest : list byte) :
  buf_rest buffer = flag :: rest ->
  flagSet (byteZ flag) rfbHextileRaw = true ->
  0 <= w <= 16 -> 0 <= h <= 16 -> 0 <= bytesPerPixel <= 31 ->
  hextileTile w h bytesPerPixel buffer
  = (if w * h * bytesPerPixel <=? len rest
     then Some (mkBuffer (drop (w * h * bytesPerPixel) rest)
                  (buf_pos buffer + 1 + w * h * bytesPerPixel))
     else None).
Proof.
  intros Hrest Hraw Hw Hh Hbpp.
  assert (Hwh : 0 <= w * h <= 256) by nia.
  assert (Hsize : 0 <= w * h * bytesPerPixel < 2 ^ 31)
    by (change (2 ^ 31) with 2147483648; nia).
  unfold hextileTile.
  rewrite (readExact_app buffer [flag] rest 1 Hrest eq_refl). cbn [bind].
  change (uint8At 0 [flag]) with (byteZ flag). rewrite Hraw.
  rewrite toInt_small by assumption. rewrite skipExact_spec by lia. reflexivity.
Qed.

Lemma total_app (a b : list Z) : total (a ++ b) = total a + total b.
Proof.
  unfold total. induction a as [|x a IH]; [reflexivity|].
  cbn [app fold_right]. rewrite IH. lia.
Qed.

Lemma total_scaled (c : Z) (l : list Z) : total (map (fun v => v * c) l) = total l * c.
Proof.
  unfold total. induction l as [|x l IH]; [reflexivity|].
  cbn [map fold_right]. rewrite IH. lia.
Qed.

(** The clipped extents add up to the extent: the tiles cover the rectangle
    and nothing more. *)
Lemma total_clippedExtents (extent : Z) : 0 <= extent -> total (clippedExtents extent) = extent.
Proof.
  intros He. unfold clippedExtents.
  assert (Hfull : forall m : nat,
             16 * Z.of_nat m <= extent ->
             total (map (fun k : nat => Z.min 16 (extent - 16 * Z.of_nat k)) (seq 0 m))
             = 16 * Z.of_nat m).
  { induction m as [|m IH]; intros Hm; [reflexivity|].
    rewrite seq_S, map_app, total_app, IH by lia. cbn [map total fold_right Nat.add]. lia. }
  destruct (Z.to_nat ((extent + 15) / 16)) as [|m] eqn:En.
  - assert ((extent + 15) / 16 <= 0).
    { destruct (Z.le_gt_cases ((extent + 15) / 16) 0); [assumption|].
      apply (f_equal Z.of_nat) in En. rewrite Z2Nat.id in En by lia. simpl in En. lia. }
    assert (extent + 15 < 16)
      by (apply Z.div_lt_upper_bound in H as _ || idtac;
          pose proof (Z.div_mod (extent + 15) 16 ltac:(lia));
          pose proof (Z.mod_pos_bound (extent + 15) 16 ltac:(lia)); lia).
    pose proof (Z.div_mod (extent + 15) 16 ltac:(lia)).
    pose proof (Z.mod_pos_bound (extent + 15) 16 ltac:(lia)).
    cbn [seq map total fold_right].
    assert (extent = 0 \/ 1 <= extent) as [->|Hpos] by lia; [reflexivity|].
    assert (1 <= (extent + 15) / 16) by (apply Z.div_le_lower_bound; lia). lia.
  - assert (Hq : (extent + 15) / 16 = Z.of_nat (S m)).
    { rewrite <- En. symmetry. apply Z2Nat.id. apply Z.div_pos; lia. }
    pose proof (Z.mul_div_le (extent + 15) 16 ltac:(lia)) as Hlo.
    pose proof (Z.mod_pos_bound (extent + 15) 16 ltac:(lia)) as Hmod.
    pose proof (Z.div_mod (extent + 15) 16 ltac:(lia)) as Hdm.
    rewrite Hq in Hlo, Hdm. rewrite Nat2Z.inj_succ in Hlo, Hdm.
    rewrite seq_S, map_app, total_app, Hfull by lia.
    cbn [map total fold_right Nat.add]. lia.
Qed.

Lemma total_hextileTiles (w h : Z) :
  0 <= w -> 0 <= h ->
  total (map (fun tile => fst tile * snd tile) (hextileTiles w h)) = w * h.
Proof.
  intros Hw Hh. unfold hextileTiles.
  transitivity (total (clippedExtents w) * total (clippedExtents h));
    [|now rewrite !total_clippedExtents].
  induction (clippedExtents h) as [|th rows IH]; [unfold total; simpl; lia|].
  cbn [flat_map]. rewrite map_app, total_app, IH, map_map. cbn [fst snd].
  rewrite total_scaled. unfold total. cbn [fold_right]. lia.
Qed.

Lemma Forall2_with_In {A B : Type} (P : A -> B -> Prop) (all : list A) :
  forall (l : list A) (l2 : list B),
    Forall2 P l l2 -> (forall a, In a l -> In a all) ->
    Forall2 (fun a b => In a all /\ P a b) l l2.
Proof.
  intros l l2 Hall. induction Hall as [|a b l l2 Hab Hall IH]; intros Hsub; constructor.
  - split; [apply Hsub; now left | exact Hab].
  - apply IH. intros a' Ha'. apply Hsub. now right.
Qed.

(** C9.  The Hextile decoder goes through the tiles of a rectangle in
    rows of 16 lines and columns of 16, each tile decoded at its clipped
    width and height, which are between 1 and 16 and together cover the
    rectangle exactly.  For a tile whose flag byte has the raw bit set, the
    byte 1 with only that bit for one, it reads the flag and exactly
    [w * h * bytesPerPixel] bytes of pixels, [w] and [h] being the clipped
    width and height of the tile, and no background, foreground or
    subrectangle field: it fails when fewer bytes are left.  So a rectangle
    all of whose tiles are sent raw is consumed whole, flag and pixels tile
    after tile, and what follows it is left in the buffer. *)
Theorem hextile_raw_tile (buffer : QBuffer) (rectHeader : rfbFramebufferUpdateRectHeader)
    (bytesPerPixel : Z) :
  let tiles := hextileTiles (rh_w rectHeader) (rh_h rectHeader) in
  0 <= rh_x rectHeader < 2 ^ 16 -> 0 <= rh_y rectHeader < 2 ^ 16 ->
  0 <= rh_w rectHeader < 2 ^ 16 -> 0 <= rh_h rectHeader < 2 ^ 16 ->
  0 <= bytesPerPixel <= 31 ->
  handleRectEncodingHextile buffer rectHeader bytesPerPixel
  = forEach tiles (fun tile => hextileTile (fst tile) (snd tile) bytesPerPixel) buffer
  /\ (forall tile, In tile tiles -> 1 <= fst tile <= 16 /\ 1 <= snd tile <= 16)
  /\ total (map (fun tile => fst tile * snd tile) tiles) = rh_w rectHeader * rh_h rectHeader
  /\ (forall tile b flag rest,
        In tile tiles ->
        buf_rest b = flag :: rest ->
        flagSet (byteZ flag) rfbHextileRaw = true ->
        hextileTile (fst tile) (snd tile) bytesPerPixel b
        = if fst tile * snd tile * bytesPerPixel <=? len rest
          then Some (mkBuffer (drop (fst tile * snd tile * bytesPerPixel) rest)
                       (buf_pos b + 1 + fst tile * snd tile * bytesPerPixel))
          else None)
  /\ (forall chunks tail,
        Forall2 (rawTile bytesPerPixel) tiles chunks ->
        buf_rest buffer = concat chunks ++ tail ->
        handleRectEncodingHextile buffer rectHeader bytesPerPixel
        = Some (mkBuffer tail (buf_pos buffer + len (concat chunks)))
        /\ len (concat chunks)
           = len tiles + rh_w rectHeader * rh_h rectHeader * bytesPerPixel).
Proof.
  intros tiles Hx Hy Hw Hh Hbpp.
  assert (Hbounds : forall tile, In tile tiles -> 1 <= fst tile <= 16 /\ 1 <= snd tile <= 16).
  { intros [tw th] Hin. unfold tiles, hextileTiles in Hin. apply in_flat_map in Hin.
    destruct Hin as [th' [Hth Hin]]. apply in_map_iff in Hin.
    destruct Hin as [tw' [Heq Htw]]. inversion Heq; subst tw' th'. cbn [fst snd].
    split; [apply (clippedExtents_bounds (rh_w rectHeader)) |
            apply (clippedExtents_bounds (rh_h rectHeader))]; (lia || assumption). }
  assert (Hloop := handleRectEncodingHextile_tiles buffer rectHeader bytesPerPixel
                     Hx Hy Hw Hh).
  fold tiles in Hloop.
  assert (Harea : total (map (fun tile => fst tile * snd tile) tiles)
                  = rh_w rectHeader * rh_h rectHeader)
    by (apply total_hextileTiles; lia).
  split; [exact Hloop|]. split; [exact Hbounds|]. split; [exact Harea|]. split.
  - intros tile b flag rest Hin Hrest Hraw. destruct (Hbounds tile Hin).
    apply (hextileTile_raw _ _ _ b flag rest Hrest Hraw); lia.
  - intros chunks tail Hchunks Hrest.
    assert (Hfits : Forall2 (fun tile chunk => In tile tiles /\ rawTile bytesPerPixel tile chunk)
                      tiles chunks).
    { apply Forall2_with_In; [exact Hchunks | auto]. }
    split.
    + rewrite Hloop. destruct buffer as [r p]. cbn [buf_rest buf_pos] in *. subst r.
      apply (forEach_chunks
               (fun tile => hextileTile (fst tile) (snd tile) bytesPerPixel)
               (fun tile chunk => In tile tiles /\ rawTile bytesPerPixel tile chunk));
        [|exact Hfits].
      intros tile chunk t p' [Hin [flag [pixels [-> [Hraw Hlen]]]]].
      destruct (Hbounds tile Hin).
      rewrite (hextileTile_raw (fst tile) (snd tile) bytesPerPixel
                 (mkBuffer ((flag :: pixels) ++ t) p') flag (pixels ++ t) eq_refl Hraw)
        by lia.
      rewrite len_app, <- Hlen. pose proof (len_nonneg pixels). pose proof (len_nonneg t).
      destruct (Z.leb_spec (len pixels) (len pixels + len t)); [|lia].
      rewrite drop_app_exact by reflexivity. cbn [buf_pos]. rewrite len_cons.
      f_equal. f_equal. lia.
    + rewrite <- Harea. clear - Hchunks.
      induction Hchunks as [|t c l cs Hf Hall IH].
      * reflexivity.
      * destruct Hf as [flag [pixels [-> [_ Hlen]]]].
        cbn [concat map total fold_right]. fold (total (map (fun tile => fst tile * snd tile) l)).
        rewrite len_app, !len_cons, IH, Hlen. lia.
Qed.

Lemma hextile_raw_tile_witness :
  let rectHeader := mkRectHeader 10 20 20 3 rfbEncodingHextile in
  let chunks := [x01 :: repeat xaa 48; x01 :: repeat xbb 12] in
  let buffer := mkBuffer (concat chunks ++ [xee]) 16 in
  0 <= 10 < 2 ^ 16 /\ 0 <= 20 < 2 ^ 16 /\ 0 <= 3 < 2 ^ 16 /\ 0 <= 1 <= 31
  /\ hextileTiles 20 3 = [(16, 3); (4, 3)]
  /\ Forall2 (rawTile 1) (hextileTiles 20 3) chunks
  /\ handleRectEncodingHextile buffer rectHeader 1 = Some (mkBuffer [xee] 78).
Proof.
  intros rectHeader chunks buffer.
  assert (H10 : 0 <= 10 < 2 ^ 16) by (split; [discriminate | reflexivity]).
  assert (H20 : 0 <= 20 < 2 ^ 16) by (split; [discriminate | reflexivity]).
  assert (H3 : 0 <= 3 < 2 ^ 16) by (split; [discriminate | reflexivity]).
  assert (H1 : 0 <= 1 <= 31) by (split; discriminate).
  assert (Hraw : Forall2 (rawTile 1) (hextileTiles 20 3) chunks).
  { change (hextileTiles 20 3) with [(16, 3); (4, 3)].
    constructor; [|constructor; [|constructor]].
    - exists x01, (repeat xaa 48). repeat split.
    - exists x01, (repeat xbb 12). repeat split. }
  split; [exact H10|]. split; [exact H20|]. split; [exact H3|]. split; [exact H1|].
  split; [reflexivity|]. split; [exact Hraw|].
  exact (proj1 (proj2 (proj2 (proj2 (proj2
           (hextile_raw_tile buffer rectHeader 1 H10 H20 H20 H3 H1))))
           chunks [xee] Hraw eq_refl)).
Defined.

(** ** The Running state: what a call consumes *)





















(** ** The updated rectangle of a framebuffer update *)

(** The statement that adds to the region adds the rectangles that count,
    and no other. *)
Lemma addUpdatedRect_counts (s : VncClientProtocol) (rg : QRegion)
    (h : rfbFramebufferUpdateRectHeader) :
  addUpdatedRect s rg h
  = rg ++ (if countsForUpdate (m_framebufferWidth s) (m_framebufferHeight s) h
           then [rectOf h] else []).
Proof.
  unfold addUpdatedRect, countsForUpdate, region_add, rect_isEmpty, rectOf. cbn [r_w r_h].
  destruct (negb (isPseudoEncoding h)); cbn [andb]; [|now rewrite app_nil_r].
  destruct (Z.leb_spec (rh_x h + rh_w h) (m_framebufferWidth s));
    destruct (Z.leb_spec (rh_y h + rh_h h) (m_framebufferHeight s));
    destruct (Z.ltb_spec 0 (rh_w h)); destruct (Z.ltb_spec 0 (rh_h h));
    destruct (Z.leb_spec (rh_w h) 0); destruct (Z.leb_spec (rh_h h) 0);
    cbn [andb orb]; try lia; try reflexivity; now rewrite app_nil_r.
Qed.

(** The region the loop builds holds the rectangles it decoded that count,
    in order. *)
Lemma updateRects_region (n : nat) :
  forall (s : VncClientProtocol) (b : QBuffer) (rg : QRegion) (b' : QBuffer)
         (rg' : QRegion) (s' : VncClientProtocol),
    updateRects n s b rg = (Some (b', rg'), s') ->
    rg' = rg ++ map rectOf
                  (filter (countsForUpdate (m_framebufferWidth s) (m_framebufferHeight s))
                     (decodedRects n s b)).
Proof.
  induction n as [|n IH]; intros s b rg b' rg' s' H.
  - simpl in H. inversion H; subst. cbn. now rewrite app_nil_r.
  - cbn [updateRects decodedRects] in *.
    destruct (readExact b sz_rfbFramebufferUpdateRectHeader) as [[hdr b1]|];
      [|discriminate].
    cbv zeta.
    destruct (rh_encoding (decodeRectHeader hdr) =? rfbEncodingLastRect).
    { inversion H; subst. cbn. now rewrite app_nil_r. }
    destruct (handleRect_state s b1 (decodeRectHeader hdr)) as [Hs|Hc];
      [|rewrite Hc in H; discriminate].
    destruct (handleRect s b1 (decodeRectHeader hdr)) as [[b2|] s1]; [|discriminate].
    cbn [snd] in Hs. subst s1.
    rewrite (IH _ _ _ _ _ _ H), addUpdatedRect_counts, <- app_assoc. f_equal.
    cbn [filter].
    destruct (countsForUpdate (m_framebufferWidth s) (m_framebufferHeight s)
                (decodeRectHeader hdr)); reflexivity.
Qed.

(** After an accepted framebuffer update the updated rectangle is the
    bounding rectangle of the rectangles of the update that count. *)
Lemma receiveFramebufferUpdateMessage_rect (s : VncClientProtocol) :
  fst (receiveFramebufferUpdateMessage s) = true ->
  m_lastUpdatedRect (snd (receiveFramebufferUpdateMessage s))
  = boundingRect
      (map rectOf
         (filter (countsForUpdate (m_framebufferWidth s) (m_framebufferHeight s))
            (updateRectsOf s))).
Proof.
  unfold receiveFramebufferUpdateMessage, updateRectsOf.
  destruct (readExact (buf_open (sk_peek (m_socket s) (bytesAvailable (m_socket s))))
              sz_rfbFramebufferUpdateMsg) as [[message b1]|]; [|discriminate].
  destruct (updateRects (Z.to_nat (qFromBigEndian (field 2 2 message))) s b1 [])
    as [[[b2 rg]|] s1] eqn:Eu; [|discriminate].
  assert (Hs1 : s1 = s).
  { destruct (updateRects_state (Z.to_nat (qFromBigEndian (field 2 2 message))) s b1 [])
      as [Hs|Hc].
    - now rewrite Eu in Hs.
    - rewrite Eu in Hc. discriminate. }
  subst s1. rewrite (updateRects_region _ _ _ _ _ _ _ Eu). cbn [app].
  rewrite readMessage_cases.
  destruct ((0 <=? toInt (buf_pos b2)) && _); [|discriminate]. reflexivity.
Qed.

Lemma decodedRects_raw (n : nat) (s : VncClientProtocol) (buffer : QBuffer)
    (hdr pixels tail : list byte) :
  buf_rest buffer = hdr ++ pixels ++ tail ->
  len hdr = sz_rfbFramebufferUpdateRectHeader ->
  rh_encoding (decodeRectHeader hdr) = rfbEncodingRaw ->
  len pixels = rh_w (decodeRectHeader hdr) * rh_h (decodeRectHeader hdr)
               * (bitsPerPixel (m_pixelFormat s) / 8) ->
  len pixels < 2 ^ 31 ->
  decodedRects (S n) s buffer
  = decodeRectHeader hdr
    :: decodedRects n s
         (mkBuffer tail (buf_pos buffer + sz_rfbFramebufferUpdateRectHeader + len pixels)).
Proof.
  intros Hrest Hhdr Henc Hpix Hsmall. cbn [decodedRects].
  pose proof (len_nonneg pixels) as Hp0.
  rewrite (readExact_app buffer hdr (pixels ++ tail) _ Hrest Hhdr). cbv zeta.
  rewrite Henc. change (rfbEncodingRaw =? rfbEncodingLastRect) with false. cbv iota.
  rewrite handleRect_raw by assumption. rewrite <- Hpix.
  rewrite readUInt_spec by lia. unfold skipExact.
  now rewrite (readExact_mk pixels tail _ (len pixels) eq_refl).
Qed.

Lemma decodedRects_no_payload (n : nat) (s : VncClientProtocol) (buffer : QBuffer)
    (hdr tail : list byte) :
  buf_rest buffer = hdr ++ tail ->
  len hdr = sz_rfbFramebufferUpdateRectHeader ->
  In (rh_encoding (decodeRectHeader hdr))
     [rfbEncodingPointerPos; rfbEncodingKeyboardLedState; rfbEncodingNewFBSize] ->
  decodedRects (S n) s buffer
  = decodeRectHeader hdr
    :: decodedRects n s (mkBuffer tail (buf_pos buffer + sz_rfbFramebufferUpdateRectHeader)).
Proof.
  intros Hrest Hhdr Henc. cbn [decodedRects].
  rewrite (readExact_app buffer hdr tail _ Hrest Hhdr). cbv zeta.
  unfold handleRect.
  destruct Henc as [He|[He|[He|[]]]]; rewrite <- He; reflexivity.
Qed.

Lemma updateRectsOf_header (s : VncClientProtocol) (pad n1 n2 : byte) (tail : list byte) :
  sk_in (m_socket s) = [x00; pad; n1; n2] ++ tail ->
  updateRectsOf s
  = decodedRects (Z.to_nat (qFromBigEndian [n1; n2])) s
      (mkBuffer tail sz_rfbFramebufferUpdateMsg).
Proof.
  intros Hin. unfold updateRectsOf, sk_peek.
  rewrite take_all by (unfold bytesAvailable; lia). rewrite Hin.
  now rewrite (readExact_app (buf_open ([x00; pad; n1; n2] ++ tail)) [x00; pad; n1; n2]
                 tail sz_rfbFramebufferUpdateMsg eq_refl eq_refl).
Qed.

(** A framebuffer update whose rectangles the loop gets through to the end
    of [body] is taken off the socket, header and [body]. *)
Lemma receiveMessage_update (MaximumMessageSize : Z) (s : VncClientProtocol)
    (pad n1 n2 : byte) (body rest : list byte) (rg : QRegion) :
  sk_in (m_socket s) = ([x00; pad; n1; n2] ++ body) ++ rest ->
  bytesAvailable (m_socket s) <= MaximumMessageSize ->
  MaximumMessageSize < 2 ^ 31 ->
  updateRects (Z.to_nat (qFromBigEndian [n1; n2])) s
    (mkBuffer (body ++ rest) sz_rfbFramebufferUpdateMsg) []
  = (Some (mkBuffer rest (sz_rfbFramebufferUpdateMsg + len body), rg), s) ->
  receiveMessage MaximumMessageSize s
  = (true,
     set_lastMessage
       (set_socket (set_lastUpdatedRect s (boundingRect rg))
          (mkSocket rest (sk_out (m_socket s)) (sk_open (m_socket s))))
       ([x00; pad; n1; n2] ++ body)).
Proof.
  intros Hin Hmax Hint Hloop.
  assert (Hin' : sk_in (m_socket s) = x00 :: [pad; n1; n2] ++ body ++ rest)
    by (rewrite Hin, <- app_assoc; reflexivity).
  rewrite (receiveMessage_dispatch MaximumMessageSize s x00 _ Hmax Hin').
  change (byteZ x00 =? rfbFramebufferUpdate) with true. cbv iota.
  unfold receiveFramebufferUpdateMessage, sk_peek.
  rewrite take_all by (unfold bytesAvailable; lia).
  rewrite Hin, <- app_assoc.
  rewrite (readExact_app (buf_open ([x00; pad; n1; n2] ++ body ++ rest)) [x00; pad; n1; n2]
             (body ++ rest) sz_rfbFramebufferUpdateMsg eq_refl eq_refl).
  change (field 2 2 [x00; pad; n1; n2]) with [n1; n2].
  cbn [buf_open buf_pos]. change (0 + sz_rfbFramebufferUpdateMsg)
    with sz_rfbFramebufferUpdateMsg.
  rewrite Hloop. cbn [buf_pos].
  assert (Hlen : len (([x00; pad; n1; n2] ++ body) ++ rest) = 4 + len body + len rest).
  { rewrite !len_app. reflexivity. }
  pose proof (len_nonneg body) as Hb0. pose proof (len_nonneg rest) as Hr0.
  unfold bytesAvailable in Hmax. rewrite Hin, Hlen in Hmax.
  change sz_rfbFramebufferUpdateMsg with 4.
  rewrite toInt_small by lia. rewrite readMessage_cases.
  change (m_socket (set_lastUpdatedRect s (boundingRect rg))) with (m_socket s).
  unfold bytesAvailable. rewrite Hin, Hlen.
  destruct (Z.leb_spec 0 (4 + len body)); [|lia].
  destruct (Z.leb_spec (4 + len body) (4 + len body + len rest)); [|lia].
  cbn [andb].
  assert (Hm : len ([x00; pad; n1; n2] ++ body) = 4 + len body)
    by (rewrite len_app; reflexivity).
  rewrite take_app_exact, drop_app_exact by assumption. reflexivity.
Qed.

(** The bounding rectangle of two rectangles that are not empty is the
    smallest rectangle that covers both. *)
Lemma rect_united_smallest (a b q : QRect) :
  0 < r_w a -> 0 < r_h a -> 0 < r_w b -> 0 < r_h b ->
  (forall px py, rect_contains a px py \/ rect_contains b px py -> rect_contains q px py) ->
  forall px py, rect_contains (rect_united a b) px py -> rect_contains q px py.
Proof.
  intros Hwa Hha Hwb Hhb Hcover px py.
  pose proof (Hcover (r_x a) (r_y a)) as Ha1.
  pose proof (Hcover (r_x a + r_w a - 1) (r_y a + r_h a - 1)) as Ha2.
  pose proof (Hcover (r_x b) (r_y b)) as Hb1.
  pose proof (Hcover (r_x b + r_w b - 1) (r_y b + r_h b - 1)) as Hb2.
  unfold rect_contains, rect_united in *. cbn [r_x r_y r_w r_h] in *.
  specialize (Ha1 ltac:(left; lia)). specialize (Ha2 ltac:(left; lia)).
  specialize (Hb1 ltac:(right; lia)). specialize (Hb2 ltac:(right; lia)). lia.
Qed.

(** C4, as the code has it.  After a framebuffer update is taken off the
    socket, the rectangle exposed as [m_lastUpdatedRect] is the bounding
    rectangle of the rectangles of the update that count: those that are not
    of a pseudo-encoding, are not empty and lie inside the framebuffer.  So
    a rectangle of a pseudo-encoding, PointerPos for one, adds nothing,
    wherever it lies, and neither does a rectangle that does not lie inside
    the framebuffer.  For an update of two Raw rectangles: when both count,
    the exposed rectangle is the smallest rectangle that covers the two,
    which holds every point of their union; when one counts, it is that
    one; when none does, it is the null rectangle.  For an update of a Raw
    rectangle and a PointerPos, KeyboardLedState or NewFBSize rectangle it
    is what the Raw rectangle alone gives. *)
Theorem framebuffer_update_two_raw (MaximumMessageSize : Z) (s : VncClientProtocol) :
  bytesAvailable (m_socket s) <= MaximumMessageSize ->
  MaximumMessageSize < 2 ^ 31 ->
  let bytesPerPixel := bitsPerPixel (m_pixelFormat s) / 8 in
  let counts := countsForUpdate (m_framebufferWidth s) (m_framebufferHeight s) in
  let r := receiveMessage MaximumMessageSize s in
  (uint8At 0 (sk_in (m_socket s)) = rfbFramebufferUpdate -> fst r = true ->
   m_lastUpdatedRect (snd r)
   = boundingRect (map rectOf (filter counts (updateRectsOf s))))
  /\ (forall (pad : byte) (hdr1 pixels1 hdr2 pixels2 rest : list byte),
        let r1 := decodeRectHeader hdr1 in
        let r2 := decodeRectHeader hdr2 in
        let message := [x00; pad; x00; x02] ++ hdr1 ++ pixels1 ++ hdr2 ++ pixels2 in
        sk_in (m_socket s) = message ++ rest ->
        len hdr1 = sz_rfbFramebufferUpdateRectHeader ->
        len hdr2 = sz_rfbFramebufferUpdateRectHeader ->
        rh_encoding r1 = rfbEncodingRaw ->
        rh_encoding r2 = rfbEncodingRaw ->
        len pixels1 = rh_w r1 * rh_h r1 * bytesPerPixel ->
        len pixels2 = rh_w r2 * rh_h r2 * bytesPerPixel ->
        fst r = true
        /\ sk_in (m_socket (snd r)) = rest
        /\ m_lastMessage (snd r) = message
        /\ updateRectsOf s = [r1; r2]
        /\ m_lastUpdatedRect (snd r) = boundingRect (map rectOf (filter counts [r1; r2]))
        /\ (counts r1 = true -> counts r2 = true ->
            m_lastUpdatedRect (snd r) = rect_united (rectOf r1) (rectOf r2)
            /\ (forall px py,
                  rect_contains (rectOf r1) px py \/ rect_contains (rectOf r2) px py ->
                  rect_contains (m_lastUpdatedRect (snd r)) px py)
            /\ (forall q,
                  (forall px py,
                     rect_contains (rectOf r1) px py \/ rect_contains (rectOf r2) px py ->
                     rect_contains q px py) ->
                  forall px py,
                    rect_contains (m_lastUpdatedRect (snd r)) px py ->
                    rect_contains q px py))
        /\ (counts r1 = true -> counts r2 = false ->
            m_lastUpdatedRect (snd r) = rectOf r1)
        /\ (counts r1 = false -> counts r2 = true ->
            m_lastUpdatedRect (snd r) = rectOf r2)
        /\ (counts r1 = false -> counts r2 = false ->
            m_lastUpdatedRect (snd r) = mkRect 0 0 0 0))
  /\ (forall (pad : byte) (hdr1 pixels1 hdrP rest : list byte),
        let r1 := decodeRectHeader hdr1 in
        let rP := decodeRectHeader hdrP in
        let message := [x00; pad; x00; x02] ++ hdr1 ++ pixels1 ++ hdrP in
        sk_in (m_socket s) = message ++ rest ->
        len hdr1 = sz_rfbFramebufferUpdateRectHeader ->
        len hdrP = sz_rfbFramebufferUpdateRectHeader ->
        rh_encoding r1 = rfbEncodingRaw ->
        In (rh_encoding rP)
           [rfbEncodingPointerPos; rfbEncodingKeyboardLedState; rfbEncodingNewFBSize] ->
        len pixels1 = rh_w r1 * rh_h r1 * bytesPerPixel ->
        fst r = true
        /\ sk_in (m_socket (snd r)) = rest
        /\ updateRectsOf s = [r1; rP]
        /\ isPseudoEncoding rP = true
        /\ m_lastUpdatedRect (snd r) = boundingRect (map rectOf (filter counts [r1]))).
Proof.
  intros Hmax Hint bytesPerPixel counts r.
  split; [|split].
  - intros Htype Htrue. unfold r in *.
    destruct (sk_in (m_socket s)) as [|t rest] eqn:Hin.
    { unfold receiveMessage, sk_peek in Htrue. rewrite Hin in Htrue.
      destruct (bytesAvailable (m_socket s) >? MaximumMessageSize); discriminate. }
    change (uint8At 0 (t :: rest)) with (byteZ t) in Htype.
    rewrite (receiveMessage_dispatch MaximumMessageSize s t rest Hmax Hin) in *.
    rewrite Htype in *. change (rfbFramebufferUpdate =? rfbFramebufferUpdate) with true in *.
    cbv iota in *. now apply receiveFramebufferUpdateMessage_rect.
  - intros pad hdr1 pixels1 hdr2 pixels2 rest r1 r2 message Hin Hh1 Hh2 He1 He2 Hp1 Hp2.
    pose proof (len_nonneg pixels1) as Hp10. pose proof (len_nonneg pixels2) as Hp20.
    pose proof (len_nonneg rest) as Hr0.
    assert (Hav : bytesAvailable (m_socket s)
                  = 4 + 12 + len pixels1 + 12 + len pixels2 + len rest).
    { unfold bytesAvailable. rewrite Hin. unfold message. rewrite !len_app.
      change (len [x00; pad; x00; x02]) with 4.
      change sz_rfbFramebufferUpdateRectHeader with 12 in *. lia. }
    set (region := addUpdatedRect s (addUpdatedRect s [] r1) r2).
    assert (Hloop : updateRects (Z.to_nat (qFromBigEndian [x00; x02])) s
                      (mkBuffer ((hdr1 ++ pixels1 ++ hdr2 ++ pixels2) ++ rest)
                         sz_rfbFramebufferUpdateMsg) []
                    = (Some (mkBuffer rest
                               (sz_rfbFramebufferUpdateMsg
                                + len (hdr1 ++ pixels1 ++ hdr2 ++ pixels2)), region), s)).
    { change (Z.to_nat (qFromBigEndian [x00; x02])) with 2%nat.
      rewrite <- !app_assoc.
      rewrite (updateRects_raw 1 s _ _ hdr1 pixels1 (hdr2 ++ pixels2 ++ rest))
        by (try reflexivity; try assumption; fold r1; lia).
      rewrite (updateRects_raw 0 s _ _ hdr2 pixels2 rest)
        by (try reflexivity; try assumption; fold r2; lia).
      cbn [updateRects buf_pos]. fold r1 r2. fold region.
      rewrite !len_app. change sz_rfbFramebufferUpdateRectHeader with 12 in *.
      do 4 f_equal. lia. }
    assert (Hrects : updateRectsOf s = [r1; r2]).
    { rewrite (updateRectsOf_header s pad x00 x02
                 ((hdr1 ++ pixels1 ++ hdr2 ++ pixels2) ++ rest))
        by (rewrite Hin; unfold message; now rewrite <- !app_assoc).
      change (Z.to_nat (qFromBigEndian [x00; x02])) with 2%nat.
      rewrite <- !app_assoc.
      rewrite (decodedRects_raw 1 s _ hdr1 pixels1 (hdr2 ++ pixels2 ++ rest))
        by (try reflexivity; try assumption; fold r1; lia).
      rewrite (decodedRects_raw 0 s _ hdr2 pixels2 rest)
        by (try reflexivity; try assumption; fold r2; lia).
      reflexivity. }
    assert (Hregion : region = map rectOf (filter counts [r1; r2])).
    { unfold region. rewrite !addUpdatedRect_counts. fold counts. cbn [app filter map].
      destruct (counts r1), (counts r2); reflexivity. }
    unfold r.
    rewrite (receiveMessage_update MaximumMessageSize s pad x00 x02
               (hdr1 ++ pixels1 ++ hdr2 ++ pixels2) rest region Hin Hmax Hint Hloop).
    cbn [fst snd]. rewrite Hregion.
    split; [reflexivity|]. split; [reflexivity|]. split; [reflexivity|].
    split; [exact Hrects|]. split; [reflexivity|].
    change (m_lastUpdatedRect _) with (boundingRect (map rectOf (filter counts [r1; r2]))).
    cbn [filter].
    split; [|split; [|split]]; intros Hc1 Hc2; rewrite Hc1, Hc2; try reflexivity.
    split; [reflexivity|]. cbn [map boundingRect fold_left].
    split.
    + intros px py Hc. now apply rect_united_contains.
    + unfold counts, countsForUpdate in Hc1, Hc2.
      apply andb_prop in Hc1. destruct Hc1 as [Hc1 _]. apply andb_prop in Hc1.
      destruct Hc1 as [Hc1 _]. apply andb_prop in Hc1. destruct Hc1 as [Hc1 Hh1'].
      apply andb_prop in Hc1. destruct Hc1 as [_ Hw1'].
      apply andb_prop in Hc2. destruct Hc2 as [Hc2 _]. apply andb_prop in Hc2.
      destruct Hc2 as [Hc2 _]. apply andb_prop in Hc2. destruct Hc2 as [Hc2 Hh2'].
      apply andb_prop in Hc2. destruct Hc2 as [_ Hw2'].
      apply Z.ltb_lt in Hw1', Hh1', Hw2', Hh2'.
      intros q Hcover. now apply rect_united_smallest.
  - intros pad hdr1 pixels1 hdrP rest r1 rP message Hin Hh1 HhP He1 HeP Hp1.
    pose proof (len_nonneg pixels1) as Hp10. pose proof (len_nonneg rest) as Hr0.
    assert (Hav : bytesAvailable (m_socket s) = 4 + 12 + len pixels1 + 12 + len rest).
    { unfold bytesAvailable. rewrite Hin. unfold message. rewrite !len_app.
      change (len [x00; pad; x00; x02]) with 4.
      change sz_rfbFramebufferUpdateRectHeader with 12 in *. lia. }
    set (region := addUpdatedRect s [] r1).
    assert (Hloop : updateRects (Z.to_nat (qFromBigEndian [x00; x02])) s
                      (mkBuffer ((hdr1 ++ pixels1 ++ hdrP) ++ rest)
                         sz_rfbFramebufferUpdateMsg) []
                    = (Some (mkBuffer rest
                               (sz_rfbFramebufferUpdateMsg
                                + len (hdr1 ++ pixels1 ++ hdrP)), region), s)).
    { change (Z.to_nat (qFromBigEndian [x00; x02])) with 2%nat.
      rewrite <- !app_assoc.
      rewrite (updateRects_raw 1 s _ _ hdr1 pixels1 (hdrP ++ rest))
        by (try reflexivity; try assumption; fold r1; lia).
      rewrite (updateRects_no_payload 0 s _ _ hdrP rest)
        by (try reflexivity; assumption).
      cbn [updateRects buf_pos]. fold r1. fold region.
      rewrite !len_app. change sz_rfbFramebufferUpdateRectHeader with 12 in *.
      do 4 f_equal. lia. }
    assert (Hrects : updateRectsOf s = [r1; rP]).
    { rewrite (updateRectsOf_header s pad x00 x02 ((hdr1 ++ pixels1 ++ hdrP) ++ rest))
        by (rewrite Hin; unfold message; now rewrite <- !app_assoc).
      change (Z.to_nat (qFromBigEndian [x00; x02])) with 2%nat.
      rewrite <- !app_assoc.
      rewrite (decodedRects_raw 1 s _ hdr1 pixels1 (hdrP ++ rest))
        by (try reflexivity; try assumption; fold r1; lia).
      rewrite (decodedRects_no_payload 0 s _ hdrP rest) by (try reflexivity; assumption).
      reflexivity. }
    assert (Hpseudo : isPseudoEncoding rP = true).
    { unfold isPseudoEncoding. fold rP in HeP.
      destruct HeP as [He|[He|[He|[]]]]; rewrite <- He; reflexivity. }
    assert (Hregion : region = map rectOf (filter counts [r1])).
    { unfold region. rewrite addUpdatedRect_counts. fold counts. cbn [app filter map].
      destruct (counts r1); reflexivity. }
    unfold r.
    rewrite (receiveMessage_update MaximumMessageSize s pad x00 x02
               (hdr1 ++ pixels1 ++ hdrP) rest region Hin Hmax Hint Hloop).
    cbn [fst snd]. rewrite Hregion.
    split; [reflexivity|]. split; [reflexivity|]. split; [exact Hrects|].
    split; [exact Hpseudo | reflexivity].
Qed.

Lemma framebuffer_update_two_raw_witness :
  let hdr1 := [x00; x00; x00; x00; x00; x02; x00; x02; x00; x00; x00; x00] in
  let hdr2 := [x00; x64; x00; x64; x00; x02; x00; x02; x00; x00; x00; x00] in
  let hdrP := [x00; x32; x00; x32; x00; x0a; x00; x0a; xff; xff; xff; x18] in
  let pixels1 := [x11; x12; x13; x14] in
  let pixels2 := [x21; x22; x23; x24] in
  (let s := runningAt x08 200 200 (twoRawRects ++ [x02]) in
   bytesAvailable (m_socket s) <= 67108864
   /\ 67108864 < 2 ^ 31
   /\ sk_in (m_socket s)
      = ([x00; x00; x00; x02] ++ hdr1 ++ pixels1 ++ hdr2 ++ pixels2) ++ [x02]
   /\ countsForUpdate 200 200 (decodeRectHeader hdr1) = true
   /\ countsForUpdate 200 200 (decodeRectHeader hdr2) = true
   /\ fst (receiveMessage 67108864 s) = true
   /\ sk_in (m_socket (snd (receiveMessage 67108864 s))) = [x02]
   /\ m_lastUpdatedRect (snd (receiveMessage 67108864 s)) = mkRect 0 0 102 102)
  /\ (let s := runningAt x08 200 200
                 ([x00; x00; x00; x02] ++ hdr1 ++ pixels1 ++ hdrP) in
      rh_encoding (decodeRectHeader hdrP) = rfbEncodingPointerPos
      /\ rectOf (decodeRectHeader hdrP) = mkRect 50 50 10 10
      /\ fst (receiveMessage 67108864 s) = true
      /\ m_lastUpdatedRect (snd (receiveMessage 67108864 s)) = mkRect 0 0 2 2).
Proof.
  intros hdr1 hdr2 hdrP pixels1 pixels2.
  assert (Hint : 67108864 < 2 ^ 31) by reflexivity.
  split.
  - intros s.
    assert (Hmax : bytesAvailable (m_socket s) <= 67108864) by discriminate.
    destruct (proj1 (proj2 (framebuffer_update_two_raw 67108864 s Hmax Hint))
                x00 hdr1 pixels1 hdr2 pixels2 [x02]
                eq_refl eq_refl eq_refl eq_refl eq_refl eq_refl eq_refl)
      as [Htrue [Hrest [_ [_ [_ [Hboth _]]]]]].
    split; [exact Hmax|]. split; [exact Hint|]. split; [reflexivity|].
    split; [reflexivity|]. split; [reflexivity|]. split; [exact Htrue|].
    split; [exact Hrest|].
    exact (proj1 (Hboth eq_refl eq_refl)).
  - intros s.
    assert (Hmax : bytesAvailable (m_socket s) <= 67108864) by discriminate.
    assert (HinP : In (rh_encoding (decodeRectHeader hdrP))
                     [rfbEncodingPointerPos; rfbEncodingKeyboardLedState;
                      rfbEncodingNewFBSize]) by (left; reflexivity).
    destruct (proj2 (proj2 (framebuffer_update_two_raw 67108864 s Hmax Hint))
                x00 hdr1 pixels1 hdrP [] eq_refl eq_refl eq_refl eq_refl HinP eq_refl)
      as [Htrue [_ [_ [_ Hrect]]]].
    split; [reflexivity|]. split; [reflexivity|]. split; [exact Htrue|].
    rewrite Hrect. reflexivity.
Defined.
